(** * memory-neo4j: attention gate, embeddings and memory tools

    A shallow embedding of [extensions/memory-neo4j/index.ts] and of the
    [Embeddings] class, with the theorems that settle the specification's
    claims about them, and further properties of the same code.

    Layout: the JavaScript data the code manipulates (numbers, strings,
    regular expressions), then the program (attention gate, embeddings,
    tools, sleep command, auto-capture hook; then the other commands, the
    session tables and the lifecycle hooks), then the theorems. *)

From Stdlib Require Import ZArith NArith List Bool Lia String Ascii DecimalString.
From Stdlib Require Import Sorted Permutation.
From Stdlib Require Import Floats.SpecFloat.
Import ListNotations.

Set Implicit Arguments.

(* ====================================================================== *)
(** ** JavaScript numbers: IEEE 754 binary64 *)
(* ====================================================================== *)

Module Num.

Open Scope Z_scope.

(** A JS [number] is a binary64 value; [spec_float] is the standard
    library's specification of them (sign, mantissa, exponent). *)
Definition number : Type := spec_float.

Definition prec : Z := 53.
Definition emax : Z := 1024.

Definition NaN : number := S754_nan.

(** The number denoted by an integer (rounded to nearest, ties to even). *)
Definition of_Z (z : Z) : number := binary_normalize prec emax z 0 false.

(** The number denoted by the decimal literal [m * 10^e]: the nearest
    binary64, as the language reads numeric literals and digit strings. *)
Definition decimal (m e : Z) : number :=
  if 0 <=? e then of_Z (m * 10 ^ e)
  else
    let '(q, e', l) := SFdiv_core_binary prec emax (Z.abs m) 0 (10 ^ (- e)) 0 in
    match m with
    | Z0 => S754_zero false
    | Zpos _ => binary_round_aux prec emax false q e' l
    | Zneg _ => binary_round_aux prec emax true q e' l
    end.

(** Relational operators; every comparison with NaN is false. *)
Definition lt (a b : number) : bool := SFltb a b.
Definition gt (a b : number) : bool := SFltb b a.
Definition le (a b : number) : bool := SFleb a b.
Definition ge (a b : number) : bool := SFleb b a.

Definition isNaN (a : number) : bool :=
  match a with S754_nan => true | _ => false end.

Definition mul (a b : number) : number := SFmul prec emax a b.

(** [Math.max(a, b)]: NaN if either is NaN; +0 is larger than -0. *)
Definition Math_max (a b : number) : number :=
  match SFcompare a b with
  | None => NaN
  | Some Lt => b
  | Some Gt => a
  | Some Eq =>
      match a, b with
      | S754_zero true, S754_zero false => b
      | _, _ => a
      end
  end.

(** [Math.min(a, b)]: NaN if either is NaN; -0 is smaller than +0. *)
Definition Math_min (a b : number) : number :=
  match SFcompare a b with
  | None => NaN
  | Some Lt => a
  | Some Gt => b
  | Some Eq =>
      match a, b with
      | S754_zero false, S754_zero true => b
      | _, _ => a
      end
  end.

(** The numeric literals of the source. *)
Definition lit_0 : number := S754_zero false.
Definition lit_1 : number := Eval vm_compute in of_Z 1.
Definition lit_0_4 : number := Eval vm_compute in decimal 4 (-1).
Definition lit_0_5 : number := Eval vm_compute in decimal 5 (-1).
Definition lit_0_7 : number := Eval vm_compute in decimal 7 (-1).
Definition lit_0_8 : number := Eval vm_compute in decimal 8 (-1).
Definition lit_0_9 : number := Eval vm_compute in decimal 9 (-1).
Definition lit_0_95 : number := Eval vm_compute in decimal 95 (-2).

(** [0 <= a <= 1]; false for NaN. *)
Definition in_unit_interval (a : number) : bool := le lit_0 a && le a lit_1.

End Num.

(* ====================================================================== *)
(** ** JavaScript strings: sequences of UTF-16 code units *)
(* ====================================================================== *)

Module Str.

Definition codeunit : Type := N.
Definition jsstring : Type := list codeunit.

(** An ASCII literal as a JS string. *)
Definition js (s : string) : jsstring :=
  List.map N_of_ascii (list_ascii_of_string s).

(** [s.length] *)
Definition length (s : jsstring) : Z := Z.of_nat (List.length s).

Definition in_range (lo hi c : N) : bool := (N.leb lo c && N.leb c hi)%bool.

(** WhiteSpace and LineTerminator code points: what [trim] strips and
    [\s] matches. *)
Definition isWhiteSpace (c : N) : bool :=
  (in_range 9 13 c || N.eqb c 32 || N.eqb c 160 || N.eqb c 5760
   || in_range 8192 8202 c || N.eqb c 8232 || N.eqb c 8233
   || N.eqb c 8239 || N.eqb c 8287 || N.eqb c 12288 || N.eqb c 65279)%bool.

Fixpoint trimStart (s : jsstring) : jsstring :=
  match s with
  | c :: s' => if isWhiteSpace c then trimStart s' else s
  | [] => []
  end.

Definition trimEnd (s : jsstring) : jsstring := rev (trimStart (rev s)).

(** [s.trim()] *)
Definition trim (s : jsstring) : jsstring := trimEnd (trimStart s).

(** Relative index of [slice]: negative counts from the end, then
    clamped to [0, len]. *)
Definition relative (len i : Z) : Z :=
  if (i <? 0)%Z then Z.max (len + i) 0 else Z.min i len.

(** [s.slice(start, end)] *)
Definition slice (s : jsstring) (start stop : Z) : jsstring :=
  let len := length s in
  let from := relative len start in
  let to := relative len stop in
  firstn (Z.to_nat (Z.max (to - from) 0)) (skipn (Z.to_nat from) s).

Fixpoint startsWith (p s : jsstring) : bool :=
  match p, s with
  | [], _ => true
  | a :: p', b :: s' => (N.eqb a b && startsWith p' s')%bool
  | _ :: _, [] => false
  end.

Fixpoint lastIndexOf_from (search s : jsstring) (i best : Z) : Z :=
  match s with
  | [] => if startsWith search [] then i else best
  | _ :: s' =>
      lastIndexOf_from search s' (i + 1) (if startsWith search s then i else best)
  end.

(** [s.lastIndexOf(search)]: the largest index where [search] occurs,
    [-1] when there is none. *)
Definition lastIndexOf (s search : jsstring) : Z :=
  lastIndexOf_from search s 0 (-1).

(** [s.includes(search)] *)
Fixpoint includes (s search : jsstring) : bool :=
  (startsWith search s
   || match s with
      | [] => false
      | _ :: s' => includes s' search
      end)%bool.

(** [String(z)] for an integer [z]: its decimal digits. *)
Definition of_Z (z : Z) : jsstring := js (NilZero.string_of_int (Z.to_int z)).

(** The code points of a string read as UTF-16: a lead surrogate
    followed by a trail surrogate is one code point. *)
Definition isLead (c : N) : bool := in_range 55296 56319 c.
Definition isTrail (c : N) : bool := in_range 56320 57343 c.

Fixpoint codePoints (s : jsstring) : list N :=
  match s with
  | [] => []
  | a :: tl =>
      match tl with
      | b :: t =>
          if (isLead a && isTrail b)%bool
          then (65536 + (a - 55296) * 1024 + (b - 56320))%N :: codePoints t
          else a :: codePoints tl
      | [] => [a]
      end
  end.

End Str.

(* ====================================================================== *)
(** ** parseInt and parseFloat *)
(* ====================================================================== *)

Module Parse.

Import Str.
Open Scope Z_scope.

(** The longest prefix of decimal digits of [s], read from the
    accumulator [acc]: its value, the number of digits, the rest. *)
Fixpoint digits (s : jsstring) (acc n : Z) : Z * Z * jsstring :=
  match s with
  | c :: s' =>
      if in_range 48 57 c then digits s' (acc * 10 + (Z.of_N c - 48)) (n + 1)
      else (acc, n, s)
  | [] => (acc, n, [])
  end.

(** An optional sign: [true] for [-]. *)
Definition sign (s : jsstring) : bool * jsstring :=
  match s with
  | c :: s' =>
      if N.eqb c 45 then (true, s')
      else if N.eqb c 43 then (false, s')
      else (false, s)
  | [] => (false, [])
  end.

Definition signed (neg : bool) (x : Num.number) : Num.number :=
  if neg then SFopp x else x.

(** [parseInt(s, 10)]: leading white space, a sign, then as many digits
    as there are; NaN when there is none.  What follows is ignored. *)
Definition parseInt (s : jsstring) : Num.number :=
  let (neg, s1) := sign (trimStart s) in
  let '(v, n, _) := digits s1 0 0 in
  if n =? 0 then Num.NaN else signed neg (Num.of_Z v).

(** The exponent part [e|E [sign] digits] read at the head of [s]; 0 when
    there is none. *)
Definition exponent (s : jsstring) : Z :=
  match s with
  | c :: s' =>
      if (N.eqb c 101 || N.eqb c 69)%bool then
        let (neg, s1) := sign s' in
        let '(v, n, _) := digits s1 0 0 in
        if n =? 0 then 0 else if neg then - v else v
      else 0
  | [] => 0
  end.

(** [parseFloat(s)]: leading white space, then the longest prefix that
    is a decimal literal ([Infinity], or digits with an optional
    fraction and exponent); NaN when there is none. *)
Definition parseFloat (s : jsstring) : Num.number :=
  let (neg, s1) := sign (trimStart s) in
  if startsWith (js "Infinity") s1 then S754_infinity neg
  else
    let '(ip, ni, s2) := digits s1 0 0 in
    let '(m, nf, s3) :=
      match s2 with
      | c :: s2' => if N.eqb c 46 then digits s2' ip 0 else (ip, 0, s2)
      | [] => (ip, 0, [])
      end in
    if ni + nf =? 0 then Num.NaN
    else signed neg (Num.decimal m (exponent s3 - nf)).

End Parse.

(* ====================================================================== *)
(** ** JavaScript regular expressions *)
(* ====================================================================== *)

(** The pattern language of the source's regular expressions and its
    backtracking semantics (ECMA-262, 22.2.2): a matcher takes the current
    position and a continuation, alternatives are tried left to right,
    quantifiers are greedy or lazy.  [RegExp] objects carry [lastIndex],
    which [exec] and [test] read and write on a global pattern. *)
Module RegExp.

Import Str.

Inductive citem : Type :=
| CChar (c : N)                  (* a literal member *)
| CRange (lo hi : N)             (* lo-hi *)
| CSpace                         (* \s *)
| CNonSpace                      (* \S *)
| CWord                          (* \w *)
| CDigit                         (* \d *)
| CEmoji.                        (* \p{Emoji} *)

Inductive regex : Type :=
| Empty
| Char (c : N)
| Dot
| Class (items : list citem)
| Seq (r1 r2 : regex)
| Alt (r1 r2 : regex)
| Rep (r : regex) (min : nat) (max : option nat) (greedy : bool)
| Bol
| Eol.

Definition upper (c : N) : N := if in_range 97 122 c then (c - 32)%N else c.
Definition lower (c : N) : N := if in_range 65 90 c then (c + 32)%N else c.

Definition isWordChar (c : N) : bool :=
  (in_range 97 122 c || in_range 65 90 c || in_range 48 57 c || N.eqb c 95)%bool.

Definition isLineTerminator (c : N) : bool :=
  (N.eqb c 10 || N.eqb c 13 || N.eqb c 8232 || N.eqb c 8233)%bool.

(** The ASCII characters with the Unicode property Emoji
    (emoji-data.txt): [#], [*] and the digits. *)
Definition Emoji_ascii (c : N) : bool :=
  (N.eqb c 35 || N.eqb c 42 || in_range 48 57 c)%bool.

(** Width in code units of a character of the input list: with the [u]
    flag the input is a list of code points, and one above U+FFFF stands
    for a surrogate pair. *)
Definition width (u : bool) (c : N) : nat :=
  if (u && N.leb 65536 c)%bool then 2 else 1.

Definition matcher : Type :=
  nat -> list N -> (nat -> list N -> option nat) -> option nat.

(** RepeatMatcher.  An iteration that is not required ([min = 0]) and
    consumes nothing fails, so at most [min + length s] iterations
    happen; [fuel] is set above that by [rmatch]. *)
Fixpoint repeatMatcher (fuel : nat) (m : matcher) (min : nat) (max : option nat)
    (greedy : bool) (i : nat) (s : list N) (k : nat -> list N -> option nat)
    : option nat :=
  match fuel with
  | O => None
  | S fuel' =>
      match max with
      | Some O => k i s
      | _ =>
          let d := fun j t =>
            if (Nat.eqb min 0 && Nat.eqb j i)%bool then None
            else repeatMatcher fuel' m (Nat.pred min) (option_map Nat.pred max)
                   greedy j t k in
          if negb (Nat.eqb min 0) then m i s d
          else if greedy then
            match m i s d with
            | Some e => Some e
            | None => k i s
            end
          else
            match k i s with
            | Some e => Some e
            | None => m i s d
            end
      end
  end.

Section Matcher.

(** The Unicode property [Emoji] (emoji-data.txt) of the runtime. *)
Variable Emoji : N -> bool.

(** Flags [i] (ignoreCase) and [u] (unicode). *)
Variables (ic u : bool).

Definition item_has (it : citem) (c : N) : bool :=
  match it with
  | CChar a => N.eqb a c
  | CRange lo hi => in_range lo hi c
  | CSpace => isWhiteSpace c
  | CNonSpace => negb (isWhiteSpace c)
  | CWord => isWordChar c
  | CDigit => in_range 48 57 c
  | CEmoji => Emoji c
  end.

(** Under [i] a member matches when its canonical form equals the
    character's.  Canonicalize never maps a code unit above 127 to
    ASCII, so for members that are ASCII or caseless, as all members of
    the source's patterns are, that is: equal up to ASCII case. *)
Definition item_matches (it : citem) (c : N) : bool :=
  (item_has it c || (ic && (item_has it (upper c) || item_has it (lower c))))%bool.

Definition char_matches (a c : N) : bool :=
  if ic then N.eqb (upper a) (upper c) else N.eqb a c.

Definition step (p : N -> bool) : matcher :=
  fun i s k =>
    match s with
    | c :: s' => if p c then k (i + width u c) s' else None
    | [] => None
    end.

Fixpoint rmatch (r : regex) : matcher :=
  match r with
  | Empty => fun i s k => k i s
  | Char a => step (char_matches a)
  | Dot => step (fun c => negb (isLineTerminator c))
  | Class items => step (fun c => existsb (fun it => item_matches it c) items)
  | Seq r1 r2 => fun i s k => rmatch r1 i s (fun j t => rmatch r2 j t k)
  | Alt r1 r2 => fun i s k =>
      match rmatch r1 i s k with
      | Some e => Some e
      | None => rmatch r2 i s k
      end
  | Rep r' min max greedy => fun i s k =>
      repeatMatcher (S (min + List.length s)) (rmatch r') min max greedy i s k
  | Bol => fun i s k => if Nat.eqb i 0 then k i s else None
  | Eol => fun i s k => match s with [] => k i s | _ :: _ => None end
  end.

(** The first match at or after index [from], scanning left to right:
    [(start, end)] in code units. *)
Fixpoint search (r : regex) (from i : nat) (s : list N) : option (nat * nat) :=
  match (if Nat.leb from i then rmatch r i s (fun e _ => Some e) else None) with
  | Some e => Some (i, e)
  | None =>
      match s with
      | [] => None
      | c :: s' => search r from (i + width u c) s'
      end
  end.

End Matcher.

(** A RegExp object. *)
Record RegExp : Type := mkRegExp {
  source : regex;
  ignoreCase : bool;
  global : bool;
  unicode : bool;
  lastIndex : Z
}.

Definition set_lastIndex (re : RegExp) (i : Z) : RegExp :=
  mkRegExp (source re) (ignoreCase re) (global re) (unicode re) i.

(** A regular expression literal: a fresh object, [lastIndex = 0]. *)
Definition literal (r : regex) (i g u : bool) : RegExp := mkRegExp r i g u 0.

Section Exec.

Variable Emoji : N -> bool.

Definition input (re : RegExp) (s : jsstring) : list N :=
  if unicode re then codePoints s else s.

(** RegExpBuiltinExec: a pattern without [g] starts at 0 and leaves
    [lastIndex] alone; a global one starts at [lastIndex], stores the
    end of the match there, and resets it to 0 on failure. *)
Definition exec (re : RegExp) (s : jsstring) : option (Z * Z) * RegExp :=
  let start := if global re then Z.max (lastIndex re) 0 else 0%Z in
  if (length s <? start)%Z then
    (None, if global re then set_lastIndex re 0 else re)
  else
    match search Emoji (ignoreCase re) (unicode re) (source re)
            (Z.to_nat start) 0 (input re s) with
    | Some (b, e) =>
        (Some (Z.of_nat b, Z.of_nat e),
         if global re then set_lastIndex re (Z.of_nat e) else re)
    | None => (None, if global re then set_lastIndex re 0 else re)
    end.

(** [re.test(s)] *)
Definition test (re : RegExp) (s : jsstring) : bool * RegExp :=
  let (m, re') := exec re s in
  (match m with Some _ => true | None => false end, re').

(** [s.match(re)] for a global [re]: [lastIndex] is reset, [exec] runs
    until it fails, an empty match advances by one. The list of
    matches ([null] of the source is the empty list). *)
Fixpoint match_loop (fuel : nat) (re : RegExp) (s : jsstring)
    : list (Z * Z) * RegExp :=
  match fuel with
  | O => ([], re)
  | S fuel' =>
      match exec re s with
      | (Some (b, e), re') =>
          let re'' := if (e =? b)%Z then set_lastIndex re' (e + 1) else re' in
          let (ms, re3) := match_loop fuel' re'' s in
          ((b, e) :: ms, re3)
      | (None, re') => ([], re')
      end
  end.

Definition match_g (s : jsstring) (re : RegExp) : list (Z * Z) * RegExp :=
  match_loop (S (S (List.length s))) (set_lastIndex re 0) s.

(** [s.split(re)] for a pattern without the [u] flag and without
    capture groups: at each index the pattern is tried in place; a match
    ending at the start of the current piece is skipped. *)
Fixpoint split_loop (re : RegExp) (whole : jsstring) (s : list N)
    (q p skip : nat) : list jsstring :=
  match s with
  | [] => [skipn p whole]
  | _ :: s' =>
      match skip with
      | S n => split_loop re whole s' (S q) p n
      | O =>
          match rmatch Emoji (ignoreCase re) false (source re) q s
                  (fun e _ => Some e) with
          | Some e =>
              if Nat.eqb e p then split_loop re whole s' (S q) p 0
              else firstn (q - p) (skipn p whole)
                     :: split_loop re whole s' (S q) e (e - q - 1)
          | None => split_loop re whole s' (S q) p 0
          end
      end
  end.

Definition split (s : jsstring) (re : RegExp) : list jsstring :=
  match s with
  | [] =>
      match rmatch Emoji (ignoreCase re) false (source re) 0 []
              (fun e _ => Some e) with
      | Some _ => []
      | None => [s]
      end
  | _ :: _ => split_loop re s s 0 0 0
  end.

End Exec.

End RegExp.

(* ====================================================================== *)
(** ** The attention gate (index.ts, bottom of the file) *)
(* ====================================================================== *)

Module Gate.

Import Str RegExp.
Open Scope string_scope.

(** *** Pattern syntax helpers *)

Definition ch (a : ascii) : N := N_of_ascii a.

(** A literal run of ASCII characters. *)
Definition str (s : string) : regex :=
  fold_right (fun a r => Seq (Char (ch a)) r) Empty (list_ascii_of_string s).

Definition seqs (l : list regex) : regex := fold_right Seq Empty l.

(** [(a|b|...)]; the empty alternation matches nothing. *)
Fixpoint alts (l : list regex) : regex :=
  match l with
  | [] => Class []
  | [r] => r
  | r :: l' => Alt r (alts l')
  end.

Definition words (l : list string) : regex := alts (List.map str l).

Definition opt (r : regex) : regex := Rep r 0 (Some 1%nat) true.
Definition star (r : regex) : regex := Rep r 0 None true.
Definition plus (r : regex) : regex := Rep r 1 None true.
Definition times (n : nat) (r : regex) : regex := Rep r n (Some n) true.

Definition ws : regex := Class [CSpace].                                (* \s *)
Definition punct : regex := Class [CChar (ch "."); CChar (ch "!"); CChar (ch "?")].
Definition comma_dot : regex := Class [CChar (ch ","); CChar (ch ".")].  (* [,.] *)
Definition tag_name : regex := Class [CRange (ch "a") (ch "z"); CChar (ch "-")].
Definition digit : regex := Class [CDigit].
Definition anything : regex := Class [CSpace; CNonSpace].               (* [\s\S] *)

(** *** NOISE_PATTERNS *)

Definition NOISE_PATTERNS : list RegExp :=
  [ (* Greetings / acknowledgments *)
    literal (seqs [Bol;
               words ["hi"; "hey"; "hello"; "yo"; "sup"; "ok"; "okay"; "sure";
                      "thanks"; "thank you"; "thx"; "ty"; "yep"; "yup"; "nope";
                      "no"; "yes"; "yeah"; "cool"; "nice"; "great"; "got it";
                      "sounds good"; "perfect"; "alright"; "fine"; "noted";
                      "ack"; "kk"; "k"];
               star ws; star punct; Eol]) true false false;
    (* Two-word affirmations *)
    literal (seqs [Bol;
               words ["ok"; "okay"; "yes"; "yeah"; "yep"; "sure"; "no"; "nope";
                      "alright"; "right"; "fine"; "cool"; "nice"; "great"];
               plus ws;
               words ["great"; "good"; "sure"; "thanks"; "please"; "ok"; "fine";
                      "cool"; "yeah"; "perfect"; "noted"; "absolutely";
                      "definitely"; "exactly"];
               star ws; star punct; Eol]) true false false;
    (* Deictic *)
    literal (seqs [Bol;
               opt (seqs [str "ok"; opt comma_dot; plus ws]);
               opt (seqs [str "i"; opt (words ["'ll"; "'m"; "'d"; "'ve"]); plus ws]);
               opt (seqs [str "just"; plus ws]);
               words ["need"; "want"; "got"; "have"; "let"; "let's"; "let me";
                      "give me"; "send"; "do"; "did"; "try"; "check"; "see";
                      "look at"; "test"; "take"; "get"; "go"; "use"];
               plus ws;
               words ["it"; "that"; "this"; "those"; "these"; "them"; "some";
                      "one"; "the"; "a"; "an"; "me"; "him"; "her"; "us"];
               star ws;
               opt (words ["out"; "up"; "now"; "then"; "too"; "again"; "later";
                           "first"; "here"; "there"; "please"]);
               star ws; star punct; Eol]) true false false;
    (* Short acknowledgments with trailing context *)
    literal (seqs [Bol;
               words ["ok"; "okay"; "yes"; "yeah"; "yep"; "sure"; "no"; "nope";
                      "right"; "alright"; "fine"; "cool"; "nice"; "great";
                      "perfect"];
               opt comma_dot; plus ws; Rep Dot 0 (Some 20%nat) true; Eol])
      true false false;
    (* Conversational filler *)
    literal (seqs [Bol;
               alts ([Seq (str "hm") (plus (Char (ch "m")))]
                     ++ List.map str
                          ["huh"; "haha"; "ha"; "lol"; "lmao"; "rofl"; "nah";
                           "meh"; "idk"; "brb"; "ttyl"; "omg"; "wow"; "whoa";
                           "welp"; "oops"; "ooh"; "aah"; "ugh"; "bleh"; "pfft";
                           "smh"; "ikr"; "tbh"; "imo"; "fwiw"; "np"; "nvm"; "nm";
                           "wut"; "wat"; "wha"; "heh"; "tsk"; "sigh"; "yay"]
                     ++ [Seq (str "wo") (plus (Char (ch "o")))]
                     ++ List.map str
                          ["boo"; "dang"; "darn"; "geez"; "gosh"; "sheesh"; "oof"]);
               star ws; star punct; Eol]) true false false;
    (* Single-word or near-empty *)
    literal (seqs [Bol; Rep (Class [CNonSpace]) 0 (Some 3%nat) true; Eol])
      false false false;
    (* Pure emoji *)
    literal (seqs [Bol; plus (Class [CEmoji; CSpace]); Eol]) false false true;
    (* System/XML markup *)
    literal (seqs [Bol; Char (ch "<"); plus tag_name; Char (ch ">");
               star anything;
               str "</"; plus tag_name; Char (ch ">"); Eol]) true false false;
    (* Session reset prompts *)
    literal (seqs [Bol; str "A new session was started via"]) true false false;
    (* Heartbeat prompts *)
    literal (str "Read HEARTBEAT.md if it exists") true false false;
    (* Pre-compaction flush prompts *)
    literal (seqs [Bol; str "Pre-compaction memory flush"]) true false false;
    (* System timestamp messages *)
    literal (seqs [Bol; str "System:"; star ws; Char (ch "[")]) true false false;
    (* Cron job wrappers *)
    literal (seqs [Bol; str "[cron:";
               plus (Class [CRange (ch "0") (ch "9"); CRange (ch "a") (ch "f");
                            CChar (ch "-")])]) true false false;
    (* Gateway restart JSON payloads *)
    literal (seqs [Bol; str "GatewayRestart:"; star ws; Char (ch "{")])
      true false false;
    (* Background task completion reports *)
    literal (seqs [Bol; Char (ch "["); times 3 (Class [CWord]); plus ws;
               times 4 digit; Char (ch "-"); times 2 digit; Char (ch "-");
               times 2 digit; ws; star Dot; Char (ch "]"); star ws;
               str "A background task"]) true false false ].

Definition MAX_CAPTURE_CHARS : Z := 2000.
Definition MIN_CAPTURE_CHARS : Z := 30.
Definition MIN_WORD_COUNT : Z := 5.
Definition MAX_ASSISTANT_CAPTURE_CHARS : Z := 1000.
Definition MIN_ASSISTANT_WORD_COUNT : Z := 10.

(** The regular expression literals written inside the functions; each
    evaluation of the function creates a fresh object. *)
Definition whitespace_run : RegExp := literal (plus ws) false false false. (* /\s+/ *)
Definition emoji_block : RegExp :=                    (* /[\u{1F300}-\u{1F9FF}]/gu *)
  literal (Class [CRange 127744 129535]) false true true.
Definition codeBlockRegex : RegExp :=                           (* /```[\s\S]*?```/g *)
  literal (seqs [str "```"; Rep anything 0 None false; str "```"]) false true false.

Section WithRuntime.

Variable Emoji : N -> bool.

(** [patterns.some((r) => r.test(s))] over an array of RegExp objects:
    stops at the first match; the objects are the shared ones, so
    whatever [test] writes to them stays. *)
Fixpoint some_test (patterns : list RegExp) (s : jsstring)
    : bool * list RegExp :=
  match patterns with
  | [] => (false, [])
  | re :: rest =>
      let (b, re') := test Emoji re s in
      if b then (true, re' :: rest)
      else let (b', rest') := some_test rest s in (b', re' :: rest')
  end.

(** [passesAttentionGate(text)].  The second component is the
    module-level array [NOISE_PATTERNS] after the call. *)
Definition passesAttentionGate (text : jsstring) (patterns : list RegExp)
    : bool * list RegExp :=
  let trimmed := trim text in
  if ((length trimmed <? MIN_CAPTURE_CHARS)
      || (length trimmed >? MAX_CAPTURE_CHARS))%Z%bool then (false, patterns)
  else
    let wordCount :=
      Z.of_nat (List.length (split Emoji trimmed whitespace_run)) in
    if (wordCount <? MIN_WORD_COUNT)%Z then (false, patterns)
    else if (includes trimmed (js "<relevant-memories>")
             || includes trimmed (js "<core-memory-refresh>"))%bool
    then (false, patterns)
    else
      let (noisy, patterns') := some_test patterns trimmed in
      if noisy then (false, patterns')
      else
        let emojiCount :=
          Z.of_nat (List.length (fst (match_g Emoji trimmed emoji_block))) in
        if (emojiCount >? 3)%Z then (false, patterns') else (true, patterns').

(** The loop [while ((match = codeBlockRegex.exec(trimmed)) !== null)
    codeChars += match[0].length].  [None]: still running after [fuel]
    iterations. *)
Fixpoint codeChars_loop (fuel : nat) (re : RegExp) (trimmed : jsstring)
    (codeChars : Z) : option Z :=
  match fuel with
  | O => None
  | S fuel' =>
      match exec Emoji re trimmed with
      | (Some (b, e), re') => codeChars_loop fuel' re' trimmed (codeChars + (e - b))%Z
      | (None, _) => Some codeChars
      end
  end.

(** [passesAssistantAttentionGate(text)].  The code-fence loop is given
    [length trimmed + 1] iterations, which it never exceeds
    ([codeChars_loop_total] below); [None] would be a loop that does. *)
Definition passesAssistantAttentionGate (text : jsstring)
    (patterns : list RegExp) : option (bool * list RegExp) :=
  let trimmed := trim text in
  if ((length trimmed <? MIN_CAPTURE_CHARS)
      || (length trimmed >? MAX_ASSISTANT_CAPTURE_CHARS))%Z%bool
  then Some (false, patterns)
  else
    let wordCount :=
      Z.of_nat (List.length (split Emoji trimmed whitespace_run)) in
    if (wordCount <? MIN_ASSISTANT_WORD_COUNT)%Z then Some (false, patterns)
    else
      match codeChars_loop (S (List.length trimmed)) codeBlockRegex trimmed 0 with
      | None => None
      | Some codeChars =>
          if Num.gt (Num.of_Z codeChars)
               (Num.mul (Num.of_Z (length trimmed)) Num.lit_0_5)
          then Some (false, patterns)
          else if (includes trimmed (js "<tool_result>")
                   || includes trimmed (js "<tool_use>")
                   || includes trimmed (js "<function_call>"))%bool
          then Some (false, patterns)
          else if (includes trimmed (js "<relevant-memories>")
                   || includes trimmed (js "<core-memory-refresh>"))%bool
          then Some (false, patterns)
          else
            let (noisy, patterns') := some_test patterns trimmed in
            if noisy then Some (false, patterns')
            else
              let emojiCount :=
                Z.of_nat (List.length (fst (match_g Emoji trimmed emoji_block))) in
              if (emojiCount >? 3)%Z then Some (false, patterns')
              else Some (true, patterns')
      end.

End WithRuntime.

End Gate.

(* ====================================================================== *)
(** ** The host: collaborators, effects and exceptions *)
(* ====================================================================== *)

(** The code talks to an embedding provider, the Neo4j client, the
    importance rater, the sleep cycle, the logger and the console.  Their
    behaviour is a [Runtime]: each call takes the environment, may throw,
    and leaves a new environment.  Every call is also recorded in a trace,
    so that theorems can say which calls a run made, and in which order. *)
Module Host.

Import Str.

Definition vector : Type := list Num.number.
Definition id : Type := jsstring.

(** A result or a thrown error (its message). *)
Inductive Outcome (A : Type) : Type :=
| Ok (a : A)
| Throw (err : jsstring).
Arguments Ok {A} a.
Arguments Throw {A} err.

Inductive MemorySource : Type :=
| source_user | source_auto_capture | source_auto_capture_assistant.

Inductive ExtractionStatus : Type := pending | skipped.

(** The argument of [db.storeMemory]. *)
Record StoreMemoryInput : Type := {
  sm_id : id;
  sm_text : jsstring;
  sm_embedding : vector;
  sm_importance : Num.number;
  sm_category : jsstring;
  sm_source : MemorySource;
  sm_extractionStatus : ExtractionStatus;
  sm_agentId : jsstring;
  sm_sessionKey : option jsstring
}.

(** A row of [db.findSimilar]. *)
Record Similar : Type := { sim_id : id; sim_text : jsstring }.

(** A row of [db.vectorSearch]. *)
Record Hit : Type := {
  hit_id : id;
  hit_text : jsstring;
  hit_category : jsstring;
  hit_score : Num.number
}.

(** One element of the provider's [response.data]. *)
Record Datum : Type := { index : Z; embedding : vector }.

(** The HTTP response of the Ollama endpoint, as far as the code reads
    it: [ok], [status], [text()] and [json()] with its [embeddings]. *)
Record Response : Type := {
  resp_ok : bool;
  resp_status : Z;
  resp_text : Outcome jsstring;
  resp_json : Outcome (option (list vector))
}.

(** The [input] of [client.embeddings.create]: a string or an array. *)
Inductive EmbeddingInput : Type :=
| One (text : jsstring)
| Many (texts : list jsstring).

(** The options object handed to [runSleepCycle]. *)
Record SleepCycleOptions : Type := {
  so_agentId : option jsstring;
  so_dedupThreshold : option Num.number;
  so_paretoPercentile : option Num.number;
  so_promotionMinAgeDays : option Num.number;
  so_decayRetentionThreshold : option Num.number;
  so_decayBaseHalfLifeDays : option Num.number;
  so_extractionBatchSize : option Num.number;
  so_extractionDelayMs : option Num.number
}.

Inductive Level : Type := debug | info | warn | error.

(** What is logged or printed: the template and the values it
    interpolates. *)
Inductive Message : Type :=
| MsgTruncated (from to context : Z)
| MsgOllamaItemFailed (i : Z) (reason : jsstring)
| MsgOllamaBatchFailed (failures total : Z)
| MsgAgentEndFired (success : bool) (messages : Z)
| MsgSkipping
| MsgItemFailed (err : jsstring)
| MsgAssistantItemFailed (err : jsstring)
| MsgAutoCaptured (stored : Z)
| MsgAutoCaptureRan (users retained assistants retainedAssistant : Z)
| MsgAutoCaptureFailed (err : jsstring)
| MsgSleepBanner
| MsgSleepReport
| MsgSleepAborted
| MsgSleepFailed (err : jsstring)
| MsgError (text : string).

(** One call to a collaborator. *)
Inductive Event : Type :=
| EvFetchOllama (url model input : jsstring)
| EvOpenAICreate (model : jsstring) (input : EmbeddingInput)
| EvFindSimilar (v : vector) (threshold : Num.number) (limit : Z)
| EvVectorSearch (v : vector) (limit : Z) (minScore : Num.number)
| EvStoreMemory (m : StoreMemoryInput)
| EvDeleteMemory (i : id)
| EvEnsureInitialized
| EvRunSleepCycle (opts : SleepCycleOptions)
| EvRateImportance (text : jsstring)
| EvRandomUUID (i : id)
| EvLog (l : Level) (m : Message)
| EvConsoleLog (m : Message)
| EvConsoleError (m : Message)
| EvExitCode (code : Z).

(** The events that reach the store or run the sleep cycle. *)
Definition is_store_io (e : Event) : bool :=
  match e with
  | EvFindSimilar _ _ _ | EvVectorSearch _ _ _ | EvStoreMemory _
  | EvDeleteMemory _ | EvEnsureInitialized | EvRunSleepCycle _ => true
  | _ => false
  end.

(** The events that leave the process: provider, store, rater. *)
Definition is_io (e : Event) : bool :=
  match e with
  | EvFetchOllama _ _ _ | EvOpenAICreate _ _ | EvRateImportance _ => true
  | _ => is_store_io e
  end.

Definition is_storeMemory (e : Event) : bool :=
  match e with EvStoreMemory _ => true | _ => false end.

Definition is_deleteMemory (e : Event) : bool :=
  match e with EvDeleteMemory _ => true | _ => false end.

Section Runtime.

(** The state of everything outside the plugin. *)
Variable Env : Type.
(** The host's message objects and the sleep cycle's report. *)
Variables (HostMessage SleepCycleResult : Type).

(** The collaborators.  Those of this repository that are not under
    src/ (neo4j-client.js, extractor.js, config.js) are taken as they are
    called: [rt_rateImportance] gets the text and [extractionConfig.enabled],
    [rt_runSleepCycle] the options object (its callbacks only print),
    [rt_aborted] reads [result.aborted]. *)
Record Runtime : Type := {
  (* the embedding providers *)
  fetch_ollama : jsstring -> jsstring -> jsstring -> Env -> Outcome Response * Env;
  openai_create : jsstring -> EmbeddingInput -> Env -> Outcome (list Datum) * Env;
  (* neo4j-client.js *)
  db_findSimilar : vector -> Num.number -> Z -> Env -> Outcome (list Similar) * Env;
  db_vectorSearch : vector -> Z -> Num.number -> Env -> Outcome (list Hit) * Env;
  db_storeMemory : StoreMemoryInput -> Env -> Outcome unit * Env;
  db_deleteMemory : id -> Env -> Outcome bool * Env;
  db_ensureInitialized : Env -> Outcome unit * Env;
  (* extractor.js *)
  rt_runSleepCycle : SleepCycleOptions -> Env -> Outcome SleepCycleResult * Env;
  rt_rateImportance : jsstring -> bool -> Env -> Outcome Num.number * Env;
  rt_extractUserMessages : list HostMessage -> Outcome (list jsstring);
  rt_extractAssistantMessages : list HostMessage -> Outcome (list jsstring);
  rt_aborted : SleepCycleResult -> bool;
  (* node:crypto *)
  rt_randomUUID : Env -> id * Env;
  (* config.js *)
  rt_contextLengthForModel : jsstring -> Z
}.

Record World : Type := { env : Env; trace : list Event }.

(** Computations: read and write the world, return or throw. *)
Definition M (A : Type) : Type := World -> Outcome A * World.

Definition ret {A} (a : A) : M A := fun w => (Ok a, w).

Definition throw {A} (err : jsstring) : M A := fun w => (Throw err, w).

Definition bind {A B} (m : M A) (k : A -> M B) : M B :=
  fun w =>
    match m w with
    | (Ok a, w') => k a w'
    | (Throw err, w') => (Throw err, w')
    end.

(** [try { m } catch (err) { h err }] *)
Definition try_catch {A} (m : M A) (h : jsstring -> M A) : M A :=
  fun w =>
    match m w with
    | (Ok a, w') => (Ok a, w')
    | (Throw err, w') => h err w'
    end.

(** An event with no result of its own (a log line, the exit code). *)
Definition emit (e : Event) : M unit :=
  fun w => (Ok tt, {| env := env w; trace := trace w ++ [e] |}).

(** A call to a collaborator, recorded as [e]. *)
Definition call {A} (e : Event) (op : Env -> Outcome A * Env) : M A :=
  fun w =>
    let (r, env') := op (env w) in
    (r, {| env := env'; trace := trace w ++ [e] |}).

(** A pure collaborator that may throw. *)
Definition lift {A} (r : Outcome A) : M A := fun w => (r, w).

Variable rt : Runtime.

Definition randomUUID : M id :=
  fun w =>
    let (i, env') := rt_randomUUID rt (env w) in
    (Ok i, {| env := env'; trace := trace w ++ [EvRandomUUID i] |}).

End Runtime.

Arguments ret {Env A} a.
Arguments throw {Env A} err.
Arguments bind {Env A B} m k.
Arguments try_catch {Env A} m h.
Arguments emit {Env} e.
Arguments call {Env A} e op.
Arguments lift {Env A} r.

End Host.

Declare Scope monad_scope.
Delimit Scope monad_scope with monad.
Notation "x <- m ;; k" := (Host.bind m (fun x => k))
  (at level 61, m at next level, right associativity) : monad_scope.
Notation "m ;;; k" := (Host.bind m (fun _ => k))
  (at level 61, right associativity) : monad_scope.

(* ====================================================================== *)
(** ** Embeddings (embeddings.ts) *)
(* ====================================================================== *)

Module Embeddings.

Import Str Host.
Open Scope string_scope.
Open Scope monad_scope.

Inductive EmbeddingProvider : Type := openai | ollama.

(** The optional logger: present or not, with or without [debug]. *)
Record Logger : Type := { has_debug : bool }.

(** The fields of an [Embeddings] object; [client] says whether the
    OpenAI client was created. *)
Record t : Type := {
  apiKey : option jsstring;
  model : jsstring;
  provider : EmbeddingProvider;
  baseUrl : jsstring;
  logger : option Logger;
  contextLength : Z;
  client : bool
}.

Definition is_ollama (p : EmbeddingProvider) : bool :=
  match p with ollama => true | openai => false end.

(** A string is truthy when it is not empty. *)
Definition truthy (o : option jsstring) : bool :=
  match o with Some (_ :: _) => true | _ => false end.

(** Stable sort of [response.data] by [a.index - b.index]. *)
Fixpoint insert_by_index (d : Datum) (l : list Datum) : list Datum :=
  match l with
  | [] => [d]
  | x :: l' =>
      if (index d <=? index x)%Z then d :: l else x :: insert_by_index d l'
  end.

Definition toSorted_by_index (l : list Datum) : list Datum :=
  fold_right insert_by_index [] l.

Section WithRuntime.

Variable Env : Type.
Variables (HostMessage SleepCycleResult : Type).
Variable rt : Runtime Env HostMessage SleepCycleResult.

(** [new Embeddings(apiKey, model, provider, baseUrl, logger)] *)
Definition new (apiKey : option jsstring) (model : option jsstring)
    (provider : option EmbeddingProvider) (baseUrl : option jsstring)
    (logger : option Logger) : Outcome t :=
  let model := match model with Some m => m | None => js "text-embedding-3-small" end in
  let provider := match provider with Some p => p | None => openai end in
  let baseUrl :=
    match baseUrl with
    | Some b => b
    | None => if is_ollama provider then js "http://localhost:11434" else []
    end in
  let contextLength := rt_contextLengthForModel rt model in
  match provider with
  | openai =>
      if negb (truthy apiKey) then Throw (js "API key required for OpenAI embeddings")
      else Ok {| apiKey := apiKey; model := model; provider := provider;
                 baseUrl := baseUrl; logger := logger;
                 contextLength := contextLength; client := true |}
  | ollama =>
      Ok {| apiKey := apiKey; model := model; provider := provider;
            baseUrl := baseUrl; logger := logger;
            contextLength := contextLength; client := false |}
  end.

(** [this.logger?.debug?.(m)] and [this.logger?.warn?.(m)] *)
Definition log_debug (this : t) (m : Message) : M Env unit :=
  match logger this with
  | Some l => if has_debug l then emit (EvLog debug m) else ret tt
  | None => ret tt
  end.

Definition log_warn (this : t) (m : Message) : M Env unit :=
  match logger this with
  | Some _ => emit (EvLog warn m)
  | None => ret tt
  end.

(** [truncateToContext(text)] *)
Definition truncateToContext (this : t) (text : jsstring) : M Env jsstring :=
  let maxChars := (contextLength this * 3)%Z in
  if (length text <=? maxChars)%Z then ret text
  else
    let truncated := slice text 0 maxChars in
    let lastSpace := lastIndexOf truncated (js " ") in
    let truncated :=
      if Num.gt (Num.of_Z lastSpace) (Num.mul (Num.of_Z maxChars) Num.lit_0_8)
      then slice truncated 0 lastSpace
      else truncated in
    log_debug this (MsgTruncated (length text) (length truncated) (contextLength this)) ;;;
    ret truncated.

(** [embedOllama(text)] *)
Definition embedOllama (this : t) (text : jsstring) : M Env vector :=
  let url := (baseUrl this ++ js "/api/embed")%list in
  response <- call (EvFetchOllama url (model this) text)
                   (fetch_ollama rt url (model this) text) ;;
  if negb (resp_ok response) then
    error <- lift (resp_text response) ;;
    throw (js "Ollama embedding failed: " ++ of_Z (resp_status response)
           ++ js " " ++ error)%list
  else
    data <- lift (resp_json response) ;;
    match data with
    | Some (v :: _) => ret v
    | _ => throw (js "No embedding returned from Ollama")
    end.

(** [embedOpenAI(text)] *)
Definition embedOpenAI (this : t) (text : jsstring) : M Env vector :=
  if negb (client this) then throw (js "OpenAI client not initialized")
  else
    response <- call (EvOpenAICreate (model this) (One text))
                     (openai_create rt (model this) (One text)) ;;
    match response with
    | d :: _ => ret (embedding d)
    | [] => throw (js "TypeError: Cannot read properties of undefined")
    end.

(** [embedBatchOpenAI(texts)] *)
Definition embedBatchOpenAI (this : t) (texts : list jsstring) : M Env (list vector) :=
  if negb (client this) then throw (js "OpenAI client not initialized")
  else
    response <- call (EvOpenAICreate (model this) (Many texts))
                     (openai_create rt (model this) (Many texts)) ;;
    ret (List.map embedding (toSorted_by_index response)).

(** [embed(text)] *)
Definition embed (this : t) (text : jsstring) : M Env vector :=
  input <- truncateToContext this text ;;
  if is_ollama (provider this) then embedOllama this input
  else embedOpenAI this input.

(** [texts.map((t) => f(t))] for an effectful [f]. *)
Fixpoint mapM {A B} (f : A -> M Env B) (l : list A) : M Env (list B) :=
  match l with
  | [] => ret []
  | a :: l' => b <- f a ;; bs <- mapM f l' ;; ret (b :: bs)
  end.

(** [Promise.allSettled]: every computation runs to its end and its
    outcome, result or error, is collected; nothing is thrown.  The calls
    are issued in the order of the list; the model runs each to its end
    before the next. *)
Fixpoint allSettled {A} (ms : list (M Env A)) : M Env (list (Outcome A)) :=
  match ms with
  | [] => ret []
  | m :: ms' =>
      fun w =>
        let (r, w') := m w in
        (rs <- allSettled ms' ;; ret (r :: rs)) w'
  end.

(** The [for] loop of [embedBatch] over the settled results, from
    index [i] with the accumulators [embeddings] and [failures]. *)
Fixpoint collect (this : t) (results : list (Outcome vector)) (i : Z)
    (embeddings : list vector) (failures : Z) : M Env (list vector * Z) :=
  match results with
  | [] => ret (embeddings, failures)
  | Ok value :: rest => collect this rest (i + 1) (embeddings ++ [value])%list failures
  | Throw reason :: rest =>
      log_warn this (MsgOllamaItemFailed i reason) ;;;
      collect this rest (i + 1) (embeddings ++ [[]])%list (failures + 1)
  end.

(** [embedBatch(texts)] *)
Definition embedBatch (this : t) (texts : list jsstring) : M Env (list vector) :=
  match texts with
  | [] => ret []
  | _ :: _ =>
      truncated <- mapM (truncateToContext this) texts ;;
      if is_ollama (provider this) then
        results <- allSettled (List.map (embedOllama this) truncated) ;;
        r <- collect this results 0 [] 0 ;;
        let (embeddings, failures) := (r : list vector * Z) in
        (if (failures >? 0)%Z
         then log_warn this (MsgOllamaBatchFailed failures (Z.of_nat (List.length texts)))
         else ret tt) ;;;
        ret embeddings
      else embedBatchOpenAI this truncated
  end.

End WithRuntime.

End Embeddings.

(* ====================================================================== *)
(** ** The plugin: tools, CLI and hooks (index.ts, [register]) *)
(* ====================================================================== *)

Module Plugin.

Import Str Host.
Open Scope string_scope.
Open Scope monad_scope.

(** The double quote and the line feed. *)
Definition quote : jsstring := [34%N].
Definition newline : jsstring := [10%N].

(** [a || d] for an optional string. *)
Definition or_else (a : option jsstring) (d : jsstring) : jsstring :=
  match a with Some (c :: r) => c :: r | _ => d end.

(** [a ?? d] / a destructuring default. *)
Definition default {A} (a : option A) (d : A) : A :=
  match a with Some x => x | None => d end.

(** [l.join(sep)] *)
Fixpoint join (sep : jsstring) (l : list jsstring) : jsstring :=
  match l with
  | [] => []
  | [x] => x
  | x :: l' => (x ++ sep ++ join sep l')%list
  end.

(** The tool context [ctx]. *)
Record ToolContext : Type := {
  ctx_agentId : option jsstring;
  ctx_sessionKey : option jsstring
}.

Record ToolResult (D : Type) : Type := { content : jsstring; details : D }.

(** *** memory_store *)

Record StoreParams : Type := {
  sp_text : jsstring;
  sp_importance : option Num.number;
  sp_category : option jsstring
}.

Inductive StoreDetails : Type :=
| duplicate (existingId : id) (existingText : jsstring)
| created (i : id).

(** *** memory_forget *)

Record ForgetParams : Type := {
  fp_query : option jsstring;
  fp_memoryId : option jsstring
}.

Inductive ForgetDetails : Type :=
| not_found (i : id)
| deleted (i : id)
| found_0
| candidates (cs : list Hit)
| missing_param.

(** *** memory sleep *)

Record SleepOpts : Type := {
  o_agent : option jsstring;
  o_dedupThreshold : option jsstring;
  o_pareto : option jsstring;
  o_promotionMinAge : option jsstring;
  o_decayThreshold : option jsstring;
  o_decayHalfLife : option jsstring;
  o_batchSize : option jsstring;
  o_delay : option jsstring
}.

(** [o ? f(o) : undefined] *)
Definition parse_opt (f : jsstring -> Num.number) (o : option jsstring)
    : option Num.number :=
  match o with
  | Some (c :: r) => Some (f (c :: r))
  | _ => None
  end.

(** [v != null && (Number.isNaN(v) || bad(v))] *)
Definition rejected (v : option Num.number) (bad : Num.number -> bool) : bool :=
  match v with
  | Some x => (Num.isNaN x || bad x)%bool
  | None => false
  end.

Section WithRuntime.

Variable Emoji : N -> bool.
Variable Env : Type.
Variables (HostMessage SleepCycleResult : Type).
Variable rt : Runtime Env HostMessage SleepCycleResult.

(** What [register] sets up: the [Embeddings] object, whether
    extraction is enabled, and whether the host logger has [debug]. *)
Variable embeddings : Embeddings.t.
Variable extraction_enabled : bool.
Variable logger_debug : bool.

Definition extractionStatus : ExtractionStatus :=
  if extraction_enabled then pending else skipped.

(** [api.logger.debug?.(m)], [api.logger.info(m)], [api.logger.warn(m)] *)
Definition api_debug (m : Message) : M Env unit :=
  if logger_debug then emit (EvLog debug m) else ret tt.
Definition api_info (m : Message) : M Env unit := emit (EvLog info m).
Definition api_warn (m : Message) : M Env unit := emit (EvLog warn m).

Definition findSimilar (v : vector) (threshold : Num.number) (limit : Z)
    : M Env (list Similar) :=
  call (EvFindSimilar v threshold limit) (db_findSimilar rt v threshold limit).

Definition vectorSearch (v : vector) (limit : Z) (minScore : Num.number)
    : M Env (list Hit) :=
  call (EvVectorSearch v limit minScore) (db_vectorSearch rt v limit minScore).

Definition storeMemory (m : StoreMemoryInput) : M Env unit :=
  call (EvStoreMemory m) (db_storeMemory rt m).

Definition deleteMemory (i : id) : M Env bool :=
  call (EvDeleteMemory i) (db_deleteMemory rt i).

Definition ensureInitialized : M Env unit :=
  call EvEnsureInitialized (db_ensureInitialized rt).

Definition runSleepCycle (opts : SleepCycleOptions) : M Env SleepCycleResult :=
  call (EvRunSleepCycle opts) (rt_runSleepCycle rt opts).

Definition rateImportance (text : jsstring) : M Env Num.number :=
  call (EvRateImportance text) (rt_rateImportance rt text extraction_enabled).

(** [memory_store]'s [execute(_toolCallId, params)] *)
Definition memory_store (ctx : ToolContext) (params : StoreParams)
    : M Env (ToolResult StoreDetails) :=
  let agentId := or_else (ctx_agentId ctx) (js "default") in
  let sessionKey := ctx_sessionKey ctx in
  let text := sp_text params in
  let importance := default (sp_importance params) Num.lit_0_7 in
  let category := default (sp_category params) (js "other") in
  (* 1. Generate embedding *)
  v <- Embeddings.embed rt embeddings text ;;
  (* 2. Check for duplicates *)
  existing <- findSimilar v Num.lit_0_95 1 ;;
  match existing with
  | e0 :: _ =>
      ret {| content := (js "Similar memory already exists: " ++ quote
                         ++ sim_text e0 ++ quote)%list;
             details := duplicate (sim_id e0) (sim_text e0) |}
  | [] =>
      (* 3. Store memory immediately *)
      memoryId <- randomUUID rt ;;
      storeMemory {| sm_id := memoryId;
                     sm_text := text;
                     sm_embedding := v;
                     sm_importance := Num.Math_min Num.lit_1 (Num.Math_max Num.lit_0 importance);
                     sm_category := category;
                     sm_source := source_user;
                     sm_extractionStatus := extractionStatus;
                     sm_agentId := agentId;
                     sm_sessionKey := sessionKey |} ;;;
      ret {| content := (js "Stored: " ++ quote ++ slice text 0 100
                         ++ (if (length text >? 100)%Z then js "..." else [])
                         ++ quote)%list;
             details := created memoryId |}
  end.

(** [memory_forget]'s [execute(_toolCallId, params)] *)
Definition memory_forget (params : ForgetParams)
    : M Env (ToolResult ForgetDetails) :=
  match fp_memoryId params with
  | Some (c :: r) =>
      (* Direct delete by ID *)
      let memoryId := c :: r in
      was_deleted <- deleteMemory memoryId ;;
      if negb was_deleted then
        ret {| content := (js "Memory " ++ memoryId ++ js " not found.")%list;
               details := not_found memoryId |}
      else
        ret {| content := (js "Memory " ++ memoryId ++ js " forgotten.")%list;
               details := deleted memoryId |}
  | _ =>
      match fp_query params with
      | Some (c :: r) =>
          (* Search-based delete *)
          let query := c :: r in
          v <- Embeddings.embed rt embeddings query ;;
          results <- vectorSearch v 5 Num.lit_0_7 ;;
          match results with
          | [] =>
              ret {| content := js "No matching memories found.";
                     details := found_0 |}
          | r0 :: others =>
              if (match others with [] => true | _ :: _ => false end
                  && Num.gt (hit_score r0) Num.lit_0_9)%bool
              then
                (* Auto-delete if single high-confidence match *)
                deleteMemory (hit_id r0) ;;;
                ret {| content := (js "Forgotten: " ++ quote ++ hit_text r0
                                   ++ quote)%list;
                       details := deleted (hit_id r0) |}
              else
                (* Multiple candidates: ask user to specify *)
                let list :=
                  join (newline)
                    (List.map (fun r => (js "- [" ++ hit_id r ++ js "] "
                                         ++ slice (hit_text r) 0 60 ++ js "...")%list)
                       results) in
                ret {| content := (js "Found " ++ of_Z (Z.of_nat (List.length results))
                                   ++ js " candidates. Specify memoryId:"
                                   ++ newline ++ list)%list;
                       details := candidates results |}
          end
      | _ =>
          ret {| content := js "Provide query or memoryId.";
                 details := missing_param |}
      end
  end.

(** *** The [memory neo4j sleep] command *)

(** [console.error(msg); process.exitCode = 1; return] *)
Definition reject (msg : string) : M Env unit :=
  emit (EvConsoleError (MsgError msg)) ;;; emit (EvExitCode 1).

(** The [action] of the command. *)
Definition sleep_action (opts : SleepOpts) : M Env unit :=
  emit (EvConsoleLog MsgSleepBanner) ;;;
  try_catch
    ((* Validate sleep cycle CLI parameters before running *)
     let batchSize := parse_opt Parse.parseInt (o_batchSize opts) in
     let delay := parse_opt Parse.parseInt (o_delay opts) in
     let decayHalfLife := parse_opt Parse.parseInt (o_decayHalfLife opts) in
     let decayThreshold := parse_opt Parse.parseFloat (o_decayThreshold opts) in
     let pareto := parse_opt Parse.parseFloat (o_pareto opts) in
     let promotionMinAge := parse_opt Parse.parseInt (o_promotionMinAge opts) in
     if rejected batchSize (fun x => Num.le x Num.lit_0) then
       reject "Error: --batch-size must be greater than 0"
     else if rejected delay (fun x => Num.lt x Num.lit_0) then
       reject "Error: --delay must be >= 0"
     else if rejected decayHalfLife (fun x => Num.le x Num.lit_0) then
       reject "Error: --decay-half-life must be greater than 0"
     else if rejected decayThreshold
               (fun x => (Num.lt x Num.lit_0 || Num.gt x Num.lit_1)%bool) then
       reject "Error: --decay-threshold must be between 0 and 1"
     else if rejected pareto
               (fun x => (Num.lt x Num.lit_0 || Num.gt x Num.lit_1)%bool) then
       reject "Error: --pareto must be between 0 and 1"
     else if rejected promotionMinAge (fun x => Num.lt x Num.lit_0) then
       reject "Error: --promotion-min-age must be >= 0"
     else
       ensureInitialized ;;;
       result <- runSleepCycle
                   {| so_agentId := o_agent opts;
                      so_dedupThreshold :=
                        parse_opt Parse.parseFloat (o_dedupThreshold opts);
                      so_paretoPercentile := pareto;
                      so_promotionMinAgeDays := promotionMinAge;
                      so_decayRetentionThreshold := decayThreshold;
                      so_decayBaseHalfLifeDays := decayHalfLife;
                      so_extractionBatchSize := batchSize;
                      so_extractionDelayMs := delay |} ;;
       emit (EvConsoleLog MsgSleepReport) ;;;
       if rt_aborted rt result then emit (EvConsoleLog MsgSleepAborted)
       else ret tt)
    (fun err =>
       emit (EvConsoleError (MsgSleepFailed err)) ;;; emit (EvExitCode 1)).

(** *** The [agent_end] hook: auto-capture *)

Record AgentEndEvent : Type := {
  ev_success : bool;
  ev_messages : option (list HostMessage)
}.

(** The verdicts of the two gates on the module's [NOISE_PATTERNS];
    the gates leave that array as it is ([passesAttentionGate_state],
    [passesAssistantAttentionGate_state]), so it is not threaded through
    the hook.  The assistant gate always returns (same lemma). *)
Definition passes_user (text : jsstring) : bool :=
  fst (Gate.passesAttentionGate Emoji text Gate.NOISE_PATTERNS).

Definition passes_assistant (text : jsstring) : bool :=
  match Gate.passesAssistantAttentionGate Emoji text Gate.NOISE_PATTERNS with
  | Some (b, _) => b
  | None => false
  end.

Section Hook.

Variables (agentId : jsstring) (sessionKey : option jsstring).

(** The body of the [try] of one user message; the result is the
    new value of [stored]. *)
Definition capture_user (text : jsstring) (stored : Z) : M Env Z :=
  v <- Embeddings.embed rt embeddings text ;;
  (* Quick dedup *)
  existing <- findSimilar v Num.lit_0_95 1 ;;
  match existing with
  | _ :: _ => ret stored
  | [] =>
      importance <- rateImportance text ;;
      i <- randomUUID rt ;;
      storeMemory {| sm_id := i;
                     sm_text := text;
                     sm_embedding := v;
                     sm_importance := importance;
                     sm_category := js "other";
                     sm_source := source_auto_capture;
                     sm_extractionStatus := extractionStatus;
                     sm_agentId := agentId;
                     sm_sessionKey := sessionKey |} ;;;
      ret (stored + 1)%Z
  end.

(** [for (const text of retained) { try { ... } catch (err) { ... } }] *)
Fixpoint user_loop (retained : list jsstring) (stored : Z) : M Env Z :=
  match retained with
  | [] => ret stored
  | text :: rest =>
      stored' <- try_catch (capture_user text stored)
                   (fun err => api_debug (MsgItemFailed err) ;;; ret stored) ;;
      user_loop rest stored'
  end.

(** The body of the [try] of one assistant message. *)
Definition capture_assistant (text : jsstring) (stored : Z) : M Env Z :=
  importance <- rateImportance text ;;
  (* Only store assistant messages that are genuinely important *)
  if Num.lt importance Num.lit_0_7 then ret stored
  else
    v <- Embeddings.embed rt embeddings text ;;
    existing <- findSimilar v Num.lit_0_95 1 ;;
    match existing with
    | _ :: _ => ret stored
    | [] =>
        i <- randomUUID rt ;;
        storeMemory {| sm_id := i;
                       sm_text := text;
                       sm_embedding := v;
                       sm_importance := Num.Math_min importance Num.lit_0_4;
                       sm_category := js "other";
                       sm_source := source_auto_capture_assistant;
                       sm_extractionStatus := extractionStatus;
                       sm_agentId := agentId;
                       sm_sessionKey := sessionKey |} ;;;
        ret (stored + 1)%Z
    end.

Fixpoint assistant_loop (retained : list jsstring) (stored : Z) : M Env Z :=
  match retained with
  | [] => ret stored
  | text :: rest =>
      stored' <- try_catch (capture_assistant text stored)
                   (fun err => api_debug (MsgAssistantItemFailed err) ;;; ret stored) ;;
      assistant_loop rest stored'
  end.

(** The outer [try] block. *)
Definition capture_all (messages : list HostMessage) : M Env unit :=
  (* Process user messages *)
  userMessages <- lift (rt_extractUserMessages rt messages) ;;
  let retained := filter passes_user userMessages in
  stored <- user_loop retained 0 ;;
  (* Process assistant messages *)
  assistantMessages <- lift (rt_extractAssistantMessages rt messages) ;;
  let retainedAssistant := filter passes_assistant assistantMessages in
  stored <- assistant_loop retainedAssistant stored ;;
  if (stored >? 0)%Z then api_info (MsgAutoCaptured stored)
  else if ((Z.of_nat (List.length userMessages) >? 0)
           || (Z.of_nat (List.length assistantMessages) >? 0))%Z%bool then
    api_info (MsgAutoCaptureRan
                (Z.of_nat (List.length userMessages))
                (Z.of_nat (List.length retained))
                (Z.of_nat (List.length assistantMessages))
                (Z.of_nat (List.length retainedAssistant)))
  else ret tt.

End Hook.

(** The handler registered with [api.on("agent_end", ...)]. *)
Definition agent_end (event : AgentEndEvent) (ctx : ToolContext) : M Env unit :=
  api_debug (MsgAgentEndFired (ev_success event)
               (match ev_messages event with
                | Some ms => Z.of_nat (List.length ms)
                | None => 0%Z
                end)) ;;;
  match ev_messages event with
  | Some (m :: ms) =>
      if negb (ev_success event) then api_debug MsgSkipping
      else
        let agentId := or_else (ctx_agentId ctx) (js "default") in
        let sessionKey := ctx_sessionKey ctx in
        try_catch (capture_all agentId sessionKey (m :: ms))
          (fun err => api_warn (MsgAutoCaptureFailed err))
  | _ => api_debug MsgSkipping
  end.

End WithRuntime.

End Plugin.

(* ====================================================================== *)
(** ** A small runtime to run the code on *)
(* ====================================================================== *)

(** An in-memory store, a provider that embeds a text as its length and
    fails on the empty text (Ollama) or when switched off (OpenAI), a
    counter for identifiers.  It serves the examples below; the theorems
    hold for every runtime. *)
Module Sample.

Import Str Host.
Open Scope string_scope.

Record Env : Type := {
  db : list StoreMemoryInput;
  next : Z;
  provider_up : bool
}.

(** A host message: whether it is the user's, and its text. *)
Definition HostMessage : Type := (bool * jsstring)%type.
Definition SleepCycleResult : Type := bool.

Fixpoint jsstring_eqb (a b : jsstring) : bool :=
  match a, b with
  | [], [] => true
  | x :: a', y :: b' => (N.eqb x y && jsstring_eqb a' b')%bool
  | _, _ => false
  end.

Fixpoint vector_eqb (a b : vector) : bool :=
  match a, b with
  | [], [] => true
  | x :: a', y :: b' => (SFeqb x y && vector_eqb a' b')%bool
  | _, _ => false
  end.

Definition embedding_of (text : jsstring) : vector := [Num.of_Z (length text)].

Definition with_db (e : Env) (d : list StoreMemoryInput) : Env :=
  {| db := d; next := next e; provider_up := provider_up e |}.

Fixpoint enumerate (i : Z) (texts : list jsstring) : list Datum :=
  match texts with
  | [] => []
  | t :: ts => {| index := i; embedding := embedding_of t |} :: enumerate (i + 1) ts
  end.

Definition runtime : Runtime Env HostMessage SleepCycleResult :=
  {| fetch_ollama := fun _ _ input e =>
       match input with
       | [] => (Ok {| resp_ok := false; resp_status := 500;
                      resp_text := Ok (js "empty input");
                      resp_json := Throw (js "SyntaxError") |}, e)
       | _ :: _ => (Ok {| resp_ok := true; resp_status := 200;
                          resp_text := Ok [];
                          resp_json := Ok (Some [embedding_of input]) |}, e)
       end;
     openai_create := fun _ input e =>
       if provider_up e then
         match input with
         | One t => (Ok [{| index := 0; embedding := embedding_of t |}], e)
         | Many ts => (Ok (rev (enumerate 0 ts)), e)
         end
       else (Throw (js "503 Service Unavailable"), e);
     db_findSimilar := fun v _ limit e =>
       (Ok (firstn (Z.to_nat limit)
              (List.map (fun m => {| sim_id := sm_id m; sim_text := sm_text m |})
                 (filter (fun m => vector_eqb (sm_embedding m) v) (db e)))), e);
     db_vectorSearch := fun v limit _ e =>
       (Ok (firstn (Z.to_nat limit)
              (List.map (fun m => {| hit_id := sm_id m; hit_text := sm_text m;
                                     hit_category := sm_category m;
                                     hit_score := Num.lit_1 |})
                 (filter (fun m => vector_eqb (sm_embedding m) v) (db e)))), e);
     db_storeMemory := fun m e => (Ok tt, with_db e (db e ++ [m]));
     db_deleteMemory := fun i e =>
       (Ok (existsb (fun m => jsstring_eqb (sm_id m) i) (db e)),
        with_db e (filter (fun m => negb (jsstring_eqb (sm_id m) i)) (db e)));
     db_ensureInitialized := fun e => (Ok tt, e);
     rt_runSleepCycle := fun _ e => (Ok false, e);
     rt_rateImportance := fun _ _ e => (Ok Num.lit_0_8, e);
     rt_extractUserMessages := fun ms =>
       Ok (List.map snd (filter (fun m => fst m) ms));
     rt_extractAssistantMessages := fun ms =>
       Ok (List.map snd (filter (fun m => negb (fst m)) ms));
     rt_aborted := fun r => r;
     rt_randomUUID := fun e =>
       ((js "id-" ++ of_Z (next e))%list,
        {| db := db e; next := (next e + 1)%Z; provider_up := provider_up e |});
     rt_contextLengthForModel := fun _ => 512%Z |}.

Definition env0 : Env := {| db := []; next := 0; provider_up := true |}.
Definition world0 : World Env := {| env := env0; trace := [] |}.

(** A table for the examples: the ASCII characters with the property,
    and the block U+1F300..U+1FAFF. *)
Definition Emoji (c : N) : bool :=
  (RegExp.Emoji_ascii c || in_range 127744 129791 c)%bool.

Definition ollama_embeddings : Embeddings.t :=
  {| Embeddings.apiKey := None;
     Embeddings.model := js "mxbai-embed-large";
     Embeddings.provider := Embeddings.ollama;
     Embeddings.baseUrl := js "http://localhost:11434";
     Embeddings.logger := Some {| Embeddings.has_debug := true |};
     Embeddings.contextLength := 512;
     Embeddings.client := false |}.

Definition openai_embeddings : Embeddings.t :=
  {| Embeddings.apiKey := Some (js "sk-test");
     Embeddings.model := js "text-embedding-3-small";
     Embeddings.provider := Embeddings.openai;
     Embeddings.baseUrl := [];
     Embeddings.logger := Some {| Embeddings.has_debug := true |};
     Embeddings.contextLength := 8191;
     Embeddings.client := true |}.

(** A model with a one-token context: at most three characters go out. *)
Definition tiny_embeddings : Embeddings.t :=
  {| Embeddings.apiKey := None;
     Embeddings.model := js "tiny";
     Embeddings.provider := Embeddings.ollama;
     Embeddings.baseUrl := js "http://localhost:11434";
     Embeddings.logger := None;
     Embeddings.contextLength := 1;
     Embeddings.client := false |}.

(** A model with a context of five tokens: at most fifteen characters
    go out, and a cut at a space beyond the twelfth is preferred. *)
Definition small_embeddings : Embeddings.t :=
  {| Embeddings.apiKey := None;
     Embeddings.model := js "small";
     Embeddings.provider := Embeddings.ollama;
     Embeddings.baseUrl := js "http://localhost:11434";
     Embeddings.logger := None;
     Embeddings.contextLength := 5;
     Embeddings.client := false |}.

(** Thirteen letters, a space, and four more. *)
Definition two_words : jsstring := js "aaaaaaaaaaaaa bbbb".

Definition ctx0 : Plugin.ToolContext :=
  {| Plugin.ctx_agentId := None; Plugin.ctx_sessionKey := Some (js "s1") |}.

Definition long_text : jsstring :=
  js "I think we should migrate the database to a managed service next quarter because of the licensing costs".

(** The same world with the OpenAI provider switched off. *)
Definition world_down : World Env :=
  {| env := {| db := []; next := 0; provider_up := false |}; trace := [] |}.


(** [memory_store] parameters with an importance above 1. *)
Definition store_params : Plugin.StoreParams :=
  {| Plugin.sp_text := long_text;
     Plugin.sp_importance := Some (Num.of_Z 5);
     Plugin.sp_category := None |}.

(** The world after [store_params] was stored in [world0]. *)
Definition world_stored : World Env :=
  snd (Plugin.memory_store runtime ollama_embeddings true ctx0 store_params world0).

(** [memory sleep --dedup-threshold abc] *)
Definition dedup_abc : Plugin.SleepOpts :=
  {| Plugin.o_agent := None;
     Plugin.o_dedupThreshold := Some (js "abc");
     Plugin.o_pareto := None;
     Plugin.o_promotionMinAge := None;
     Plugin.o_decayThreshold := None;
     Plugin.o_decayHalfLife := None;
     Plugin.o_batchSize := None;
     Plugin.o_delay := None |}.

(** [memory sleep --pareto 1.5] *)
Definition pareto_out_of_range : Plugin.SleepOpts :=
  {| Plugin.o_agent := None;
     Plugin.o_dedupThreshold := None;
     Plugin.o_pareto := Some (js "1.5");
     Plugin.o_promotionMinAge := None;
     Plugin.o_decayThreshold := None;
     Plugin.o_decayHalfLife := None;
     Plugin.o_batchSize := None;
     Plugin.o_delay := None |}.

End Sample.

(* ====================================================================== *)
(** ** The vocabulary of the statements *)
(* ====================================================================== *)

Module Props.

Import Str Host.

(** [r] is a prefix of [text]. *)
Definition is_prefix (r text : jsstring) : Prop := exists rest, text = (r ++ rest)%list.

(** The cut of [text] after [r] falls at a word boundary: at the end of
    the text, before white space, or after white space. *)
Definition ends_at_word_boundary (text r : jsstring) : bool :=
  match skipn (List.length r) text with
  | [] => true
  | c :: _ =>
      (isWhiteSpace c
       || match rev r with
          | [] => true
          | d :: _ => isWhiteSpace d
          end)%bool
  end.

(** The last space of [head] stands right after [pre]. *)
Definition last_space (head pre : jsstring) : Prop :=
  exists tail, head = (pre ++ 32%N :: tail)%list /\ ~ In 32%N tail.

(** [n] lies beyond 80% of the limit, as the code compares them. *)
Definition beyond_80_percent (maxChars n : Z) : bool :=
  Num.gt (Num.of_Z n) (Num.mul (Num.of_Z maxChars) Num.lit_0_8).

(** What [truncateToContext] makes of [text] for a model whose limit is
    [maxChars] characters: the text itself when it fits.  Otherwise, when
    the last space among the first [maxChars] characters lies beyond 80%
    of the limit, the text up to that space; and the first [maxChars]
    characters only when there is no such space. *)
Definition truncation_of (maxChars : Z) (text r : jsstring) : Prop :=
  is_prefix r text /\
  (length r <= maxChars)%Z /\
  ((length text <= maxChars)%Z -> r = text) /\
  ((maxChars < length text)%Z ->
     let head := firstn (Z.to_nat maxChars) text in
     (last_space head r /\ beyond_80_percent maxChars (length r) = true) \/
     (r = head /\
      forall pre, last_space head pre ->
        beyond_80_percent maxChars (length pre) = false)).

(** The texts that an event hands to the embedding provider are
    truncations of the given [texts]. *)
Definition transmits (maxChars : Z) (texts : list jsstring) (e : Event) : Prop :=
  match e with
  | EvFetchOllama _ _ input | EvOpenAICreate _ (One input) =>
      exists t, In t texts /\ truncation_of maxChars t input
  | EvOpenAICreate _ (Many inputs) => Forall2 (truncation_of maxChars) texts inputs
  | _ => True
  end.


Definition failed (r : Outcome vector) : bool :=
  match r with Ok _ => false | Throw _ => true end.




(** The events of computing an embedding: provider calls and log lines. *)
Definition provider_or_log (e : Event) : Prop :=
  match e with
  | EvFetchOllama _ _ _ | EvOpenAICreate _ _ | EvLog _ _ => True
  | _ => False
  end.

(** Exactly one result, with a score above 0.9. *)
Definition single_confident (results : list Hit) : bool :=
  match results with
  | [r0] => Num.gt (hit_score r0) Num.lit_0_9
  | _ => false
  end.

(** The importance [memory_store] writes for the importance [x] given. *)
Definition clamp (x : Num.number) : Num.number :=
  Num.Math_min Num.lit_1 (Num.Math_max Num.lit_0 x).

(** The memory that [memory_store] hands to the store for the
    embedding [v] and the identifier [i]. *)
Definition written (extraction_enabled : bool) (ctx : Plugin.ToolContext)
    (params : Plugin.StoreParams) (v : vector) (i : id) : StoreMemoryInput :=
  {| sm_id := i;
     sm_text := Plugin.sp_text params;
     sm_embedding := v;
     sm_importance := clamp (Plugin.default (Plugin.sp_importance params) Num.lit_0_7);
     sm_category := Plugin.default (Plugin.sp_category params) (js "other");
     sm_source := source_user;
     sm_extractionStatus := if extraction_enabled then pending else skipped;
     sm_agentId := Plugin.or_else (Plugin.ctx_agentId ctx) (js "default");
     sm_sessionKey := Plugin.ctx_sessionKey ctx |}.

(** What the auto-capture hook may hand to the store: a user message
    with the source "auto-capture", or an assistant message with the
    source "auto-capture-assistant", the importance 0.4 and the category
    "other". *)
Definition auto_captured (e : Event) : Prop :=
  forall m, e = EvStoreMemory m ->
    match sm_source m with
    | source_auto_capture_assistant =>
        sm_importance m = Num.lit_0_4 /\ sm_category m = js "other"
    | source_auto_capture => True
    | source_user => False
    end.




(** The six options that the sleep command validates are absent or
    pass their checks. *)
Definition accepted (opts : Plugin.SleepOpts) : bool :=
  (negb (Plugin.rejected (Plugin.parse_opt Parse.parseInt (Plugin.o_batchSize opts))
           (fun x => Num.le x Num.lit_0))
   && negb (Plugin.rejected (Plugin.parse_opt Parse.parseInt (Plugin.o_delay opts))
              (fun x => Num.lt x Num.lit_0))
   && negb (Plugin.rejected (Plugin.parse_opt Parse.parseInt (Plugin.o_decayHalfLife opts))
              (fun x => Num.le x Num.lit_0))
   && negb (Plugin.rejected (Plugin.parse_opt Parse.parseFloat (Plugin.o_decayThreshold opts))
              (fun x => (Num.lt x Num.lit_0 || Num.gt x Num.lit_1)%bool))
   && negb (Plugin.rejected (Plugin.parse_opt Parse.parseFloat (Plugin.o_pareto opts))
              (fun x => (Num.lt x Num.lit_0 || Num.gt x Num.lit_1)%bool))
   && negb (Plugin.rejected (Plugin.parse_opt Parse.parseInt (Plugin.o_promotionMinAge opts))
              (fun x => Num.lt x Num.lit_0)))%bool.

(** The order of [response.data] after sorting. *)
Definition index_le (a b : Datum) : Prop := (index a <= index b)%Z.

(** Two Emoji tables agree at a character and at its two ASCII case
    variants, and on a whole input. *)
Definition agree_at (E1 E2 : N -> bool) (c : N) : Prop :=
  E1 c = E2 c /\
  E1 (RegExp.upper c) = E2 (RegExp.upper c) /\
  E1 (RegExp.lower c) = E2 (RegExp.lower c).

Definition agree (E1 E2 : N -> bool) (s : list N) : Prop := Forall (agree_at E1 E2) s.

Definition is_suffix (t s : list N) : Prop := exists p, s = (p ++ t)%list.

(** Two RegExp objects with the same pattern and flags: they differ at
    most in [lastIndex]. *)
Definition same_pattern (p q : RegExp.RegExp) : Prop :=
  RegExp.source p = RegExp.source q /\
  RegExp.ignoreCase p = RegExp.ignoreCase q /\
  RegExp.global p = RegExp.global q /\
  RegExp.unicode p = RegExp.unicode q.

(** The states the module's pattern array can be in. *)
Definition same_patterns (ps qs : list RegExp.RegExp) : Prop := Forall2 same_pattern ps qs.

(** The two roles of the attention gate, and the gate of a role. *)
Inductive Role : Type := user | assistant.

Definition gate (Emoji : N -> bool) (role : Role) (text : jsstring)
    (patterns : list RegExp.RegExp) : option (bool * list RegExp.RegExp) :=
  match role with
  | user => Some (Gate.passesAttentionGate Emoji text patterns)
  | assistant => Gate.passesAssistantAttentionGate Emoji text patterns
  end.

(** The sign of a number is [s], or it is NaN. *)
Definition has_sign (s : bool) (x : Num.number) : Prop :=
  match x with
  | S754_nan => True
  | S754_zero s' | S754_infinity s' | S754_finite s' _ _ => s' = s
  end.

End Props.

(* ====================================================================== *)
(** ** More vocabulary: what the auto-capture hook may store *)
(* ====================================================================== *)

Module CaptureProps.

Import Str Host.

(** The event [e], if it hands a memory to the store, hands over the
    text of one item of a capture loop, under the source [src]. *)
Definition stores (ctx : Plugin.ToolContext) (src : MemorySource) (text : jsstring)
    (e : Event) : Prop :=
  forall m, e = EvStoreMemory m ->
    sm_category m = js "other" /\
    sm_agentId m = Plugin.or_else (Plugin.ctx_agentId ctx) (js "default") /\
    sm_sessionKey m = Plugin.ctx_sessionKey ctx /\
    sm_source m = src /\ sm_text m = text.

Section WithRuntime.

Variable Emoji : N -> bool.
Variable Env : Type.
Variables (HostMessage SleepCycleResult : Type).
Variable rt : Runtime Env HostMessage SleepCycleResult.

(** The event [e], if it hands a memory to the store, hands over a text
    that the extractor found among [messages] and that passes the gate of
    its role, with the category "other" and the agent and session of the
    hook's context. *)
Definition captured_from (messages : list HostMessage) (ctx : Plugin.ToolContext)
    (e : Event) : Prop :=
  forall m, e = EvStoreMemory m ->
    sm_category m = js "other" /\
    sm_agentId m = Plugin.or_else (Plugin.ctx_agentId ctx) (js "default") /\
    sm_sessionKey m = Plugin.ctx_sessionKey ctx /\
    match sm_source m with
    | source_auto_capture =>
        exists found,
          rt_extractUserMessages rt messages = Ok found /\
          In (sm_text m) found /\ Plugin.passes_user Emoji (sm_text m) = true
    | source_auto_capture_assistant =>
        exists found,
          rt_extractAssistantMessages rt messages = Ok found /\
          In (sm_text m) found /\ Plugin.passes_assistant Emoji (sm_text m) = true
    | source_user => False
    end.

(** The hook has nothing to do: the run failed, or it has no messages. *)
Definition nothing_to_capture (event : Plugin.AgentEndEvent HostMessage) : bool :=
  (negb (Plugin.ev_success event)
   || match Plugin.ev_messages event with
      | Some (_ :: _) => false
      | _ => true
      end)%bool.

End WithRuntime.

End CaptureProps.

(* ====================================================================== *)
(** ** More vocabulary: the prompts of the system *)
(* ====================================================================== *)

Module NoiseProps.

Import Str.
Open Scope string_scope.

(** The same characters up to ASCII case. *)
Definition same_letters (p q : jsstring) : Prop :=
  List.map RegExp.upper p = List.map RegExp.upper q.

(** A text that starts like a session-reset or pre-compaction prompt,
    or that holds the heartbeat prompt, in any case. *)
Definition system_prompt (t : jsstring) : Prop :=
  exists pre p rest,
    t = (pre ++ p ++ rest)%list /\
    ((pre = [] /\ same_letters p (js "A new session was started via")) \/
     (pre = [] /\ same_letters p (js "Pre-compaction memory flush")) \/
     same_letters p (js "Read HEARTBEAT.md if it exists")).

End NoiseProps.

(* ====================================================================== *)
(** ** Numbers and collections of the CLI and of the lifecycle hooks *)
(* ====================================================================== *)

Module NumOps.

Definition add (a b : Num.number) : Num.number := SFadd Num.prec Num.emax a b.
Definition sub (a b : Num.number) : Num.number := SFsub Num.prec Num.emax a b.
Definition div (a b : Num.number) : Num.number := SFdiv Num.prec Num.emax a b.

(** [!x] is false: the number is neither 0, -0 nor NaN. *)
Definition truthy (x : Num.number) : bool :=
  match x with
  | S754_zero _ | S754_nan => false
  | _ => true
  end.

(** [!o] is false for an optional number. *)
Definition present (o : option Num.number) : bool :=
  match o with Some x => truthy x | None => false end.

Definition lit_3 : Num.number := Eval vm_compute in Num.of_Z 3.
Definition lit_50 : Num.number := Eval vm_compute in Num.of_Z 50.
Definition lit_100 : Num.number := Eval vm_compute in Num.of_Z 100.
Definition lit_10000 : Num.number := Eval vm_compute in Num.of_Z 10000.

End NumOps.

(** [Set<string>] and [Map<string, V>]: the keys in insertion order, each
    once.  [add] and [set] keep the place of a key that is there. *)
Module Coll.

Import Str.

Fixpoint eqb (a b : jsstring) : bool :=
  match a, b with
  | [], [] => true
  | x :: a', y :: b' => (N.eqb x y && eqb a' b')%bool
  | _, _ => false
  end.

Definition has (k : jsstring) (s : list jsstring) : bool := existsb (eqb k) s.

Definition add (k : jsstring) (s : list jsstring) : list jsstring :=
  if has k s then s else (s ++ [k])%list.

Definition remove (k : jsstring) (s : list jsstring) : list jsstring :=
  filter (fun x => negb (eqb k x)) s.

(** [new Set(l)] *)
Definition of_list (l : list jsstring) : list jsstring :=
  fold_left (fun s k => add k s) l [].

Section Map.

Variable V : Type.

Fixpoint get (k : jsstring) (m : list (jsstring * V)) : option V :=
  match m with
  | [] => None
  | (k', v) :: m' => if eqb k k' then Some v else get k m'
  end.

Fixpoint set (k : jsstring) (v : V) (m : list (jsstring * V)) : list (jsstring * V) :=
  match m with
  | [] => [(k, v)]
  | (k', v') :: m' => if eqb k k' then (k, v) :: m' else (k', v') :: set k v m'
  end.

Definition delete (k : jsstring) (m : list (jsstring * V)) : list (jsstring * V) :=
  filter (fun p => negb (eqb k (fst p))) m.

Definition keys (m : list (jsstring * V)) : list jsstring := List.map fst m.

End Map.

End Coll.

(* ====================================================================== *)
(** ** The host of the CLI and of the lifecycle hooks *)
(* ====================================================================== *)

(** The commands and the hooks talk to the Neo4j client, the hybrid
    search, the clock, the logger and the console; the hooks also share
    the session tables that [register] creates.  A computation reads and
    writes a world made of these tables, the environment of the
    collaborators, and the trace of the calls made. *)
Module Ops.

Import Str Host.

(** A row of [db.getMemoryStats]. *)
Record StatRow : Type := {
  row_agentId : jsstring;
  row_category : jsstring;
  row_count : Num.number;
  row_avgImportance : Num.number
}.

(** A result of [hybridSearch], as far as the code reads it. *)
Record SearchResult : Type := {
  sr_id : id;
  sr_text : jsstring;
  sr_category : jsstring;
  sr_importance : Num.number;
  sr_score : Num.number
}.

(** A row of the query of the [cleanup] command. *)
Record MemoryRow : Type := { mem_id : id; mem_text : jsstring; mem_source : jsstring }.

(** A row of [db.listByCategory], as far as the code reads it. *)
Record CoreMemory : Type := { core_id : id; core_text : jsstring }.

(** A bootstrap file of the host. *)
Record BootstrapFile : Type := {
  file_name : jsstring;
  file_path : jsstring;
  file_content : option jsstring;
  file_missing : bool
}.

(** The session tables of [register]. *)
Record Tracking : Type := {
  bootstrappedSessions : list jsstring;
  coreMemoryIdsBySession : list (jsstring * list id);
  midSessionRefreshAt : list (jsstring * Num.number);
  sessionLastSeen : list (jsstring * Z);
  lastTtlSweep : Z
}.

(** What is logged or printed: the template and the values it
    interpolates. *)
Inductive Message : Type :=
(* every command *)
| MsgErrorOf (err : jsstring)
(* list *)
| MsgStatsJson (stats : list StatRow)
| MsgNoMemories
| MsgAgentHeader (agentId : jsstring) (total : Num.number)
| MsgTableHead
| MsgTableRow (category : jsstring) (count avgImportance : Num.number)
| MsgTableEnd
| MsgBlank
(* search *)
| MsgResultsJson (results : list SearchResult)
(* promote *)
| MsgPromoted (i : id)
| MsgNotFound (i : id)
(* index *)
| MsgBatchSizeError
| MsgReindexBanner (provider model : jsstring) (dimensions batchSize : Num.number)
| MsgReindexDone (elapsedMs : Z) (memories : Num.number)
| MsgReindexFailed (err : jsstring)
(* cleanup *)
| MsgNothingToClean
| MsgNoiseFound (noise total : Z)
| MsgNoisePreview (source preview : jsstring)
| MsgDryRun (noise : Z)
| MsgDeleted (n : Num.number)
(* session tables *)
| MsgClearedAfterCompaction (key : jsstring)
| MsgClearedSessionEnd (key : jsstring)
(* mid-session refresh *)
| MsgSkipRefresh (tokensSinceRefresh : Num.number)
| MsgMidSessionRefresh (usagePercent : Num.number) (memories : Z)
| MsgRefreshFailed (err : jsstring)
(* auto-recall *)
| MsgInjecting (memories : Z)
| MsgAutoRecalled (results : list (id * jsstring * jsstring * Num.number))
| MsgAutoRecallFailed (err : jsstring)
(* bootstrap *)
| MsgAlreadyBootstrapped (key : jsstring)
| MsgNotBootstrapped (key : jsstring) (size : Z)
| MsgLoadingCore (agentId session : jsstring)
| MsgNoCoreMemories (agentId : jsstring)
| MsgCoreInjected (replaced : bool) (memories : Z) (agentId session : jsstring)
| MsgCoreFailed (err : jsstring)
(* service *)
| MsgServiceStarted
| MsgServiceFailed (err : jsstring)
| MsgServiceStopped.

(** One call to a collaborator. *)
Inductive Event : Type :=
| EvEnsureInitialized
| EvGetMemoryStats
| EvHybridSearch (query : jsstring) (limit : Num.number) (agentId : jsstring)
    (graph : bool)
| EvPromoteToCore (ids : list id)
| EvReindex (batchSize : Num.number)
| EvRunQuery (cypher : jsstring) (agentId : option jsstring)
| EvPruneMemories (ids : list id)
| EvListByCategory (category : jsstring) (limit : Num.number) (minImportance : Num.number)
    (agentId : jsstring)
| EvClose
| EvLog (l : Level) (m : Message)
| EvConsoleLog (m : Message)
| EvConsoleError (m : Message)
| EvExitCode (code : Z).

(** The events that reach the store. *)
Definition is_db (e : Event) : bool :=
  match e with
  | EvEnsureInitialized | EvGetMemoryStats | EvHybridSearch _ _ _ _
  | EvPromoteToCore _ | EvReindex _ | EvRunQuery _ _ | EvPruneMemories _
  | EvListByCategory _ _ _ _ | EvClose => true
  | _ => false
  end.

Definition is_prune (e : Event) : bool :=
  match e with EvPruneMemories _ => true | _ => false end.

Section Services.

Variable Env : Type.

(** The collaborators, as they are called.  [db_reindex] stands for
    [db.reindex(embedFn, { batchSize, onProgress })]: the embedding calls
    and the progress lines of its two callbacks are part of the call. *)
Record Services : Type := {
  (* neo4j-client.js *)
  db_ensureInitialized : Env -> Outcome unit * Env;
  db_getMemoryStats : Env -> Outcome (list StatRow) * Env;
  db_promoteToCore : list id -> Env -> Outcome Num.number * Env;
  db_reindex : Num.number -> Env -> Outcome Num.number * Env;
  db_runQuery : jsstring -> option jsstring -> Env -> Outcome (list MemoryRow) * Env;
  db_pruneMemories : list id -> Env -> Outcome Num.number * Env;
  db_listByCategory :
    jsstring -> Num.number -> Num.number -> jsstring -> Env
    -> Outcome (list CoreMemory) * Env;
  db_close : Env -> Outcome unit * Env;
  (* search.js *)
  sv_hybridSearch :
    jsstring -> Num.number -> jsstring -> bool -> Env
    -> Outcome (list SearchResult) * Env;
  (* extractor.js *)
  sv_stripMessageWrappers : jsstring -> Outcome jsstring;
  (* Date.now() *)
  sv_now : Env -> Z * Env
}.

Record World : Type := { tracking : Tracking; env : Env; trace : list Event }.

(** Computations: read and write the world, return or throw. *)
Definition M (A : Type) : Type := World -> Outcome A * World.

Definition ret {A} (a : A) : M A := fun w => (Ok a, w).

Definition bind {A B} (m : M A) (k : A -> M B) : M B :=
  fun w =>
    match m w with
    | (Ok a, w') => k a w'
    | (Throw err, w') => (Throw err, w')
    end.

(** [try { m } catch (err) { h err }] *)
Definition try_catch {A} (m : M A) (h : jsstring -> M A) : M A :=
  fun w =>
    match m w with
    | (Ok a, w') => (Ok a, w')
    | (Throw err, w') => h err w'
    end.

Definition emit (e : Event) : M unit :=
  fun w => (Ok tt, {| tracking := tracking w; env := env w; trace := trace w ++ [e] |}).

(** A call to a collaborator, recorded as [e]; it cannot reach the
    session tables. *)
Definition call {A} (e : Event) (op : Env -> Outcome A * Env) : M A :=
  fun w =>
    let (r, env') := op (env w) in
    (r, {| tracking := tracking w; env := env'; trace := trace w ++ [e] |}).

Definition lift {A} (r : Outcome A) : M A := fun w => (r, w).

(** Reading and updating the session tables. *)
Definition tables : M Tracking := fun w => (Ok (tracking w), w).

Definition update (f : Tracking -> Tracking) : M unit :=
  fun w => (Ok tt, {| tracking := f (tracking w); env := env w; trace := trace w |}).

Variable sv : Services.

(** [Date.now()] *)
Definition Date_now : M Z :=
  fun w =>
    let (t, env') := sv_now sv (env w) in
    (Ok t, {| tracking := tracking w; env := env'; trace := trace w |}).

End Services.

Arguments ret {Env A} a.
Arguments bind {Env A B} m k.
Arguments try_catch {Env A} m h.
Arguments emit {Env} e.
Arguments call {Env A} e op.
Arguments lift {Env A} r.
Arguments tables {Env}.
Arguments update {Env} f.

End Ops.

Declare Scope ops_scope.
Delimit Scope ops_scope with ops.
Notation "x <- m ;; k" := (Ops.bind m (fun x => k))
  (at level 61, m at next level, right associativity) : ops_scope.
Notation "m ;;; k" := (Ops.bind m (fun _ => k))
  (at level 61, right associativity) : ops_scope.

(* ====================================================================== *)
(** ** The session tables and the lifecycle hooks (index.ts, [register]) *)
(* ====================================================================== *)

Module Lifecycle.

Import Str Host Ops.
Open Scope string_scope.
Open Scope ops_scope.

(** The hook context [ctx]. *)
Record HookContext : Type := {
  hc_agentId : option jsstring;
  hc_sessionKey : option jsstring;
  hc_sessionId : option jsstring
}.

(** The [before_agent_start] event. *)
Record BeforeAgentStart : Type := {
  ev_prompt : option jsstring;
  ev_contextWindowTokens : option Num.number;
  ev_estimatedUsedTokens : option Num.number
}.

Definition MIN_TOKENS_SINCE_REFRESH : Num.number := NumOps.lit_10000.
Definition SESSION_TTL_MS : Z := 24 * 60 * 60 * 1000.
Definition MAX_QUERY_CHARS : Z := 1000.

(** The four [delete(key)] of the session tables. *)
Definition forget_session (key : jsstring) (t : Tracking) : Tracking :=
  {| bootstrappedSessions := Coll.remove key (bootstrappedSessions t);
     coreMemoryIdsBySession := Coll.delete key (coreMemoryIdsBySession t);
     midSessionRefreshAt := Coll.delete key (midSessionRefreshAt t);
     sessionLastSeen := Coll.delete key (sessionLastSeen t);
     lastTtlSweep := lastTtlSweep t |}.

(** [for (const [key, ts] of sessionLastSeen) if (ts < cutoff) ...]: an
    entry deletes itself only, so the loop visits the entries that were
    there when it started. *)
Definition sweep (cutoff : Z) (t : Tracking) : Tracking :=
  fold_left
    (fun t' entry => if (snd entry <? cutoff)%Z then forget_session (fst entry) t' else t')
    (sessionLastSeen t) t.

Definition set_lastTtlSweep (now : Z) (t : Tracking) : Tracking :=
  {| bootstrappedSessions := bootstrappedSessions t;
     coreMemoryIdsBySession := coreMemoryIdsBySession t;
     midSessionRefreshAt := midSessionRefreshAt t;
     sessionLastSeen := sessionLastSeen t;
     lastTtlSweep := now |}.

Definition set_lastSeen (key : jsstring) (now : Z) (t : Tracking) : Tracking :=
  {| bootstrappedSessions := bootstrappedSessions t;
     coreMemoryIdsBySession := coreMemoryIdsBySession t;
     midSessionRefreshAt := midSessionRefreshAt t;
     sessionLastSeen := Coll.set key now (sessionLastSeen t);
     lastTtlSweep := lastTtlSweep t |}.

Definition set_refreshAt (key : jsstring) (tokens : Num.number) (t : Tracking) : Tracking :=
  {| bootstrappedSessions := bootstrappedSessions t;
     coreMemoryIdsBySession := coreMemoryIdsBySession t;
     midSessionRefreshAt := Coll.set key tokens (midSessionRefreshAt t);
     sessionLastSeen := sessionLastSeen t;
     lastTtlSweep := lastTtlSweep t |}.

Definition add_bootstrapped (key : jsstring) (t : Tracking) : Tracking :=
  {| bootstrappedSessions := Coll.add key (bootstrappedSessions t);
     coreMemoryIdsBySession := coreMemoryIdsBySession t;
     midSessionRefreshAt := midSessionRefreshAt t;
     sessionLastSeen := sessionLastSeen t;
     lastTtlSweep := lastTtlSweep t |}.

Definition set_coreIds (key : jsstring) (ids : list id) (t : Tracking) : Tracking :=
  {| bootstrappedSessions := bootstrappedSessions t;
     coreMemoryIdsBySession := Coll.set key ids (coreMemoryIdsBySession t);
     midSessionRefreshAt := midSessionRefreshAt t;
     sessionLastSeen := sessionLastSeen t;
     lastTtlSweep := lastTtlSweep t |}.

(** The tables when [register] has run; [now] is the clock then. *)
Definition initial (now : Z) : Tracking :=
  {| bootstrappedSessions := [];
     coreMemoryIdsBySession := [];
     midSessionRefreshAt := [];
     sessionLastSeen := [];
     lastTtlSweep := now |}.

(** A string is truthy when it is there and not empty. *)
Definition truthy (o : option jsstring) : option jsstring :=
  match o with Some (c :: r) => Some (c :: r) | _ => None end.

(** [files.findIndex((f) => f.name === "MEMORY.md" || f.name === "memory.md")] *)
Definition is_memory_file (f : BootstrapFile) : bool :=
  (Coll.eqb (file_name f) (js "MEMORY.md") || Coll.eqb (file_name f) (js "memory.md"))%bool.

(** [files[memoryIndex] = virtualFile] at the first memory file, or
    [files.push(virtualFile)] when there is none; the flag says which. *)
Fixpoint place (virtualFile : BootstrapFile) (files : list BootstrapFile)
    : bool * list BootstrapFile :=
  match files with
  | [] => (false, [virtualFile])
  | f :: rest =>
      if is_memory_file f then (true, virtualFile :: rest)
      else let (replaced, rest') := place virtualFile rest in (replaced, f :: rest')
  end.

Section WithServices.

Variable Env : Type.
Variable sv : Services Env.

(** What [register] read from the configuration. *)
Variable maxEntries : Num.number.           (* cfg.coreMemory.maxEntries *)
Variable refreshThreshold : Num.number.     (* cfg.coreMemory.refreshAtContextPercent *)
Variable autoRecallMinScore : Num.number.   (* cfg.autoRecallMinScore *)
Variable extraction_enabled : bool.
Variable logger_debug : bool.

Definition api_debug (m : Message) : M Env unit :=
  if logger_debug then emit (EvLog debug m) else ret tt.
Definition api_info (m : Message) : M Env unit := emit (EvLog info m).
Definition api_warn (m : Message) : M Env unit := emit (EvLog warn m).
Definition api_error (m : Message) : M Env unit := emit (EvLog error m).

Definition listByCategory (category : jsstring) (limit minImportance : Num.number)
    (agentId : jsstring) : M Env (list CoreMemory) :=
  call (EvListByCategory category limit minImportance agentId)
       (db_listByCategory sv category limit minImportance agentId).

Definition hybridSearch (query : jsstring) (limit : Num.number) (agentId : jsstring)
    (graph : bool) : M Env (list SearchResult) :=
  call (EvHybridSearch query limit agentId graph)
       (sv_hybridSearch sv query limit agentId graph).

(** [pruneStaleSessionEntries()] *)
Definition pruneStaleSessionEntries : M Env unit :=
  now <- Date_now sv ;;
  t <- tables ;;
  (* Only sweep at most once per 5 minutes *)
  if (now - lastTtlSweep t <? 5 * 60 * 1000)%Z then ret tt
  else
    update (set_lastTtlSweep now) ;;;
    let cutoff := (now - SESSION_TTL_MS)%Z in
    update (sweep cutoff).

(** [touchSession(sessionKey)] *)
Definition touchSession (sessionKey : jsstring) : M Env unit :=
  now <- Date_now sv ;;
  update (set_lastSeen sessionKey now) ;;;
  pruneStaleSessionEntries.

(** The handler of [after_compaction]. *)
Definition after_compaction (ctx : HookContext) : M Env unit :=
  match truthy (hc_sessionKey ctx) with
  | Some key =>
      update (forget_session key) ;;;
      api_info (MsgClearedAfterCompaction key)
  | None => ret tt
  end.

(** The handler of [session_end]. *)
Definition session_end (ctx : HookContext) : M Env unit :=
  let key :=
    match hc_sessionKey ctx with
    | Some k => Some k
    | None => hc_sessionId ctx
    end in
  match truthy key with
  | Some key =>
      update (forget_session key) ;;;
      api_info (MsgClearedSessionEnd key)
  | None => ret tt
  end.

(** The handler of [before_agent_start] that refreshes the core
    memories in the middle of a session; the result is [prependContext],
    when there is one. *)
Definition mid_session_refresh (event : BeforeAgentStart) (ctx : HookContext)
    : M Env (option jsstring) :=
  match ev_contextWindowTokens event, ev_estimatedUsedTokens event with
  | Some window, Some used =>
      (* Skip if context info not available *)
      if (negb (NumOps.truthy window) || negb (NumOps.truthy used))%bool then ret None
      else
        let sessionKey := Plugin.default (hc_sessionKey ctx) [] in
        let agentId := Plugin.or_else (hc_agentId ctx) (js "default") in
        let usagePercent := Num.mul (NumOps.div used window) NumOps.lit_100 in
        (* Only refresh if we've crossed the threshold *)
        if Num.lt usagePercent refreshThreshold then ret None
        else
          t <- tables ;;
          let lastRefreshTokens :=
            Plugin.default (Coll.get sessionKey (midSessionRefreshAt t)) Num.lit_0 in
          let tokensSinceRefresh := NumOps.sub used lastRefreshTokens in
          if Num.lt tokensSinceRefresh MIN_TOKENS_SINCE_REFRESH then
            api_debug (MsgSkipRefresh tokensSinceRefresh) ;;; ret None
          else
            try_catch
              (coreMemories <- listByCategory (js "core") maxEntries Num.lit_0 agentId ;;
               match coreMemories with
               | [] => ret None
               | _ :: _ =>
                   (* Record this refresh *)
                   update (set_refreshAt sessionKey used) ;;;
                   touchSession sessionKey ;;;
                   let content :=
                     Plugin.join Plugin.newline
                       (List.map (fun m => (js "- " ++ core_text m)%list) coreMemories) in
                   api_info (MsgMidSessionRefresh usagePercent
                               (Z.of_nat (List.length coreMemories))) ;;;
                   ret (Some (js "<core-memory-refresh>" ++ Plugin.newline
                              ++ js "Reminder of persistent context (you may have seen this earlier, re-stating for recency):"
                              ++ Plugin.newline ++ content ++ Plugin.newline
                              ++ js "</core-memory-refresh>")%list)
               end)
              (fun err => api_warn (MsgRefreshFailed err) ;;; ret None)
  | _, _ => ret None
  end.

(** The handler of [before_agent_start] that recalls memories for the
    prompt. *)
Definition auto_recall (event : BeforeAgentStart) (ctx : HookContext)
    : M Env (option jsstring) :=
  match truthy (ev_prompt event) with
  | None => ret None
  | Some prompt =>
      if (length prompt <? 5)%Z then ret None
      else
        let agentId := Plugin.or_else (hc_agentId ctx) (js "default") in
        let query :=
          if (length prompt >? MAX_QUERY_CHARS)%Z then slice prompt 0 MAX_QUERY_CHARS
          else prompt in
        try_catch
          (results <- hybridSearch query NumOps.lit_3 agentId extraction_enabled ;;
           (* Feature 1: Filter out low-relevance results *)
           let results :=
             filter (fun r => Num.ge (sr_score r) autoRecallMinScore) results in
           (* Feature 2: Deduplicate against core memories already in context *)
           let sessionKey := Plugin.default (hc_sessionKey ctx) [] in
           t <- tables ;;
           let results :=
             match Coll.get sessionKey (coreMemoryIdsBySession t) with
             | Some coreIds => filter (fun r => negb (Coll.has (sr_id r) coreIds)) results
             | None => results
             end in
           match results with
           | [] => ret None
           | _ :: _ =>
               let memoryContext :=
                 Plugin.join Plugin.newline
                   (List.map (fun r => (js "- [" ++ sr_category r ++ js "] "
                                        ++ sr_text r)%list) results) in
               api_info (MsgInjecting (Z.of_nat (List.length results))) ;;;
               api_debug
                 (MsgAutoRecalled
                    (List.map (fun r => (sr_id r, slice (sr_text r) 0 80,
                                         sr_category r, sr_score r)) results)) ;;;
               ret (Some (js "<relevant-memories>" ++ Plugin.newline
                          ++ js "The following memories may be relevant to this conversation:"
                          ++ Plugin.newline ++ memoryContext ++ Plugin.newline
                          ++ js "</relevant-memories>")%list)
           end)
          (fun err => api_warn (MsgAutoRecallFailed err) ;;; ret None)
  end.

(** The handler of [agent_bootstrap]; the result is the new list of
    files, when there is one. *)
Definition agent_bootstrap (files : list BootstrapFile) (ctx : HookContext)
    : M Env (option (list BootstrapFile)) :=
  let sessionKey := truthy (hc_sessionKey ctx) in
  let session := Plugin.default (hc_sessionKey ctx) (js "unknown") in
  let load : M Env (option (list BootstrapFile)) :=
    try_catch
      (let agentId := Plugin.or_else (hc_agentId ctx) (js "default") in
       api_debug (MsgLoadingCore agentId session) ;;;
       coreMemories <- listByCategory (js "core") maxEntries Num.lit_0 agentId ;;
       match coreMemories with
       | [] =>
           match sessionKey with
           | Some key => update (add_bootstrapped key) ;;; touchSession key
           | None => ret tt
           end ;;;
           api_debug (MsgNoCoreMemories agentId) ;;;
           ret None
       | _ :: _ =>
           (* Format core memories into a MEMORY.md-style document *)
           let content :=
             (js "# Core Memory" ++ Plugin.newline ++ Plugin.newline
              ++ js "*Persistent context loaded from long-term memory*"
              ++ Plugin.newline ++ Plugin.newline
              ++ List.concat (List.map (fun mem => (js "- " ++ core_text mem
                                               ++ Plugin.newline)%list)
                           coreMemories))%list in
           let virtualFile :=
             {| file_name := js "MEMORY.md";
                file_path := js "memory://neo4j/core-memory";
                file_content := Some content;
                file_missing := false |} in
           (* Find and replace MEMORY.md in the files list, or add it *)
           let (replaced, files') := place virtualFile files in
           match sessionKey with
           | Some key =>
               update (add_bootstrapped key) ;;;
               update (set_coreIds key (Coll.of_list (List.map core_id coreMemories))) ;;;
               touchSession key
           | None => ret tt
           end ;;;
           api_info (MsgCoreInjected replaced (Z.of_nat (List.length coreMemories))
                       agentId session) ;;;
           ret (Some files')
       end)
      (fun err => api_warn (MsgCoreFailed err) ;;; ret None) in
  t <- tables ;;
  match sessionKey with
  | Some key =>
      if Coll.has key (bootstrappedSessions t) then
        (* Skip if this session was already bootstrapped *)
        api_debug (MsgAlreadyBootstrapped key) ;;; ret None
      else
        api_debug (MsgNotBootstrapped key
                     (Z.of_nat (List.length (bootstrappedSessions t)))) ;;;
        load
  | None => load
  end.

(** The service: [start] and [stop]. *)
Definition service_start : M Env unit :=
  try_catch
    (call EvEnsureInitialized (db_ensureInitialized sv) ;;;
     api_info MsgServiceStarted)
    (fun err => api_error (MsgServiceFailed err)).

Definition service_stop : M Env unit :=
  call EvClose (db_close sv) ;;;
  api_info MsgServiceStopped.

End WithServices.

End Lifecycle.

(* ====================================================================== *)
(** ** The [memory neo4j] commands (index.ts, [registerCli]) *)
(* ====================================================================== *)

Module Cli.

Import Str Host Ops.
Open Scope string_scope.
Open Scope ops_scope.

(** A line of an agent's table: [{ category, count, avgImportance }]. *)
Record CategoryRow : Type := {
  cat_category : jsstring;
  cat_count : Num.number;
  cat_avgImportance : Num.number
}.

Definition category_row (row : StatRow) : CategoryRow :=
  {| cat_category := row_category row;
     cat_count := row_count row;
     cat_avgImportance := row_avgImportance row |}.

(** The loop that fills [byAgent]: each row goes to the end of the
    list of its agent. *)
Definition byAgent (stats : list StatRow) : list (jsstring * list CategoryRow) :=
  fold_left
    (fun m row =>
       let list := Plugin.default (Coll.get (row_agentId row) m) [] in
       Coll.set (row_agentId row) (list ++ [category_row row])%list m)
    stats [].

(** [categories.reduce((sum, c) => sum + c.count, 0)] *)
Definition total (categories : list CategoryRow) : Num.number :=
  fold_left (fun sum c => NumOps.add sum (cat_count c)) categories Num.lit_0.

(** The options of [cleanup]. *)
Record CleanupOpts : Type := {
  o_execute : bool;
  o_all : bool;
  o_agent : option jsstring
}.

(** The conditions and the query of [cleanup]. *)
Definition conditions (opts : CleanupOpts) : list jsstring :=
  ((if negb (o_all opts) then [js "m.source = 'auto-capture'"] else [])
   ++ (match Lifecycle.truthy (o_agent opts) with
       | Some _ => [js "m.agentId = $agentId"]
       | None => []
       end))%list.

Definition where_clause (opts : CleanupOpts) : jsstring :=
  match conditions opts with
  | [] => []
  | cs => (js "WHERE " ++ Plugin.join (js " AND ") cs)%list
  end.

Definition cleanup_query (opts : CleanupOpts) : jsstring :=
  (js "MATCH (m:Memory) " ++ where_clause opts ++ Plugin.newline
   ++ js "                 RETURN m.id AS id, m.text AS text, COALESCE(m.source, 'unknown') AS source"
   ++ Plugin.newline
   ++ js "                 ORDER BY m.createdAt ASC")%list.

(** [mem.text.length > 80 ? `${mem.text.slice(0, 77)}...` : mem.text] *)
Definition preview (text : jsstring) : jsstring :=
  if (length text >? 80)%Z then (slice text 0 77 ++ js "...")%list else text.

Section WithServices.

Variable Emoji : N -> bool.
Variable Env : Type.
Variable sv : Services Env.

(** What [register] read from the configuration. *)
Variables (cfg_provider cfg_model : jsstring) (vectorDim : Num.number).
Variable extraction_enabled : bool.

Definition console_log (m : Message) : M Env unit := emit (EvConsoleLog m).

(** [console.error(`Error: ...`); process.exitCode = 1] *)
Definition fail (m : Message) : M Env unit :=
  emit (EvConsoleError m) ;;; emit (EvExitCode 1).

Definition ensureInitialized : M Env unit :=
  call EvEnsureInitialized (db_ensureInitialized sv).

(** The table of one agent. *)
Fixpoint print_rows (categories : list CategoryRow) : M Env unit :=
  match categories with
  | [] => ret tt
  | c :: rest =>
      console_log (MsgTableRow (cat_category c) (cat_count c) (cat_avgImportance c)) ;;;
      print_rows rest
  end.

Fixpoint print_agents (groups : list (jsstring * list CategoryRow)) : M Env unit :=
  match groups with
  | [] => ret tt
  | (agentId, categories) :: rest =>
      console_log (MsgAgentHeader agentId (total categories)) ;;;
      console_log MsgTableHead ;;;
      print_rows categories ;;;
      console_log MsgTableEnd ;;;
      print_agents rest
  end.

(** [memory neo4j list [--json]] *)
Definition list_action (json : bool) : M Env unit :=
  try_catch
    (ensureInitialized ;;;
     stats <- call EvGetMemoryStats (db_getMemoryStats sv) ;;
     if json then console_log (MsgStatsJson stats)
     else
       match stats with
       | [] => console_log MsgNoMemories
       | _ :: _ =>
           (* Group by agentId, print table for each agent *)
           print_agents (byAgent stats) ;;;
           console_log MsgBlank
       end)
    (fun err => fail (MsgErrorOf err)).

(** [memory neo4j search <query> [--limit <n>]] *)
Definition search_action (query : jsstring) (limit : jsstring) : M Env unit :=
  try_catch
    (results <- Lifecycle.hybridSearch sv query (Parse.parseInt limit) (js "default")
                  extraction_enabled ;;
     console_log (MsgResultsJson results))
    (fun err => fail (MsgErrorOf err)).

(** [memory neo4j promote <id>] *)
Definition promote_action (i : id) : M Env unit :=
  try_catch
    (ensureInitialized ;;;
     promoted <- call (EvPromoteToCore [i]) (db_promoteToCore sv [i]) ;;
     if Num.gt promoted Num.lit_0 then console_log (MsgPromoted i)
     else console_log (MsgNotFound i) ;;; emit (EvExitCode 1))
    (fun err => fail (MsgErrorOf err)).

(** [memory neo4j index [--batch-size <n>]] *)
Definition index_action (batchSize : option jsstring) : M Env unit :=
  let batchSize :=
    Plugin.default (Plugin.parse_opt Parse.parseInt batchSize) NumOps.lit_50 in
  if (Num.isNaN batchSize || Num.le batchSize Num.lit_0)%bool then
    fail MsgBatchSizeError
  else
    console_log (MsgReindexBanner cfg_provider cfg_model vectorDim batchSize) ;;;
    try_catch
      (startedAt <- Date_now sv ;;
       memories <- call (EvReindex batchSize) (db_reindex sv batchSize) ;;
       finishedAt <- Date_now sv ;;
       console_log (MsgReindexDone (finishedAt - startedAt) memories))
      (fun err => fail (MsgReindexFailed err)).

(** The loop of [cleanup] over the memories: those that fail the
    attention gate once their wrappers are stripped. *)
Fixpoint find_noise (memories : list MemoryRow) : M Env (list MemoryRow) :=
  match memories with
  | [] => ret []
  | mem :: rest =>
      stripped <- lift (sv_stripMessageWrappers sv (mem_text mem)) ;;
      noise <- find_noise rest ;;
      ret (if Plugin.passes_user Emoji stripped then noise else mem :: noise)
  end.

Fixpoint print_previews (noise : list MemoryRow) : M Env unit :=
  match noise with
  | [] => ret tt
  | mem :: rest =>
      console_log (MsgNoisePreview (mem_source mem) (preview (mem_text mem))) ;;;
      print_previews rest
  end.

(** [memory neo4j cleanup [--execute] [--all] [--agent <id>]] *)
Definition cleanup_action (opts : CleanupOpts) : M Env unit :=
  try_catch
    (ensureInitialized ;;;
     allMemories <- call (EvRunQuery (cleanup_query opts) (Lifecycle.truthy (o_agent opts)))
                      (db_runQuery sv (cleanup_query opts)
                         (Lifecycle.truthy (o_agent opts))) ;;
     noise <- find_noise allMemories ;;
     match noise with
     | [] => console_log MsgNothingToClean
     | _ :: _ =>
         console_log (MsgNoiseFound (Z.of_nat (List.length noise))
                        (Z.of_nat (List.length allMemories))) ;;;
         print_previews noise ;;;
         if negb (o_execute opts) then
           console_log (MsgDryRun (Z.of_nat (List.length noise)))
         else
           (* Delete in batch *)
           deleted <- call (EvPruneMemories (List.map mem_id noise))
                        (db_pruneMemories sv (List.map mem_id noise)) ;;
           console_log (MsgDeleted deleted)
     end)
    (fun err => fail (MsgErrorOf err)).

End WithServices.

End Cli.

(* ====================================================================== *)
(** ** The vocabulary of the statements about commands and hooks *)
(* ====================================================================== *)

Module OpsProps.

Import Str Host Ops.

Section Effects.

Variable Env : Type.

(** [adds m P]: the events [m] adds to the trace all satisfy [P]. *)
Definition adds (A : Type) (m : M Env A) (P : Event -> Prop) : Prop :=
  forall w, exists evs, trace (snd (m w)) = (trace w ++ evs)%list /\ Forall P evs.

(** [returns m]: [m] never throws. *)
Definition returns (A : Type) (m : M Env A) : Prop :=
  forall w, exists a w', m w = (Ok a, w').

(** [keeps m]: [m] leaves the session tables as they are. *)
Definition keeps (A : Type) (m : M Env A) : Prop :=
  forall w, tracking (snd (m w)) = tracking w.

End Effects.

End OpsProps.

Module CliProps.

Import Str Host Ops.


Section WithServices.

Variable Emoji : N -> bool.
Variable Env : Type.
Variable sv : Services Env.

(** The memory fails the attention gate once its wrappers are
    stripped. *)
Definition fails_gate (mem : MemoryRow) : bool :=
  match sv_stripMessageWrappers sv (mem_text mem) with
  | Ok stripped => negb (Plugin.passes_user Emoji stripped)
  | Throw _ => false
  end.

(** [stripMessageWrappers] returns for the text of the memory. *)
Definition strips (mem : MemoryRow) : bool :=
  match sv_stripMessageWrappers sv (mem_text mem) with
  | Ok _ => true
  | Throw _ => false
  end.

(** The batch size that [index] reads from its option. *)
Definition batch_size (o : option jsstring) : Num.number :=
  Plugin.default (Plugin.parse_opt Parse.parseInt o) NumOps.lit_50.

End WithServices.

End CliProps.

Module LifeProps.

Import Str Host Ops Lifecycle.




(** The session [k] has the same entries in [t] and [t']. *)
Definition same_entries (k : jsstring) (t t' : Tracking) : Prop :=
  Coll.has k (bootstrappedSessions t') = Coll.has k (bootstrappedSessions t) /\
  Coll.get k (coreMemoryIdsBySession t') = Coll.get k (coreMemoryIdsBySession t) /\
  Coll.get k (midSessionRefreshAt t') = Coll.get k (midSessionRefreshAt t) /\
  Coll.get k (sessionLastSeen t') = Coll.get k (sessionLastSeen t).

(** The session [k] has no entry in [t]. *)
Definition forgotten (k : jsstring) (t : Tracking) : Prop :=
  Coll.has k (bootstrappedSessions t) = false /\
  Coll.get k (coreMemoryIdsBySession t) = None /\
  Coll.get k (midSessionRefreshAt t) = None /\
  Coll.get k (sessionLastSeen t) = None.

(** The virtual [MEMORY.md] that [agent_bootstrap] makes of the core
    memories. *)
Definition core_memory_file (memories : list CoreMemory) : BootstrapFile :=
  {| file_name := js "MEMORY.md";
     file_path := js "memory://neo4j/core-memory";
     file_content :=
       Some (js "# Core Memory" ++ Plugin.newline ++ Plugin.newline
             ++ js "*Persistent context loaded from long-term memory*"
             ++ Plugin.newline ++ Plugin.newline
             ++ List.concat
                  (List.map (fun mem => js "- " ++ core_text mem ++ Plugin.newline)
                     memories))%list;
     file_missing := false |}.

(** [files'] is [files] with [v] in the place of its first memory file,
    or with [v] added at the end when it has none. *)
Definition placed (v : BootstrapFile) (files files' : list BootstrapFile) : Prop :=
  (exists pre f post,
     files = (pre ++ f :: post)%list /\
     forallb (fun x => negb (is_memory_file x)) pre = true /\
     is_memory_file f = true /\
     files' = (pre ++ v :: post)%list) \/
  (forallb (fun x => negb (is_memory_file x)) files = true /\
   files' = (files ++ [v])%list).

(** A result that [auto_recall] keeps: its score is not below the
    minimum, and it is not one of the core memories that were loaded for
    the session. *)
Definition recalled (minScore : Num.number) (t : Tracking) (sessionKey : jsstring)
    (r : SearchResult) : bool :=
  (Num.ge (sr_score r) minScore
   && match Coll.get sessionKey (coreMemoryIdsBySession t) with
      | Some coreIds => negb (Coll.has (sr_id r) coreIds)
      | None => true
      end)%bool.

(** The context that [auto_recall] injects for the results it keeps. *)
Definition relevant_memories (results : list SearchResult) : jsstring :=
  (js "<relevant-memories>" ++ Plugin.newline
   ++ js "The following memories may be relevant to this conversation:"
   ++ Plugin.newline
   ++ Plugin.join Plugin.newline
        (List.map (fun r => js "- [" ++ sr_category r ++ js "] " ++ sr_text r) results)
   ++ Plugin.newline ++ js "</relevant-memories>")%list.

(** The key has a time stamp older than [cutoff] among the entries. *)
Definition stale (cutoff : Z) (entries : list (jsstring * Z)) (k : jsstring) : bool :=
  existsb (fun e => (Coll.eqb k (fst e) && (snd e <? cutoff)%Z)%bool) entries.

(** What a sweep with the cutoff [cutoff] makes of the tables [t], seen
    from the session [k]: gone when its time stamp is older than the
    cutoff, untouched otherwise. *)
Definition swept (cutoff : Z) (t t' : Tracking) (k : jsstring) : Prop :=
  match Coll.get k (sessionLastSeen t) with
  | Some ts =>
      if (ts <? cutoff)%Z then forgotten k t' else same_entries k t t'
  | None => same_entries k t t'
  end.

(** The hook [m] forgets the session [key]: it returns, writes the
    line [msg], removes the session from all four tables and leaves the
    other sessions and the environment as they are. *)
Definition resets {Env : Type} (m : M Env unit) (key : jsstring) (msg : Message)
    (w : World Env) : Prop :=
  exists w',
    m w = (Ok tt, w') /\
    env w' = env w /\
    trace w' = (trace w ++ [EvLog info msg])%list /\
    forgotten key (tracking w') /\
    forall k, k <> key -> same_entries k (tracking w) (tracking w').

(** The tables after [pruneStaleSessionEntries()] at the time [now]. *)
Definition pruned (now : Z) (t : Tracking) : Tracking :=
  if (now - lastTtlSweep t <? 5 * 60 * 1000)%Z then t
  else sweep (now - SESSION_TTL_MS) (set_lastTtlSweep now t).

(** The tables after [touchSession(key)], when the clock reads [t1] and
    then [t2]. *)
Definition touched (key : jsstring) (t1 t2 : Z) (t : Tracking) : Tracking :=
  pruned t2 (set_lastSeen key t1 t).

(** Two readings of the clock in a row are never more than the
    session TTL apart. *)
Definition steady_clock {Env : Type} (sv : Services Env) : Prop :=
  forall e,
    (fst (sv_now sv (snd (sv_now sv e))) - fst (sv_now sv e) <= SESSION_TTL_MS)%Z.

End LifeProps.

(* ====================================================================== *)
(** ** A small store and clock to run the commands and the hooks on *)
(* ====================================================================== *)

(** A store that holds core memories and rows, answers when it is up, a
    search that returns two results, a clock that advances by one second
    at each reading.  It serves the examples; the theorems hold for all
    services. *)
Module Sample2.

Import Str Host Ops.
Open Scope string_scope.

Record Env : Type := {
  clock : Z;
  core : list CoreMemory;
  rows : list MemoryRow;
  up : bool
}.

Definition tick (e : Env) : Env :=
  {| clock := clock e + 1000; core := core e; rows := rows e; up := up e |}.

Definition when_up {A : Type} (a : A) (e : Env) : Outcome A * Env :=
  if up e then (Ok a, e) else (Throw (js "ServiceUnavailable"), e).

Definition services : Services Env :=
  {| db_ensureInitialized := when_up tt;
     db_getMemoryStats := when_up [];
     db_promoteToCore := fun ids => when_up (Num.of_Z (Z.of_nat (List.length ids)));
     db_reindex := fun _ => when_up Num.lit_0;
     db_runQuery := fun _ _ e => when_up (rows e) e;
     db_pruneMemories := fun ids => when_up (Num.of_Z (Z.of_nat (List.length ids)));
     db_listByCategory := fun _ _ _ _ e => when_up (core e) e;
     db_close := when_up tt;
     sv_hybridSearch := fun query _ _ _ =>
       when_up [ {| sr_id := js "m1"; sr_text := query; sr_category := js "fact";
                    sr_importance := Num.lit_0_7; sr_score := Num.lit_0_9 |};
                 {| sr_id := js "m2"; sr_text := js "low"; sr_category := js "other";
                    sr_importance := Num.lit_0_4; sr_score := Num.lit_0_4 |} ];
     sv_stripMessageWrappers := fun text => Ok text;
     sv_now := fun e => (clock e, tick e) |}.

Definition env0 : Env :=
  {| clock := 1000000;
     core := [ {| core_id := js "c1"; core_text := js "The user prefers short answers" |} ];
     rows := [ {| mem_id := js "r1"; mem_text := js "ok thanks";
                  mem_source := js "auto-capture" |};
               {| mem_id := js "r2"; mem_text := Sample.long_text;
                  mem_source := js "auto-capture" |} ];
     up := true |}.

Definition world0 : World Env :=
  {| tracking := Lifecycle.initial 0; env := env0; trace := [] |}.

(** The same world with the store down. *)
Definition world_down : World Env :=
  {| tracking := Lifecycle.initial 0;
     env := {| clock := 1000000; core := []; rows := []; up := false |};
     trace := [] |}.

(** Two days after the last sweep: the session "old" was last seen in
    the first minute, the session "new" a minute ago, and both have
    entries in the other tables. *)
Definition world_aged : World Env :=
  {| tracking :=
       {| bootstrappedSessions := [js "old"; js "new"];
          coreMemoryIdsBySession := [(js "old", [js "c1"]); (js "new", [js "c1"])];
          midSessionRefreshAt := [(js "old", Num.of_Z 90000)];
          sessionLastSeen := [(js "old", 60000%Z); (js "new", 172740000%Z)];
          lastTtlSweep := 0%Z |};
     env := {| clock := 172800000%Z; core := []; rows := []; up := true |};
     trace := [] |}.

Definition ctx1 : Lifecycle.HookContext :=
  {| Lifecycle.hc_agentId := None;
     Lifecycle.hc_sessionKey := Some (js "s1");
     Lifecycle.hc_sessionId := None |}.

(** Nine tenths of the context window are used. *)
Definition nearly_full : Lifecycle.BeforeAgentStart :=
  {| Lifecycle.ev_prompt := Some (js "what did we decide about the database?");
     Lifecycle.ev_contextWindowTokens := Some (Num.of_Z 100000);
     Lifecycle.ev_estimatedUsedTokens := Some (Num.of_Z 90000) |}.

(** The same, two thousand tokens later. *)
Definition a_little_later : Lifecycle.BeforeAgentStart :=
  {| Lifecycle.ev_prompt := Some (js "and what about the costs?");
     Lifecycle.ev_contextWindowTokens := Some (Num.of_Z 100000);
     Lifecycle.ev_estimatedUsedTokens := Some (Num.of_Z 92000) |}.

(** A prompt of 1010 characters. *)
Definition rambling : Lifecycle.BeforeAgentStart :=
  {| Lifecycle.ev_prompt := Some (List.concat (repeat (js "0123456789") 101));
     Lifecycle.ev_contextWindowTokens := None;
     Lifecycle.ev_estimatedUsedTokens := None |}.

Definition files0 : list BootstrapFile :=
  [ {| file_name := js "AGENTS.md"; file_path := js "/w/AGENTS.md";
       file_content := Some (js "agents"); file_missing := false |};
    {| file_name := js "memory.md"; file_path := js "/w/memory.md";
       file_content := None; file_missing := true |};
    {| file_name := js "MEMORY.md"; file_path := js "/w/MEMORY.md";
       file_content := Some (js "old"); file_missing := false |} ].

(** [memory neo4j cleanup --execute] *)
Definition cleanup_execute : Cli.CleanupOpts :=
  {| Cli.o_execute := true; Cli.o_all := false; Cli.o_agent := Some (js "main") |}.

End Sample2.

(* ====================================================================== *)
(** * Theorems *)
(* ====================================================================== *)

Unset Implicit Arguments.

(** ** Numbers *)

Module NumFacts.

Import Num.

Lemma SFcompare_antisym (x y : number) (c : comparison) :
  SFcompare x y = Some c -> SFcompare y x = Some (CompOpp c).
Proof.
  destruct x as [sx | sx | | sx mx ex], y as [sy | sy | | sy my ey]; simpl;
    try discriminate;
    try (destruct sx; intros [= <-]; reflexivity);
    try (destruct sy; intros [= <-]; reflexivity);
    try (destruct sx, sy; intros [= <-]; reflexivity).
  destruct sx, sy; intros [= <-]; try reflexivity; f_equal;
    rewrite (Z.compare_antisym ex ey);
    destruct (ex ?= ey)%Z; simpl; try reflexivity.
  - now rewrite (Pos.compare_cont_antisym mx my Eq).
  - now rewrite (Pos.compare_cont_antisym mx my Eq).
Qed.

Lemma SFcompare_nan_l (x y : number) :
  isNaN x = false -> isNaN y = false -> SFcompare x y <> None.
Proof.
  destruct x as [sx | sx | | sx mx ex], y as [sy | sy | | sy my ey]; simpl;
    discriminate.
Qed.

(** [Math.max(0, x)] is [+0] or a number above zero. *)
Lemma Math_max_0 (x : number) :
  isNaN x = false ->
  Math_max lit_0 x = lit_0 \/
  (Math_max lit_0 x = x /\ SFcompare lit_0 x = Some Lt).
Proof.
  destruct x as [sx | sx | | sx mx ex]; simpl; try discriminate; intros _.
  - now left.
  - destruct sx; [now left | now right].
  - destruct sx; [now left | now right].
Qed.

(** The clamp of a number that is not NaN lies in [0, 1]. *)
Lemma clamp_in_unit_interval (x : number) :
  isNaN x = false ->
  in_unit_interval (Math_min lit_1 (Math_max lit_0 x)) = true.
Proof.
  intros Hx. destruct (Math_max_0 x Hx) as [-> | [-> Hlt]].
  - reflexivity.
  - unfold Math_min.
    destruct (SFcompare lit_1 x) as [[ | | ] | ] eqn:Hc; try reflexivity.
    + unfold in_unit_interval, le, SFleb. rewrite Hlt.
      now rewrite (SFcompare_antisym _ _ _ Hc).
    + exfalso. revert Hc. apply SFcompare_nan_l; [reflexivity | exact Hx].
Qed.

(** The clamp of NaN is NaN. *)
Lemma clamp_nan : Math_min lit_1 (Math_max lit_0 NaN) = NaN.
Proof. reflexivity. Qed.

(** A number that is not below 0.7 is capped to 0.4 by
    [Math.min(x, 0.4)]. *)
Lemma min_cap (x : number) :
  isNaN x = false -> lt x lit_0_7 = false -> Math_min x lit_0_4 = lit_0_4.
Proof.
  unfold lt, SFltb, Math_min, lit_0_7, lit_0_4.
  destruct x as [sx | sx | | sx mx ex]; cbn [SFcompare isNaN];
    try discriminate; intros _.
  - destruct sx; [discriminate | reflexivity].
  - destruct sx; [discriminate |].
    destruct (Z.compare_spec ex (-53)) as [-> | H | H].
    + intros _. reflexivity.
    + discriminate.
    + intros _. destruct (Z.compare_spec ex (-54)) as [-> | H' | H'];
        try lia; reflexivity.
Qed.

(** 0.4 < 0.7 <= 1, as numbers. *)
Lemma literals_ordered :
  lt lit_0_4 lit_0_7 = true /\ le lit_0_7 lit_1 = true /\
  in_unit_interval lit_0_4 = true.
Proof. repeat split. Qed.

End NumFacts.

(** ** A logic for the effects: which events a computation adds *)

Module Logic.

Import Str Host.

Section Rules.

Context {Env : Type}.

(** [run m P Q]: whatever [m] does, the events it adds to the trace all
    satisfy [P], and a returned value satisfies [Q]. *)
Definition run {A} (m : M Env A) (P : Event -> Prop) (Q : A -> Prop) : Prop :=
  forall w r w',
    m w = (r, w') ->
    (exists evs, trace w' = trace w ++ evs /\ Forall P evs) /\
    (forall a, r = Ok a -> Q a).

(** [safe m]: [m] never throws. *)
Definition safe {A} (m : M Env A) : Prop :=
  forall w, exists a w', m w = (Ok a, w').

Lemma run_ret {A} (a : A) (P : Event -> Prop) (Q : A -> Prop) :
  Q a -> run (ret a) P Q.
Proof.
  intros Ha w r w' [= <- <-]. split.
  - exists []. now rewrite app_nil_r.
  - now intros a' [= <-].
Qed.

Lemma run_throw {A} (err : jsstring) (P : Event -> Prop) (Q : A -> Prop) :
  run (throw err) P Q.
Proof.
  intros w r w' [= <- <-]. split.
  - exists []. now rewrite app_nil_r.
  - discriminate.
Qed.

Lemma run_lift {A} (o : Outcome A) (P : Event -> Prop) (Q : A -> Prop) :
  (forall a, o = Ok a -> Q a) -> run (lift o) P Q.
Proof.
  intros Ho w r w' [= <- <-]. split.
  - exists []. now rewrite app_nil_r.
  - exact Ho.
Qed.

Lemma run_emit (e : Event) (P : Event -> Prop) (Q : unit -> Prop) :
  P e -> Q tt -> run (emit e) P Q.
Proof.
  intros He Hq w r w' [= <- <-]. split.
  - exists [e]. split; [reflexivity | now constructor].
  - now intros [] _.
Qed.

Lemma run_call {A} (e : Event) (op : Env -> Outcome A * Env)
    (P : Event -> Prop) (Q : A -> Prop) :
  P e -> (forall env a env', op env = (Ok a, env') -> Q a) ->
  run (call e op) P Q.
Proof.
  intros He Hq w r w'. unfold call.
  destruct (op (env w)) as [r0 env'] eqn:Hop. intros [= <- <-]. split.
  - exists [e]. split; [reflexivity | now constructor].
  - intros a ->. eapply Hq, Hop.
Qed.

Lemma run_bind {A B} (m : M Env A) (k : A -> M Env B)
    (P : Event -> Prop) (Q : A -> Prop) (R : B -> Prop) :
  run m P Q -> (forall a, Q a -> run (k a) P R) -> run (bind m k) P R.
Proof.
  intros Hm Hk w r w'. unfold bind.
  destruct (m w) as [[a | err] w1] eqn:Hmw.
  - intros Hka. destruct (Hm _ _ _ Hmw) as [[evs1 [Ht1 Hp1]] Hq].
    destruct (Hk a (Hq a eq_refl) _ _ _ Hka) as [[evs2 [Ht2 Hp2]] Hr].
    split; [| exact Hr].
    exists (evs1 ++ evs2). split.
    + now rewrite Ht2, Ht1, app_assoc.
    + now apply Forall_app.
  - intros [= <- <-]. destruct (Hm _ _ _ Hmw) as [Hev _].
    split; [exact Hev | discriminate].
Qed.

Lemma run_try_catch {A} (m : M Env A) (h : jsstring -> M Env A)
    (P : Event -> Prop) (Q : A -> Prop) :
  run m P Q -> (forall err, run (h err) P Q) -> run (try_catch m h) P Q.
Proof.
  intros Hm Hh w r w'. unfold try_catch.
  destruct (m w) as [[a | err] w1] eqn:Hmw.
  - intros [= <- <-]. exact (Hm _ _ _ Hmw).
  - intros Hhw. destruct (Hm _ _ _ Hmw) as [[evs1 [Ht1 Hp1]] _].
    destruct (Hh err _ _ _ Hhw) as [[evs2 [Ht2 Hp2]] Hq].
    split; [| exact Hq].
    exists (evs1 ++ evs2). split.
    + now rewrite Ht2, Ht1, app_assoc.
    + now apply Forall_app.
Qed.

Lemma run_weaken {A} (m : M Env A) (P P' : Event -> Prop) (Q Q' : A -> Prop) :
  run m P Q -> (forall e, P e -> P' e) -> (forall a, Q a -> Q' a) ->
  run m P' Q'.
Proof.
  intros Hm Hp Hq w r w' Hmw.
  destruct (Hm _ _ _ Hmw) as [[evs [Ht Hf]] Hr]. split.
  - exists evs. split; [exact Ht |].
    eapply Forall_impl; [exact Hp | exact Hf].
  - intros a Ha. now apply Hq, Hr.
Qed.

Lemma run_randomUUID HostMessage SleepCycleResult
    (rt : Runtime Env HostMessage SleepCycleResult)
    (P : Event -> Prop) (Q : id -> Prop) :
  (forall i, P (EvRandomUUID i)) -> (forall i, Q i) ->
  run (randomUUID rt) P Q.
Proof.
  intros Hp Hq w r w'. unfold randomUUID.
  destruct (rt_randomUUID rt (env w)) as [i env']. intros [= <- <-]. split.
  - exists [EvRandomUUID i]. split; [reflexivity | now constructor].
  - intros a [= <-]. apply Hq.
Qed.

Lemma run_result {A} (m : M Env A) (P : Event -> Prop) (Q Q' : A -> Prop) :
  run m P Q -> (forall w a w', m w = (Ok a, w') -> Q' a) -> run m P Q'.
Proof.
  intros Hm Hq w r w' Hmw. destruct (Hm _ _ _ Hmw) as [Hev _].
  split; [exact Hev |]. intros a ->. eapply Hq, Hmw.
Qed.

(** The events a computation adds are determined: two descriptions of
    them can be combined. *)
Lemma run_and {A} (m : M Env A) (P P' : Event -> Prop) (Q Q' : A -> Prop) :
  run m P Q -> run m P' Q' ->
  run m (fun e => P e /\ P' e) (fun a => Q a /\ Q' a).
Proof.
  intros H1 H2 w r w' Hmw.
  destruct (H1 _ _ _ Hmw) as [[evs1 [Ht1 Hp1]] Hq1].
  destruct (H2 _ _ _ Hmw) as [[evs2 [Ht2 Hp2]] Hq2].
  rewrite Ht1 in Ht2. apply app_inv_head in Ht2. subst evs2. split.
  - exists evs1. split; [exact Ht1 |].
    rewrite Forall_forall in *. intros e He. split; auto.
  - intros a Ha. split; auto.
Qed.

(** *** Computations that never throw *)





Lemma safe_randomUUID HostMessage SleepCycleResult
    (rt : Runtime Env HostMessage SleepCycleResult) :
  safe (randomUUID rt).
Proof.
  intros w. unfold randomUUID.
  destruct (rt_randomUUID rt (env w)) as [i env']. now eexists _, _.
Qed.

End Rules.

End Logic.

(** ** Strings *)

Module StrFacts.

Import Str Props.

Lemma length_nonneg (s : jsstring) : (0 <= length s)%Z.
Proof. unfold length. lia. Qed.

(** [s.slice(0, n)] for [n >= 0] is the first [n] characters. *)
Lemma slice_0 (s : jsstring) (n : Z) :
  (0 <= n)%Z -> slice s 0 n = firstn (Z.to_nat n) s.
Proof.
  intros Hn. unfold slice, relative. cbv zeta.
  pose proof (length_nonneg s) as Hl.
  replace (0 <? 0)%Z with false by reflexivity.
  destruct (n <? 0)%Z eqn:Hlt; [apply Z.ltb_lt in Hlt; lia |].
  rewrite (Z.min_l 0 (length s)) by lia. cbn [Z.to_nat skipn].
  rewrite Z.sub_0_r.
  destruct (Z.le_ge_cases n (length s)) as [H | H].
  - now rewrite Z.min_l, Z.max_l by lia.
  - rewrite Z.min_r, Z.max_l by lia. unfold length in *.
    rewrite Nat2Z.id, !firstn_all2 by lia. reflexivity.
Qed.

Lemma firstn_is_prefix (n : nat) (s : jsstring) : is_prefix (firstn n s) s.
Proof. exists (skipn n s). now rewrite firstn_skipn. Qed.

Lemma is_prefix_trans (a b c : jsstring) :
  is_prefix a b -> is_prefix b c -> is_prefix a c.
Proof.
  intros [r1 ->] [r2 ->]. exists (r1 ++ r2)%list. now rewrite app_assoc.
Qed.

Lemma length_firstn_le (n : Z) (s : jsstring) :
  (0 <= n)%Z -> (length (firstn (Z.to_nat n) s) <= n)%Z.
Proof.
  intros Hn. unfold length. rewrite length_firstn. lia.
Qed.

(** Where [lastIndexOf] points, the searched string occurs. *)
Lemma lastIndexOf_from_spec (search s : jsstring) :
  forall i best,
    let p := lastIndexOf_from search s i best in
    p = best \/
    ((i <= p <= i + length s)%Z /\
     startsWith search (skipn (Z.to_nat (p - i)) s) = true).
Proof.
  induction s as [| c s' IH]; intros i best; cbn [lastIndexOf_from].
  - destruct (startsWith search []) eqn:Hs; [right | now left].
    unfold length; cbn [List.length]. split; [lia |].
    now rewrite Z.sub_diag.
  - specialize (IH (i + 1)%Z (if startsWith search (c :: s') then i else best)).
    cbv zeta in IH. destruct IH as [IH | [Hr Hs]].
    + rewrite IH. destruct (startsWith search (c :: s')) eqn:Hs; [right | now left].
      unfold length. cbn [List.length]. split; [lia |].
      now rewrite Z.sub_diag.
    + right. unfold length in *. cbn [List.length]. split; [lia |].
      set (p := lastIndexOf_from search s' (i + 1) _) in *.
      replace (Z.to_nat (p - i)) with (S (Z.to_nat (p - (i + 1)))) by lia.
      exact Hs.
Qed.

(** A non-negative [lastIndexOf] of a one-character string splits the
    string just before an occurrence of that character. *)
Lemma lastIndexOf_char (s : jsstring) (c : N) :
  let p := lastIndexOf s [c] in
  (0 <= p)%Z ->
  exists rest, s = (firstn (Z.to_nat p) s ++ c :: rest)%list.
Proof.
  intros p Hp. unfold lastIndexOf in p.
  destruct (lastIndexOf_from_spec [c] s 0 (-1)) as [H | [_ H]]; fold p in H.
  - lia.
  - rewrite Z.sub_0_r in H.
    destruct (skipn (Z.to_nat p) s) as [| d t'] eqn:Ht; [discriminate |].
    cbn [startsWith] in H. apply andb_prop in H as [H _].
    apply N.eqb_eq in H. subst d. exists t'.
    rewrite <- (firstn_skipn (Z.to_nat p) s) at 1. now rewrite Ht.
Qed.

(** [lastIndexOf] for one character: where the last occurrence is. *)
Lemma lastIndexOf_from_absent (c : N) (s : jsstring) :
  ~ In c s -> forall i best, lastIndexOf_from [c] s i best = best.
Proof.
  induction s as [| d s' IH]; intros Hn i best; cbn [lastIndexOf_from startsWith];
    [reflexivity |].
  destruct (N.eqb_spec c d) as [-> | Hcd]; [exfalso; apply Hn; now left |].
  cbn [andb]. apply IH. intros Hin. apply Hn. now right.
Qed.

Lemma lastIndexOf_from_last (c : N) (pre tail : jsstring) :
  ~ In c tail ->
  forall i best,
    lastIndexOf_from [c] (pre ++ c :: tail) i best = (i + length pre)%Z.
Proof.
  intros Hn. induction pre as [| d pre' IH]; intros i best;
    cbn [app lastIndexOf_from].
  - rewrite lastIndexOf_from_absent by exact Hn.
    cbn [startsWith]. rewrite N.eqb_refl. unfold length. cbn. lia.
  - rewrite IH. unfold length. cbn [List.length]. lia.
Qed.

Lemma lastIndexOf_last (c : N) (pre tail : jsstring) :
  ~ In c tail -> lastIndexOf (pre ++ c :: tail) [c] = length pre.
Proof.
  intros Hn. unfold lastIndexOf. now rewrite lastIndexOf_from_last.
Qed.

(** A string that holds [c] splits at its last [c]. *)
Lemma last_occurrence (c : N) (s : jsstring) :
  In c s -> exists pre tail, s = (pre ++ c :: tail)%list /\ ~ In c tail.
Proof.
  induction s as [| d s' IH]; intros Hin; [contradiction |].
  destruct (in_dec N.eq_dec c s') as [Hs | Hs].
  - destruct (IH Hs) as [pre [tail [-> Hn]]]. now exists (d :: pre), tail.
  - destruct Hin as [-> | Hin]; [| contradiction]. now exists [], s'.
Qed.

(** A non-negative [lastIndexOf] of a one-character string points at
    the last occurrence of the character. *)
Lemma lastIndexOf_char_last (s : jsstring) (c : N) :
  let p := lastIndexOf s [c] in
  (0 <= p)%Z ->
  exists tail, s = (firstn (Z.to_nat p) s ++ c :: tail)%list /\ ~ In c tail.
Proof.
  intros p Hp. destruct (in_dec N.eq_dec c s) as [Hin | Hout].
  - destruct (last_occurrence c s Hin) as [pre [tail [Hs Hn]]].
    assert (Hpre : p = length pre) by (unfold p; rewrite Hs; now apply lastIndexOf_last).
    exists tail. split; [| exact Hn].
    rewrite Hpre. unfold length. rewrite Nat2Z.id.
    rewrite Hs at 1. f_equal. rewrite Hs.
    rewrite firstn_app, Nat.sub_diag, firstn_all. cbn [firstn]. now rewrite app_nil_r.
  - unfold p, lastIndexOf in Hp. rewrite lastIndexOf_from_absent in Hp by exact Hout. lia.
Qed.

(** The split at the last space is unique. *)
Lemma last_space_unique (head pre pre' : jsstring) :
  last_space head pre -> last_space head pre' -> pre = pre'.
Proof.
  intros [tail [H Hn]] [tail' [H' Hn']].
  assert (Hl : length pre = length pre').
  { rewrite <- (lastIndexOf_last 32%N pre tail Hn),
            <- (lastIndexOf_last 32%N pre' tail' Hn').
    now rewrite <- H, <- H'. }
  unfold length in Hl. apply Nat2Z.inj in Hl.
  rewrite H in H'. apply (f_equal (firstn (List.length pre))) in H'.
  rewrite firstn_app, Nat.sub_diag, firstn_all in H'. cbn [firstn] in H'.
  rewrite app_nil_r in H'.
  rewrite Hl, firstn_app, Nat.sub_diag, firstn_all in H'. cbn [firstn] in H'.
  now rewrite app_nil_r in H'.
Qed.

End StrFacts.

(** ** Signs of numbers *)

Module SignFacts.

Import Num Props.

Lemma binary_round_aux_sign (sx : bool) (mx ex : Z) (lx : location) :
  has_sign sx (binary_round_aux prec emax sx mx ex lx).
Proof.
  unfold binary_round_aux.
  destruct (shr_fexp prec emax mx ex lx) as [mrs e'].
  destruct (shr_fexp prec emax _ e' loc_Exact) as [mrs'' e''].
  destruct (shr_m mrs''); cbn [has_sign]; try reflexivity.
  destruct (e'' <=? emax - prec)%Z; reflexivity.
Qed.

Lemma of_Z_sign (z : Z) : has_sign (z <? 0)%Z (of_Z z).
Proof.
  unfold of_Z, binary_normalize. destruct z as [| p | p]; try reflexivity;
    unfold binary_round;
    destruct (shl_align p 0 _) as [mz ez]; apply binary_round_aux_sign.
Qed.

Lemma mul_sign (sx sy : bool) (x y : number) :
  has_sign sx x -> has_sign sy y -> has_sign (xorb sx sy) (mul x y).
Proof.
  unfold mul.
  destruct x as [s1 | s1 | | s1 m1 e1], y as [s2 | s2 | | s2 m2 e2];
    cbn [has_sign SFmul]; intros H1 H2; subst; try exact I; try reflexivity.
  apply binary_round_aux_sign.
Qed.

Lemma not_below_negative (a b : number) :
  has_sign false b -> has_sign true a -> gt a b = false.
Proof.
  unfold gt, SFltb.
  destruct a as [s1 | s1 | | s1 m1 e1], b as [s2 | s2 | | s2 m2 e2];
    cbn [has_sign SFcompare]; intros H1 H2; subst; reflexivity.
Qed.

(** An index above [0.8 * maxChars] is not negative. *)
Lemma above_fraction_nonneg (l maxChars : Z) :
  (0 <= maxChars)%Z ->
  gt (of_Z l) (mul (of_Z maxChars) lit_0_8) = true -> (0 <= l)%Z.
Proof.
  intros Hm H. destruct (Z.ltb_spec l 0) as [Hl | Hl]; [| exact Hl].
  exfalso. rewrite not_below_negative in H; [discriminate | |].
  - change false with (xorb false false). apply mul_sign; [| reflexivity].
    replace false with (maxChars <? 0)%Z by (apply Z.ltb_ge; exact Hm).
    apply of_Z_sign.
  - replace true with (l <? 0)%Z by (apply Z.ltb_lt; exact Hl).
    apply of_Z_sign.
Qed.

End SignFacts.

(** ** Embeddings *)

Module EmbeddingsFacts.

Import Str Host Props Logic StrFacts Embeddings.

Section Facts.

Context {Env : Type} {HostMessage SleepCycleResult : Type}.
Variable rt : Runtime Env HostMessage SleepCycleResult.
Variable this : Embeddings.t.

Lemma log_debug_run (m : Message) (P : Event -> Prop) :
  P (EvLog debug m) -> run (log_debug (Env := Env) this m) P (fun _ => True).
Proof.
  intros Hp. unfold log_debug. destruct (logger this) as [l |].
  - destruct (has_debug l); [now apply run_emit | now apply run_ret].
  - now apply run_ret.
Qed.

Lemma log_warn_run (m : Message) (P : Event -> Prop) :
  P (EvLog warn m) -> run (log_warn (Env := Env) this m) P (fun _ => True).
Proof.
  intros Hp. unfold log_warn. destruct (logger this);
    [now apply run_emit | now apply run_ret].
Qed.


(** [truncateToContext] only logs. *)
Lemma truncateToContext_events (text : jsstring) (P : Event -> Prop) :
  (forall m, P (EvLog debug m)) ->
  run (truncateToContext (Env := Env) this text) P (fun _ => True).
Proof.
  intros Hp. unfold truncateToContext.
  destruct (length text <=? contextLength this * 3)%Z.
  - now apply run_ret.
  - eapply run_bind; [apply log_debug_run, Hp |].
    intros _ _. now apply run_ret.
Qed.


(** What it returns is a truncation of the text. *)
Lemma truncateToContext_result (text r : jsstring) (w w' : World Env) :
  (0 <= contextLength this)%Z ->
  truncateToContext this text w = (Ok r, w') ->
  truncation_of (contextLength this * 3) text r.
Proof.
  intros Hc. unfold truncateToContext.
  set (maxChars := (contextLength this * 3)%Z).
  assert (Hm : (0 <= maxChars)%Z) by (unfold maxChars; lia).
  destruct (Z.leb_spec (length text) maxChars) as [Hle | Hgt].
  - intros [= <- <-]. split; [| split; [| split]].
    + exists []. now rewrite app_nil_r.
    + exact Hle.
    + reflexivity.
    + lia.
  - change (js " ") with [32%N]. rewrite slice_0 by exact Hm.
    set (T := firstn (Z.to_nat maxChars) text).
    assert (HT : (length T <= maxChars)%Z) by (apply length_firstn_le, Hm).
    destruct (Num.gt (Num.of_Z (lastIndexOf T [32%N])) _) eqn:Hgtb.
    + pose proof (SignFacts.above_fraction_nonneg _ _ Hm Hgtb) as Hp.
      rewrite slice_0 by exact Hp.
      destruct (lastIndexOf_char_last T 32%N Hp) as [tail [Htail Hlast]].
      set (p := lastIndexOf T [32%N]) in *.
      assert (Hlen : length (firstn (Z.to_nat p) T) = p).
      { unfold length in *. rewrite length_firstn.
        apply (f_equal (@List.length N)) in Htail.
        rewrite length_app, length_firstn in Htail. cbn [List.length] in Htail.
        destruct (Nat.min_spec (Z.to_nat p) (List.length T)) as [[_ Hmin] | [_ Hmin]];
          rewrite Hmin in *; unfold codeunit in *; lia. }
      unfold bind. destruct (log_debug this _ w) as [[[] | err] w1];
        intros [= <- <-]; (split; [| split; [| split]]).
      * eapply is_prefix_trans; apply firstn_is_prefix.
      * rewrite Hlen. unfold length in *. rewrite length_firstn in Hlen. lia.
      * lia.
      * intros _. cbv zeta. fold T. left. split.
        -- exists tail. split; [exact Htail | exact Hlast].
        -- unfold beyond_80_percent. rewrite Hlen. exact Hgtb.
    + unfold bind. destruct (log_debug this _ w) as [[[] | err] w1];
        intros [= <- <-]; (split; [| split; [| split]]).
      * apply firstn_is_prefix.
      * exact HT.
      * lia.
      * intros _. cbv zeta. fold T. right. split; [reflexivity |].
        intros pre [tail [Hpre Hlast]]. unfold beyond_80_percent.
        rewrite <- (lastIndexOf_last 32%N pre tail Hlast), <- Hpre. exact Hgtb.
Qed.



(** *** The events of [embed] *)

Lemma embedOllama_run (input : jsstring) (P : Event -> Prop) :
  (forall url, P (EvFetchOllama url (model this) input)) ->
  run (embedOllama rt this input) P (fun _ => True).
Proof.
  intros Hp. unfold embedOllama.
  eapply run_bind; [apply run_call with (Q := fun _ => True); [apply Hp | trivial] |].
  intros response _. destruct (negb (resp_ok response)).
  - eapply run_bind; [apply run_lift with (Q := fun _ => True); trivial |].
    intros error _. apply run_throw.
  - eapply run_bind; [apply run_lift with (Q := fun _ => True); trivial |].
    intros [[| v l] |] _; (apply run_throw || now apply run_ret).
Qed.

Lemma embedOpenAI_run (input : jsstring) (P : Event -> Prop) :
  P (EvOpenAICreate (model this) (One input)) ->
  run (embedOpenAI rt this input) P (fun _ => True).
Proof.
  intros Hp. unfold embedOpenAI. destruct (negb (client this)).
  - apply run_throw.
  - eapply run_bind; [apply run_call with (Q := fun _ => True); [apply Hp | trivial] |].
    intros [| d l] _; (apply run_throw || now apply run_ret).
Qed.

Lemma embedBatchOpenAI_run (inputs : list jsstring) (P : Event -> Prop) :
  P (EvOpenAICreate (model this) (Many inputs)) ->
  run (embedBatchOpenAI rt this inputs) P (fun _ => True).
Proof.
  intros Hp. unfold embedBatchOpenAI. destruct (negb (client this)).
  - apply run_throw.
  - eapply run_bind; [apply run_call with (Q := fun _ => True); [apply Hp | trivial] |].
    intros data _. now apply run_ret.
Qed.

(** [embed]: whatever [T] holds of the truncated text holds of the
    text in the provider call. *)
Lemma embed_run (text : jsstring) (P : Event -> Prop) (T : jsstring -> Prop) :
  (forall m, P (EvLog debug m)) ->
  (forall (w : World Env) r w', truncateToContext this text w = (Ok r, w') -> T r) ->
  (forall r url, T r -> P (EvFetchOllama url (model this) r)) ->
  (forall r, T r -> P (EvOpenAICreate (model this) (One r))) ->
  run (embed rt this text) P (fun _ => True).
Proof.
  intros Hlog HT Ho Ha. unfold embed.
  eapply run_bind.
  - eapply run_result; [apply truncateToContext_events, Hlog | exact HT].
  - intros input Hin. destruct (is_ollama (provider this)).
    + apply embedOllama_run. intros url. now apply Ho.
    + apply embedOpenAI_run. now apply Ha.
Qed.

(** [embed] calls the provider and logs; it does nothing else. *)
Lemma embed_events (text : jsstring) :
  run (embed rt this text) provider_or_log (fun _ => True).
Proof.
  apply embed_run with (T := fun _ => True); intros; exact I.
Qed.

(** *** [embedBatch] *)

Lemma mapM_truncate_run (texts : list jsstring) (P : Event -> Prop) :
  (forall m, P (EvLog debug m)) ->
  run (mapM (truncateToContext (Env := Env) this) texts) P
    (fun rs =>
       List.length rs = List.length texts /\
       ((0 <= contextLength this)%Z ->
        Forall2 (truncation_of (contextLength this * 3)) texts rs)).
Proof.
  intros Hlog. induction texts as [| t texts IH]; cbn [mapM].
  - apply run_ret. split; [reflexivity | constructor].
  - eapply run_bind.
    + eapply run_result with (Q' := fun r =>
        (0 <= contextLength this)%Z -> truncation_of (contextLength this * 3) t r);
        [apply truncateToContext_events, Hlog |].
      intros w r w' Hr Hc. eapply truncateToContext_result; eauto.
    + intros r Hr. eapply run_bind; [exact IH |].
      intros rs [Hlen Hrs]. apply run_ret. split.
      * cbn [List.length]. now rewrite Hlen.
      * intros Hc. constructor; auto.
Qed.



Lemma allSettled_run {A} (ms : list (M Env A)) (P : Event -> Prop) :
  Forall (fun m => run m P (fun _ => True)) ms ->
  run (allSettled ms) P (fun _ => True).
Proof.
  induction 1 as [| m ms Hm _ IH]; cbn [allSettled].
  - now apply run_ret.
  - intros w r w'. destruct (m w) as [r1 w1] eqn:Hmw. intros Hrest.
    destruct (Hm _ _ _ Hmw) as [[evs1 [Ht1 Hp1]] _].
    assert (Hk : run (rs <- allSettled ms ;; ret (r1 :: rs))%monad P (fun _ => True)).
    { eapply run_bind; [exact IH |]. intros rs _. now apply run_ret. }
    destruct (Hk _ _ _ Hrest) as [[evs2 [Ht2 Hp2]] _].
    split; [| trivial]. exists (evs1 ++ evs2)%list. split.
    + now rewrite Ht2, Ht1, app_assoc.
    + now apply Forall_app.
Qed.


Lemma collect_run (results : list (Outcome vector)) (P : Event -> Prop) :
  (forall m, P (EvLog warn m)) ->
  forall i embeddings failures,
    run (collect (Env := Env) this results i embeddings failures) P (fun _ => True).
Proof.
  intros Hp. induction results as [| [v | reason] rest IH];
    intros i embeddings failures; cbn [collect].
  - now apply run_ret.
  - apply IH.
  - eapply run_bind; [apply log_warn_run, Hp |]. intros _ _. apply IH.
Qed.

(** The provider calls of [embedBatch] carry truncations of the texts. *)
Lemma embedBatch_transmits (texts : list jsstring) :
  (0 <= contextLength this)%Z ->
  run (embedBatch rt this texts) (transmits (contextLength this * 3) texts)
    (fun _ => True).
Proof.
  intros Hc. unfold embedBatch. destruct texts as [| t0 texts0] eqn:Htexts.
  - now apply run_ret.
  - rewrite <- Htexts. clear Htexts t0 texts0.
    eapply run_bind; [apply mapM_truncate_run; intros; exact I |].
    intros rs [Hlen Hrs]. specialize (Hrs Hc).
    destruct (is_ollama (provider this)).
    + eapply run_bind.
      * apply allSettled_run. rewrite Forall_forall. intros m Hm.
        apply in_map_iff in Hm as [r [<- Hr]].
        apply embedOllama_run. intros url. cbn [transmits].
        clear Hlen. induction Hrs as [| t r' ts rs' Htr _ IH]; [contradiction |].
        destruct Hr as [-> | Hr].
        -- exists t. split; [now left | exact Htr].
        -- destruct (IH Hr) as [t' [Hin Ht']]. exists t'. split; [now right | exact Ht'].
      * intros results _. eapply run_bind; [apply collect_run; intros; exact I |].
        intros [embeddings failures] _.
        eapply run_bind.
        -- destruct (failures >? 0)%Z;
             [apply log_warn_run; exact I | now apply run_ret].
        -- intros _ _. now apply run_ret.
    + apply embedBatchOpenAI_run. exact Hrs.
Qed.

(** The provider call of [embed] carries a truncation of the text. *)
Lemma embed_transmits (text : jsstring) :
  (0 <= contextLength this)%Z ->
  run (embed rt this text) (transmits (contextLength this * 3) [text])
    (fun _ => True).
Proof.
  intros Hc.
  apply embed_run with (T := truncation_of (contextLength this * 3) text).
  - intros; exact I.
  - intros w r w' Hr. eapply truncateToContext_result; eauto.
  - intros r url Hr. exists text. split; [now left | exact Hr].
  - intros r Hr. exists text. split; [now left | exact Hr].
Qed.

End Facts.

End EmbeddingsFacts.

(** ** The memory tools *)

Module ToolFacts.

Import Str Host Props Logic Plugin.

Lemma no_storeMemory_among (P : Event -> Prop) (evs : list Event) :
  (forall e, P e -> is_storeMemory e = false) ->
  Forall P evs -> filter is_storeMemory evs = [].
Proof.
  intros Hp. induction 1 as [| e evs He _ IH]; [reflexivity |].
  cbn [filter]. now rewrite (Hp e He).
Qed.

Lemma no_deleteMemory_among (P : Event -> Prop) (evs : list Event) :
  (forall e, P e -> is_deleteMemory e = false) ->
  Forall P evs -> filter is_deleteMemory evs = [].
Proof.
  intros Hp. induction 1 as [| e evs He _ IH]; [reflexivity |].
  cbn [filter]. now rewrite (Hp e He).
Qed.

Lemma provider_or_log_not_store (e : Event) :
  provider_or_log e -> is_storeMemory e = false.
Proof. destruct e; cbn; intros H; (reflexivity || contradiction). Qed.

Lemma provider_or_log_not_delete (e : Event) :
  provider_or_log e -> is_deleteMemory e = false.
Proof. destruct e; cbn; intros H; (reflexivity || contradiction). Qed.

Section Facts.

Context {Env : Type} {HostMessage SleepCycleResult : Type}.
Variable rt : Runtime Env HostMessage SleepCycleResult.
Variable embeddings : Embeddings.t.
Variable extraction_enabled : bool.

(** [embed] writes nothing to the store and deletes nothing. *)
Lemma embed_keeps_store (text : jsstring) (w w1 : World Env) (r : Outcome vector) :
  Embeddings.embed rt embeddings text w = (r, w1) ->
  filter is_storeMemory (trace w1) = filter is_storeMemory (trace w) /\
  filter is_deleteMemory (trace w1) = filter is_deleteMemory (trace w).
Proof.
  intros H.
  destruct (EmbeddingsFacts.embed_events rt embeddings text _ _ _ H)
    as [[evs [Ht Hp]] _].
  rewrite Ht, !filter_app.
  rewrite (no_storeMemory_among _ _ provider_or_log_not_store Hp).
  rewrite (no_deleteMemory_among _ _ provider_or_log_not_delete Hp).
  now rewrite !app_nil_r.
Qed.

Lemma findSimilar_trace (v : vector) (threshold : Num.number) (limit : Z)
    (w w' : World Env) (r : Outcome (list Similar)) :
  findSimilar rt v threshold limit w = (r, w') ->
  trace w' = (trace w ++ [EvFindSimilar v threshold limit])%list.
Proof.
  unfold findSimilar, call. destruct (db_findSimilar rt v threshold limit (env w)).
  now intros [= <- <-].
Qed.

Lemma vectorSearch_trace (v : vector) (limit : Z) (minScore : Num.number)
    (w w' : World Env) (r : Outcome (list Hit)) :
  vectorSearch rt v limit minScore w = (r, w') ->
  trace w' = (trace w ++ [EvVectorSearch v limit minScore])%list.
Proof.
  unfold vectorSearch, call. destruct (db_vectorSearch rt v limit minScore (env w)).
  now intros [= <- <-].
Qed.

(** C1.  A call of [memory_store] whose embedding and similarity search
    (threshold 0.95, limit 1) return: if the search found a memory, the
    outcome is [duplicate] with the id and text of the first one found and
    the call writes nothing; otherwise the call asks [randomUUID] for an
    identifier, hands the store exactly one memory, with that identifier,
    and when the store accepts it the outcome is [created] with that
    identifier (when the store throws, so does the call). *)
Theorem memory_store_outcome (ctx : ToolContext) (params : StoreParams)
    (w w1 w2 : World Env) (v : vector) (existing : list Similar) :
  Embeddings.embed rt embeddings (sp_text params) w = (Ok v, w1) ->
  findSimilar rt v Num.lit_0_95 1 w1 = (Ok existing, w2) ->
  match existing with
  | e0 :: _ =>
      (exists text,
         memory_store rt embeddings extraction_enabled ctx params w =
           (Ok {| content := text; details := duplicate (sim_id e0) (sim_text e0) |}, w2)) /\
      filter is_storeMemory (trace w2) = filter is_storeMemory (trace w)
  | [] =>
      exists i env3 r w4,
        rt_randomUUID rt (env w2) = (i, env3) /\
        memory_store rt embeddings extraction_enabled ctx params w = (r, w4) /\
        filter is_storeMemory (trace w4) =
          (filter is_storeMemory (trace w)
           ++ [EvStoreMemory (written extraction_enabled ctx params v i)])%list /\
        match db_storeMemory rt (written extraction_enabled ctx params v i) env3 with
        | (Ok _, _) => exists text, r = Ok {| content := text; details := created i |}
        | (Throw err, _) => r = Throw err
        end
  end.
Proof.
  intros Hembed Hfind.
  assert (Hkeep : filter is_storeMemory (trace w2) = filter is_storeMemory (trace w)).
  { rewrite (findSimilar_trace _ _ _ _ _ _ Hfind), filter_app.
    cbn [filter is_storeMemory]. rewrite app_nil_r.
    apply (embed_keeps_store _ _ _ _ Hembed). }
  unfold memory_store, bind. rewrite Hembed, Hfind.
  destruct existing as [| e0 rest].
  - unfold randomUUID. destruct (rt_randomUUID rt (env w2)) as [i env3] eqn:Hid.
    unfold storeMemory, call, written, clamp, extractionStatus. cbn [env trace].
    destruct (db_storeMemory rt _ env3) as [[[] | err] env4] eqn:Hstore.
    + eexists i, env3, _, _. repeat split.
      * cbn [trace]. rewrite !filter_app. cbn [filter is_storeMemory].
        now rewrite app_nil_r, Hkeep.
      * rewrite Hstore. eexists. reflexivity.
    + eexists i, env3, _, _. repeat split.
      * cbn [trace]. rewrite !filter_app. cbn [filter is_storeMemory].
        now rewrite app_nil_r, Hkeep.
      * now rewrite Hstore.
  - split; [| exact Hkeep]. eexists. reflexivity.
Qed.

(** C8.  Whatever importance [x] a call of [memory_store] is given (the
    default is 0.7), a memory it hands to the store has the importance
    [Math.min(1, Math.max(0, x))]; for every [x] that is a number (not
    NaN), below 0 and above 1 included, that lies in [0, 1]. *)
Theorem memory_store_importance (ctx : ToolContext) (params : StoreParams) :
  Num.isNaN (default (sp_importance params) Num.lit_0_7) = false ->
  run (memory_store rt embeddings extraction_enabled ctx params)
    (fun e => forall m, e = EvStoreMemory m ->
       sm_importance m =
         Num.Math_min Num.lit_1
           (Num.Math_max Num.lit_0 (default (sp_importance params) Num.lit_0_7)) /\
       Num.in_unit_interval (sm_importance m) = true)
    (fun _ => True).
Proof.
  intros Hx. unfold memory_store.
  eapply run_bind.
  - eapply run_weaken; [apply EmbeddingsFacts.embed_events | | intros; exact I].
    intros e He m ->. contradiction He.
  - intros v _. eapply run_bind.
    + apply run_call with (Q := fun _ => True); [discriminate | trivial].
    + intros [| e0 rest] _; [| now apply run_ret].
      eapply run_bind;
        [apply run_randomUUID with (Q := fun _ => True); [discriminate | trivial] |].
      intros i _. eapply run_bind; [| intros; now apply run_ret].
      apply run_call with (Q := fun _ => True); [| trivial].
      intros m [= <-]. cbn [sm_importance]. split; [reflexivity |].
      now apply NumFacts.clamp_in_unit_interval.
Qed.

(** C9.  [memory_forget]: given a memory id, one [deleteMemory] call and
    the outcome [deleted] or [not_found] as the store reports; given only
    a query, the memory found is deleted, with the outcome [deleted],
    exactly when the vector search returns one result with a score above
    0.9, and otherwise the candidates (or the zero-found outcome) are
    returned and nothing is deleted; given neither, the missing-parameter
    outcome, the world untouched. *)
Theorem memory_forget_outcome (params : ForgetParams) (w : World Env) :
  match fp_memoryId params with
  | Some (c :: s) =>
      forall b w',
        deleteMemory rt (c :: s) w = (Ok b, w') ->
        exists text,
          memory_forget rt embeddings params w =
            (Ok {| content := text;
                   details := if b then deleted (c :: s) else not_found (c :: s) |}, w')
  | _ =>
      match fp_query params with
      | Some (c :: s) =>
          forall v w1 results w2,
            Embeddings.embed rt embeddings (c :: s) w = (Ok v, w1) ->
            vectorSearch rt v 5 Num.lit_0_7 w1 = (Ok results, w2) ->
            if single_confident results then
              exists r0, results = [r0] /\
                forall b w3,
                  deleteMemory rt (hit_id r0) w2 = (Ok b, w3) ->
                  exists text,
                    memory_forget rt embeddings params w =
                      (Ok {| content := text; details := deleted (hit_id r0) |}, w3)
            else
              (exists text,
                 memory_forget rt embeddings params w =
                   (Ok {| content := text;
                          details := match results with
                                     | [] => found_0
                                     | _ :: _ => candidates results
                                     end |}, w2)) /\
              filter is_deleteMemory (trace w2) = filter is_deleteMemory (trace w)
      | _ =>
          exists text,
            memory_forget rt embeddings params w =
              (Ok {| content := text; details := missing_param |}, w)
      end
  end.
Proof.
  unfold memory_forget.
  destruct (fp_memoryId params) as [[| c s] |].
  2: { intros b w' Hdel. unfold bind. rewrite Hdel.
       destruct b; cbn [negb]; eexists; reflexivity. }
  all: destruct (fp_query params) as [[| c s] |]; try (eexists; reflexivity).
  all: intros v w1 results w2 Hembed Hsearch; unfold bind;
    rewrite Hembed, Hsearch.
  all: destruct results as [| r0 [| r1 rest]]; cbn [single_confident].
  all: try (split; [eexists; reflexivity |];
            rewrite (vectorSearch_trace _ _ _ _ _ _ Hsearch), filter_app;
            cbn [filter is_deleteMemory]; rewrite app_nil_r;
            apply (embed_keeps_store _ _ _ _ Hembed)).
  all: destruct (Num.gt (hit_score r0) Num.lit_0_9) eqn:Hscore; cbn [andb].
  all: try (exists r0; split; [reflexivity |]; intros b w3 Hdel;
            rewrite Hdel; eexists; reflexivity).
  all: split; [eexists; reflexivity |];
    rewrite (vectorSearch_trace _ _ _ _ _ _ Hsearch), filter_app;
    cbn [filter is_deleteMemory]; rewrite app_nil_r;
    apply (embed_keeps_store _ _ _ _ Hembed).
Qed.

End Facts.

End ToolFacts.

(** ** The auto-capture hook *)

Module HookFacts.

Import Str Host Props Logic Plugin.

Section Facts.

Context {Env : Type} {HostMessage SleepCycleResult : Type}.
Variable Emoji : N -> bool.
Variable rt : Runtime Env HostMessage SleepCycleResult.
Variable embeddings : Embeddings.t.
Variables (extraction_enabled logger_debug : bool).

Lemma api_debug_run (m : Message) (P : Event -> Prop) :
  P (EvLog debug m) -> run (api_debug (Env := Env) logger_debug m) P (fun _ => True).
Proof.
  intros Hp. unfold api_debug.
  destruct logger_debug; [now apply run_emit | now apply run_ret].
Qed.


Lemma in_unit_interval_not_nan (x : Num.number) :
  Num.in_unit_interval x = true -> Num.isNaN x = false.
Proof. destruct x; (reflexivity || discriminate). Qed.

Lemma embed_run_any (text : jsstring) (P : Event -> Prop) :
  (forall e, provider_or_log e -> P e) ->
  run (Embeddings.embed rt embeddings text) P (fun _ => True).
Proof.
  intros Hp. eapply run_weaken; [apply EmbeddingsFacts.embed_events | exact Hp | trivial].
Qed.

Lemma provider_or_log_auto_captured (e : Event) : provider_or_log e -> auto_captured e.
Proof. intros He m ->. contradiction He. Qed.

Section Item.

Variables (agentId : jsstring) (sessionKey : option jsstring).

(** What one user message may add to the store. *)
Lemma capture_user_run (text : jsstring) (stored : Z) :
  run (capture_user rt embeddings extraction_enabled agentId sessionKey text stored)
    auto_captured (fun _ => True).
Proof.
  unfold capture_user.
  eapply run_bind; [apply embed_run_any, provider_or_log_auto_captured |].
  intros v _. eapply run_bind.
  - apply run_call with (Q := fun _ => True); [intros m; discriminate | trivial].
  - intros [| e0 rest] _; [| now apply run_ret].
    eapply run_bind.
    + apply run_call with (Q := fun _ => True); [intros m; discriminate | trivial].
    + intros importance _. eapply run_bind.
      * apply run_randomUUID with (Q := fun _ => True); [intros i m; discriminate | trivial].
      * intros i _. eapply run_bind; [| intros; now apply run_ret].
        apply run_call with (Q := fun _ => True); [| trivial].
        intros m [= <-]. exact I.
Qed.

(** What one assistant message may add to the store, when the rater
    keeps its contract: a score in [0, 1]. *)
Lemma capture_assistant_run (text : jsstring) (stored : Z) :
  (forall t en env x env',
     rt_rateImportance rt t en env = (Ok x, env') -> Num.in_unit_interval x = true) ->
  run (capture_assistant rt embeddings extraction_enabled agentId sessionKey text stored)
    auto_captured (fun _ => True).
Proof.
  intros Hrate. unfold capture_assistant.
  eapply run_bind.
  - apply run_call with (Q := fun x => Num.in_unit_interval x = true);
      [intros m; discriminate |].
    intros env x env' Hx. eapply Hrate, Hx.
  - intros importance Hin. destruct (Num.lt importance Num.lit_0_7) eqn:Hlt;
      [now apply run_ret |].
    eapply run_bind; [apply embed_run_any, provider_or_log_auto_captured |].
    intros v _. eapply run_bind.
    + apply run_call with (Q := fun _ => True); [intros m; discriminate | trivial].
    + intros [| e0 rest] _; [| now apply run_ret].
      eapply run_bind.
      * apply run_randomUUID with (Q := fun _ => True);
          [intros i m; discriminate | trivial].
      * intros i _. eapply run_bind; [| intros; now apply run_ret].
        apply run_call with (Q := fun _ => True); [| trivial].
        intros m [= <-]. cbn [sm_source sm_importance sm_category]. split; [| reflexivity].
        apply NumFacts.min_cap; [now apply in_unit_interval_not_nan | exact Hlt].
Qed.

Lemma user_loop_run (retained : list jsstring) :
  forall stored,
    run (user_loop rt embeddings extraction_enabled logger_debug agentId sessionKey
           retained stored)
      auto_captured (fun _ => True).
Proof.
  induction retained as [| text rest IH]; intros stored; cbn [user_loop].
  - now apply run_ret.
  - eapply run_bind; [| intros s _; apply IH].
    apply run_try_catch; [apply capture_user_run |].
    intros err. eapply run_bind; [| intros; now apply run_ret].
    apply api_debug_run. intros m; discriminate.
Qed.

Lemma assistant_loop_run (retained : list jsstring) :
  (forall t en env x env',
     rt_rateImportance rt t en env = (Ok x, env') -> Num.in_unit_interval x = true) ->
  forall stored,
    run (assistant_loop rt embeddings extraction_enabled logger_debug agentId sessionKey
           retained stored)
      auto_captured (fun _ => True).
Proof.
  intros Hrate. induction retained as [| text rest IH]; intros stored;
    cbn [assistant_loop].
  - now apply run_ret.
  - eapply run_bind; [| intros s _; apply IH].
    apply run_try_catch; [now apply capture_assistant_run |].
    intros err. eapply run_bind; [| intros; now apply run_ret].
    apply api_debug_run. intros m; discriminate.
Qed.





End Item.

Lemma capture_all_run (agentId : jsstring) (sessionKey : option jsstring)
    (messages : list HostMessage) :
  (forall t en env x env',
     rt_rateImportance rt t en env = (Ok x, env') -> Num.in_unit_interval x = true) ->
  run (capture_all Emoji rt embeddings extraction_enabled logger_debug agentId sessionKey
         messages)
    auto_captured (fun _ => True).
Proof.
  intros Hrate. unfold capture_all.
  eapply run_bind; [apply run_lift with (Q := fun _ => True); trivial |].
  intros userMessages _. eapply run_bind; [apply user_loop_run |].
  intros stored _.
  eapply run_bind; [apply run_lift with (Q := fun _ => True); trivial |].
  intros assistantMessages _.
  eapply run_bind; [now apply assistant_loop_run |].
  intros stored' _. unfold api_info.
  destruct (stored' >? 0)%Z; [apply run_emit; [intros m; discriminate | exact I] |].
  destruct (_ || _)%bool; [apply run_emit; [intros m; discriminate | exact I] |].
  now apply run_ret.
Qed.

(** C10.  When the importance rater keeps its contract (a score in
    [0, 1]), every memory the auto-capture hook stores for an assistant
    message has the importance 0.4 exactly, the category "other" and the
    source "auto-capture-assistant" (the hook's other memories have the
    source "auto-capture"); and an assistant message rated below 0.7 is
    dropped right after the rating: nothing is embedded, searched or
    stored for it. *)
Theorem assistant_capture_importance :
  (forall t en env x env',
     rt_rateImportance rt t en env = (Ok x, env') -> Num.in_unit_interval x = true) ->
  (forall event ctx,
     run (agent_end Emoji rt embeddings extraction_enabled logger_debug event ctx)
       auto_captured (fun _ => True)) /\
  (forall agentId sessionKey text stored (w w1 : World Env) x,
     rateImportance rt extraction_enabled text w = (Ok x, w1) ->
     Num.lt x Num.lit_0_7 = true ->
     capture_assistant rt embeddings extraction_enabled agentId sessionKey text stored w =
       (Ok stored, w1)).
Proof.
  intros Hrate. split.
  - intros event ctx. unfold agent_end.
    eapply run_bind; [apply api_debug_run; intros m; discriminate |].
    intros _ _. destruct (ev_messages event) as [[| m ms] |];
      try (apply api_debug_run; intros m'; discriminate).
    destruct (negb (ev_success event));
      [apply api_debug_run; intros m'; discriminate |].
    apply run_try_catch; [now apply capture_all_run |].
    intros err. unfold api_warn. apply run_emit; [intros m'; discriminate | exact I].
  - intros agentId sessionKey text stored w w1 x Hx Hlt.
    unfold capture_assistant, bind. now rewrite Hx, Hlt.
Qed.


End Facts.

End HookFacts.

(** ** The sleep command *)

Module SleepFacts.

Import Str Host Props Logic Plugin.

Lemma parseFloat_abc : Parse.parseFloat (js "abc") = Num.NaN.
Proof. reflexivity. Qed.

Section Facts.

Context {Env : Type} {HostMessage SleepCycleResult : Type}.
Variable rt : Runtime Env HostMessage SleepCycleResult.

Lemma reject_run (msg : string) (P : Event -> Prop) :
  (forall m, P (EvConsoleError m)) -> (forall c, P (EvExitCode c)) ->
  run (reject (Env := Env) msg) P (fun _ => True).
Proof.
  intros H1 H2. unfold reject.
  eapply run_bind; [apply run_emit with (Q := fun _ => True); [apply H1 | exact I] |].
  intros _ _. apply run_emit; [apply H2 | exact I].
Qed.

(** The store is initialised and the sleep cycle run only when the
    six validated options are accepted. *)
Lemma sleep_validates_before_io (opts : SleepOpts) :
  run (sleep_action rt opts)
    (fun e => is_store_io e = true -> accepted opts = true) (fun _ => True).
Proof.
  unfold sleep_action, accepted.
  eapply run_bind; [apply run_emit with (Q := fun _ => True); [discriminate | exact I] |].
  intros _ _. apply run_try_catch.
  2: { intros err. eapply run_bind;
         [apply run_emit with (Q := fun _ => True); [discriminate | exact I] |].
       intros _ _. apply run_emit; [discriminate | exact I]. }
  repeat match goal with
         | |- run (if ?c then _ else _) _ _ =>
             destruct c; [apply reject_run; intros; discriminate |]
         end.
  cbn [negb andb].
  eapply run_bind; [apply run_call with (Q := fun _ => True); trivial |].
  intros _ _. eapply run_bind; [apply run_call with (Q := fun _ => True); trivial |].
  intros result _.
  eapply run_bind; [apply run_emit with (Q := fun _ => True); [discriminate | exact I] |].
  intros _ _. destruct (rt_aborted rt result);
    [apply run_emit; [discriminate | exact I] | now apply run_ret].
Qed.

(** C4.  [memory sleep --dedup-threshold abc]: the dedup threshold is
    not among the options the command validates.  The store is
    initialised, and when that succeeds the sleep cycle is run with the
    threshold NaN. *)
Theorem sleep_dedup_threshold_unchecked (w : World Env) :
  exists r w' evs,
    sleep_action rt Sample.dedup_abc w = (r, w') /\
    trace w' = (trace w ++ EvConsoleLog MsgSleepBanner :: EvEnsureInitialized :: evs)%list /\
    (forall env1, db_ensureInitialized rt (env w) = (Ok tt, env1) ->
       exists opts evs',
         evs = EvRunSleepCycle opts :: evs' /\ so_dedupThreshold opts = Some Num.NaN).
Proof.
  unfold sleep_action, Sample.dedup_abc.
  change (js "abc") with [97%N; 98%N; 99%N].
  cbn [parse_opt rejected o_batchSize o_delay o_decayHalfLife o_decayThreshold
       o_pareto o_promotionMinAge o_dedupThreshold o_agent].
  change (Parse.parseFloat [97%N; 98%N; 99%N]) with Num.NaN.
  unfold bind, emit, try_catch, ensureInitialized, runSleepCycle, call, ret.
  cbn [env trace].
  destruct (db_ensureInitialized rt (env w)) as [[[] | err] env1] eqn:Hinit;
    cbn [env trace].
  - match goal with
    | |- context [rt_runSleepCycle rt ?o env1] =>
        destruct (rt_runSleepCycle rt o env1) as [[result | err] env2] eqn:Hrun
    end.
    + destruct (rt_aborted rt result); cbn [env trace];
        eexists _, _, _; (split; [reflexivity |]); (split;
          [rewrite <- !app_assoc; cbn [app]; reflexivity |]);
        intros env1' _; eexists _, _; split; reflexivity.
    + cbn [env trace]. eexists _, _, _. split; [reflexivity |]. split.
      * rewrite <- !app_assoc. cbn [app]. reflexivity.
      * intros env1' _. eexists _, _. split; reflexivity.
  - cbn [env trace]. eexists _, _, _. split; [reflexivity |]. split.
    + rewrite <- !app_assoc. cbn [app]. reflexivity.
    + intros env1' [=].
Qed.

End Facts.

End SleepFacts.

(** ** What goes to the embedding provider, and what comes back *)

Module EmbeddingsTheorems.

Import Str Host Props Logic Embeddings EmbeddingsFacts.

Lemma insert_by_index_perm (d : Datum) (l : list Datum) :
  Permutation (d :: l) (insert_by_index d l).
Proof.
  induction l as [| x l IH]; cbn [insert_by_index]; [reflexivity |].
  destruct (index d <=? index x)%Z; [reflexivity |].
  rewrite perm_swap. now constructor.
Qed.

Lemma insert_by_index_sorted (d : Datum) (l : list Datum) :
  Sorted index_le l -> Sorted index_le (insert_by_index d l).
Proof.
  induction 1 as [| x l Hs IH Hhd]; cbn [insert_by_index].
  - repeat constructor.
  - destruct (Z.leb_spec (index d) (index x)) as [Hle | Hgt].
    + constructor; [now constructor | now constructor].
    + constructor; [exact IH |].
      destruct l as [| y l']; cbn [insert_by_index].
      * constructor. unfold index_le. lia.
      * destruct (Z.leb_spec (index d) (index y)); constructor.
        -- unfold index_le. lia.
        -- now inversion Hhd.
Qed.

(** [toSorted] lists the same data in ascending index order. *)
Lemma toSorted_by_index_spec (l : list Datum) :
  Sorted index_le (toSorted_by_index l) /\ Permutation l (toSorted_by_index l).
Proof.
  unfold toSorted_by_index. induction l as [| d l [IHs IHp]]; cbn [fold_right].
  - split; constructor.
  - split; [now apply insert_by_index_sorted |].
    rewrite <- insert_by_index_perm. now constructor.
Qed.

(** A prefix followed by a space in the text ends at a word boundary. *)
Lemma before_space_is_boundary (text r rest : jsstring) :
  text = (r ++ 32%N :: rest)%list -> ends_at_word_boundary text r = true.
Proof.
  intros ->. unfold ends_at_word_boundary.
  rewrite skipn_app, skipn_all, Nat.sub_diag. reflexivity.
Qed.

Section Theorems.

Context {Env : Type} {HostMessage SleepCycleResult : Type}.
Variable rt : Runtime Env HostMessage SleepCycleResult.
Variable this : Embeddings.t.

(** An object the constructor returns has a client exactly when its
    provider is OpenAI, and then it has an API key. *)
Lemma new_client (apiKey model : option jsstring) (p : option EmbeddingProvider)
    (baseUrl : option jsstring) (logger : option Logger) :
  Embeddings.new rt apiKey model p baseUrl logger = Ok this ->
  client this = negb (is_ollama (provider this)) /\
  (provider this = openai -> truthy (Embeddings.apiKey this) = true).
Proof.
  unfold Embeddings.new. destruct p as [[|] |].
  - destruct (truthy apiKey) eqn:Hk; cbn [negb]; [| discriminate].
    intros [= <-]. cbn. now split.
  - intros [= <-]. cbn. split; [reflexivity | discriminate].
  - destruct (truthy apiKey) eqn:Hk; cbn [negb]; [| discriminate].
    intros [= <-]. cbn. now split.
Qed.

(** C6, as amended.  For a model with a context length that is not
    negative, every text that [embed] and [embedBatch] hand to the
    provider is the truncation of an input text: a prefix of at most
    [contextLength * 3] characters, the text itself when that fits.
    Otherwise, when the last space among the first [contextLength * 3]
    characters lies beyond 80% of that limit, it is the text up to that
    space, and so ends at a word boundary; it is the first
    [contextLength * 3] characters, which may end inside a word, only when
    there is no such space.  This fixes the transmitted text: a text has
    one truncation. *)
Theorem provider_input_is_truncation (text : jsstring) (texts : list jsstring) :
  (0 <= contextLength this)%Z ->
  run (embed rt this text) (transmits (contextLength this * 3) [text]) (fun _ => True) /\
  run (embedBatch rt this texts) (transmits (contextLength this * 3) texts)
    (fun _ => True) /\
  (forall t r,
     truncation_of (contextLength this * 3) t r ->
     (forall r', truncation_of (contextLength this * 3) t r' -> r' = r) /\
     (r = t \/
      ends_at_word_boundary t r = true \/
      r = firstn (Z.to_nat (contextLength this * 3)) t /\
      forall pre,
        last_space r pre ->
        beyond_80_percent (contextLength this * 3) (length pre) = false)).
Proof.
  intros Hc. split; [now apply embed_transmits |].
  split; [now apply embedBatch_transmits |].
  intros t r [_ [_ [Hfit Hcut]]].
  destruct (Z.leb_spec (length t) (contextLength this * 3)) as [Hle | Hgt].
  - split; [| left; now apply Hfit].
    intros r' [_ [_ [Hfit' _]]]. now rewrite (Hfit Hle), (Hfit' Hle).
  - specialize (Hcut Hgt). cbv zeta in Hcut. split.
    + intros r' [_ [_ [_ Hcut']]]. specialize (Hcut' Hgt). cbv zeta in Hcut'.
      destruct Hcut as [[Hr Hb] | [Hr Hno]], Hcut' as [[Hr' Hb'] | [Hr' Hno']].
      * exact (StrFacts.last_space_unique _ _ _ Hr' Hr).
      * rewrite (Hno' _ Hr) in Hb. discriminate.
      * rewrite (Hno _ Hr') in Hb'. discriminate.
      * now rewrite Hr, Hr'.
    + right. destruct Hcut as [[[tail [Hr _]] _] | [Hr Hno]].
      * left.
        apply (before_space_is_boundary t r
                 (tail ++ skipn (Z.to_nat (contextLength this * 3)) t)%list).
        rewrite <- (firstn_skipn (Z.to_nat (contextLength this * 3)) t) at 1.
        rewrite Hr, <- app_assoc. reflexivity.
      * right. split; [exact Hr |]. now rewrite Hr.
Qed.


End Theorems.

End EmbeddingsTheorems.

(** ** Regular expressions: the Emoji table matters only where it is read *)

Module RegExpExt.

Import Str RegExp Props.

Lemma is_suffix_refl (s : list N) : is_suffix s s.
Proof. now exists []. Qed.

Lemma is_suffix_tail (c : N) (s : list N) : is_suffix s (c :: s).
Proof. now exists [c]. Qed.

Lemma is_suffix_trans (a b c : list N) : is_suffix a b -> is_suffix b c -> is_suffix a c.
Proof. intros [p ->] [q ->]. exists (q ++ p)%list. now rewrite app_assoc. Qed.

Section Ext.

Variables E1 E2 : N -> bool.
Variables ic u : bool.

Lemma agree_suffix (t s : list N) : is_suffix t s -> agree E1 E2 s -> agree E1 E2 t.
Proof. intros [p ->] H. now apply Forall_app in H. Qed.

Lemma item_matches_ext (it : citem) (c : N) :
  agree_at E1 E2 c -> item_matches E1 ic it c = item_matches E2 ic it c.
Proof.
  intros [H1 [H2 H3]]. unfold item_matches, item_has.
  destruct it; try reflexivity. now rewrite H1, H2, H3.
Qed.

Lemma step_ext (p1 p2 : N -> bool) :
  (forall c, agree_at E1 E2 c -> p1 c = p2 c) ->
  forall i s k1 k2,
    agree E1 E2 s -> (forall j t, is_suffix t s -> k1 j t = k2 j t) ->
    step u p1 i s k1 = step u p2 i s k2.
Proof.
  intros Hp i s k1 k2 Hs Hk. unfold step. destruct s as [| c s']; [reflexivity |].
  inversion Hs as [| ? ? Hc Hs']; subst. rewrite (Hp c Hc).
  destruct (p2 c); [apply Hk, is_suffix_tail | reflexivity].
Qed.

Lemma repeatMatcher_ext (fuel : nat) (m1 m2 : matcher) :
  (forall i s k1 k2,
     agree E1 E2 s -> (forall j t, is_suffix t s -> k1 j t = k2 j t) ->
     m1 i s k1 = m2 i s k2) ->
  forall min max greedy i s k1 k2,
    agree E1 E2 s -> (forall j t, is_suffix t s -> k1 j t = k2 j t) ->
    repeatMatcher fuel m1 min max greedy i s k1 =
    repeatMatcher fuel m2 min max greedy i s k2.
Proof.
  intros Hm. induction fuel as [| fuel IH]; intros min max greedy i s k1 k2 Hs Hk;
    cbn [repeatMatcher]; [reflexivity |].
  assert (Hd : forall j t, is_suffix t s ->
            (if (Nat.eqb min 0 && Nat.eqb j i)%bool then None
             else repeatMatcher fuel m1 (Nat.pred min) (option_map Nat.pred max)
                    greedy j t k1) =
            (if (Nat.eqb min 0 && Nat.eqb j i)%bool then None
             else repeatMatcher fuel m2 (Nat.pred min) (option_map Nat.pred max)
                    greedy j t k2)).
  { intros j t Hsuf. destruct (_ && _)%bool; [reflexivity |].
    apply IH; [eapply agree_suffix; eauto |].
    intros j' t' Hsuf'. apply Hk. eapply is_suffix_trans; eauto. }
  pose proof (Hk i s (is_suffix_refl s)) as Hk0.
  destruct max as [[| n] |]; [exact Hk0 | |];
    cbv zeta; rewrite (Hm i s _ _ Hs Hd), Hk0; reflexivity.
Qed.

Lemma rmatch_ext (r : regex) :
  forall i s k1 k2,
    agree E1 E2 s -> (forall j t, is_suffix t s -> k1 j t = k2 j t) ->
    rmatch E1 ic u r i s k1 = rmatch E2 ic u r i s k2.
Proof.
  induction r as [| a | | items | r1 IH1 r2 IH2 | r1 IH1 r2 IH2
                 | r IH min max greedy | |];
    intros i s k1 k2 Hs Hk; cbn [rmatch].
  - apply Hk, is_suffix_refl.
  - apply step_ext; auto.
  - apply step_ext; auto.
  - apply step_ext; auto. intros c Hc. induction items as [| it items IHi];
      cbn [existsb]; [reflexivity |].
    now rewrite (item_matches_ext it c Hc), IHi.
  - apply IH1; [exact Hs |]. intros j t Hsuf.
    apply IH2; [eapply agree_suffix; eauto |].
    intros j' t' Hsuf'. apply Hk. eapply is_suffix_trans; eauto.
  - now rewrite (IH1 i s k1 k2 Hs Hk), (IH2 i s k1 k2 Hs Hk).
  - apply repeatMatcher_ext; auto.
  - destruct (Nat.eqb i 0); [apply Hk, is_suffix_refl | reflexivity].
  - destruct s; [apply Hk, is_suffix_refl | reflexivity].
Qed.

Lemma rmatch_ext_end (r : regex) (i : nat) (s : list N) :
  agree E1 E2 s ->
  rmatch E1 ic u r i s (fun e _ => Some e) = rmatch E2 ic u r i s (fun e _ => Some e).
Proof. intros Hs. apply rmatch_ext; [exact Hs | reflexivity]. Qed.

Lemma search_ext (r : regex) (from : nat) (s : list N) :
  forall i, agree E1 E2 s ->
    search E1 ic u r from i s = search E2 ic u r from i s.
Proof.
  induction s as [| c s' IH]; intros i Hs; cbn [search];
    rewrite (rmatch_ext_end r i _ Hs); [reflexivity |].
  destruct (if Nat.leb from i then _ else _); [reflexivity |].
  apply IH. now inversion Hs.
Qed.

End Ext.

Section ExtExec.

Variables E1 E2 : N -> bool.

Lemma exec_ext (re : RegExp) (s : jsstring) :
  agree E1 E2 (input re s) -> exec E1 re s = exec E2 re s.
Proof.
  intros Hs. unfold exec. now rewrite (search_ext E1 E2 _ _ _ _ _ _ Hs).
Qed.

Lemma test_ext (re : RegExp) (s : jsstring) :
  agree E1 E2 (input re s) -> test E1 re s = test E2 re s.
Proof. intros Hs. unfold test. now rewrite (exec_ext re s Hs). Qed.

Lemma input_agree (re : RegExp) (s : jsstring) :
  agree E1 E2 s -> agree E1 E2 (codePoints s) -> agree E1 E2 (input re s).
Proof. intros H1 H2. unfold input. now destruct (unicode re). Qed.

Lemma some_test_ext (patterns : list RegExp) (s : jsstring) :
  agree E1 E2 s -> agree E1 E2 (codePoints s) ->
  Gate.some_test E1 patterns s = Gate.some_test E2 patterns s.
Proof.
  intros H1 H2. induction patterns as [| re rest IH]; cbn [Gate.some_test];
    [reflexivity |].
  now rewrite (test_ext re s (input_agree re s H1 H2)), IH.
Qed.

Lemma match_loop_ext (fuel : nat) (s : jsstring) :
  agree E1 E2 s -> agree E1 E2 (codePoints s) ->
  forall re, match_loop E1 fuel re s = match_loop E2 fuel re s.
Proof.
  intros H1 H2. induction fuel as [| fuel IH]; intros re; cbn [match_loop];
    [reflexivity |].
  rewrite (exec_ext re s (input_agree re s H1 H2)).
  destruct (exec E2 re s) as [[[b e] |] re']; [| reflexivity].
  now rewrite IH.
Qed.

Lemma split_loop_ext (re : RegExp) (whole : jsstring) (s : list N) :
  agree E1 E2 s ->
  forall q p skip,
    split_loop E1 re whole s q p skip = split_loop E2 re whole s q p skip.
Proof.
  induction s as [| c s' IH]; intros Hs q p skip; cbn [split_loop]; [reflexivity |].
  assert (Hs' : agree E1 E2 s') by now inversion Hs.
  destruct skip as [| n]; [| now apply IH].
  rewrite (rmatch_ext_end E1 E2 _ _ _ q _ Hs).
  destruct (rmatch E2 _ _ _ _ _ _) as [e |]; [| now apply IH].
  rewrite !(IH Hs'). reflexivity.
Qed.

Lemma split_ext (s : jsstring) (re : RegExp) :
  agree E1 E2 s -> split E1 s re = split E2 s re.
Proof.
  intros Hs. unfold split. destruct s as [| c s'].
  - now rewrite (rmatch_ext_end E1 E2 _ _ _ 0 [] Hs).
  - now apply split_loop_ext.
Qed.

(** The verdict of the user gate depends on the Emoji table only at the
    characters of the trimmed text. *)
Lemma passesAttentionGate_ext (text : jsstring) (patterns : list RegExp) :
  agree E1 E2 (trim text) -> agree E1 E2 (codePoints (trim text)) ->
  Gate.passesAttentionGate E1 text patterns = Gate.passesAttentionGate E2 text patterns.
Proof.
  intros H1 H2. unfold Gate.passesAttentionGate, match_g.
  rewrite (split_ext _ _ H1), (some_test_ext _ _ H1 H2), (match_loop_ext _ _ H1 H2).
  reflexivity.
Qed.

(** Tables that agree on ASCII agree on an ASCII text. *)
Lemma ascii_agree (s : list N) :
  (forall c, (c < 128)%N -> E1 c = E2 c) ->
  forallb (fun c => (c <? 128)%N) s = true -> agree E1 E2 s.
Proof.
  intros HE Hs. unfold agree. rewrite Forall_forall. rewrite forallb_forall in Hs.
  intros c Hc. specialize (Hs c Hc). apply N.ltb_lt in Hs.
  unfold agree_at, upper, lower, in_range. repeat split; [now apply HE | |].
  - destruct (_ && _)%bool; apply HE; lia.
  - destruct (N.leb 65 c && N.leb c 90)%bool eqn:Hr; apply HE; [| lia].
    apply andb_prop in Hr as [_ Hr]. apply N.leb_le in Hr. lia.
Qed.

End ExtExec.

End RegExpExt.

(** ** The attention gate: state, termination, examples *)

Module GateFacts.

Import Str RegExp Props.

Section Purity.

Variable Emoji : N -> bool.

(** [exec] on a pattern without the [g] flag: [lastIndex] is neither
    read nor written. *)
Lemma exec_non_global (p q : RegExp) (s : jsstring) :
  same_pattern p q -> global q = false ->
  exec Emoji p s = (fst (exec Emoji q s), p).
Proof.
  intros [Hsrc [Hic [Hg Hu]]] Hq. unfold exec, input.
  rewrite Hsrc, Hic, Hg, Hu, Hq.
  replace (length s <? 0)%Z with false
    by (symmetry; apply Z.ltb_ge; apply StrFacts.length_nonneg).
  destruct (search _ _ _ _ _ _ _) as [[b e] |]; reflexivity.
Qed.

Lemma test_non_global (p q : RegExp) (s : jsstring) :
  same_pattern p q -> global q = false ->
  test Emoji p s = (fst (test Emoji q s), p).
Proof.
  intros Hpq Hq. unfold test.
  rewrite (exec_non_global p q s Hpq Hq).
  destruct (exec Emoji q s) as [[m |] q']; reflexivity.
Qed.

(** [patterns.some(...)] over patterns without the [g] flag leaves the
    array as it was; its verdict does not depend on any [lastIndex]. *)
Lemma some_test_pure (ps qs : list RegExp) (s : jsstring) :
  same_patterns ps qs -> Forall (fun q => global q = false) qs ->
  Gate.some_test Emoji ps s = (fst (Gate.some_test Emoji qs s), ps).
Proof.
  induction 1 as [| p q ps qs Hpq _ IH]; intros Hg; cbn [Gate.some_test];
    [reflexivity |].
  inversion Hg as [| ? ? Hq Hg']; subst.
  rewrite (test_non_global p q s Hpq Hq).
  destruct (test Emoji q s) as [b q']. cbn [fst].
  destruct b; [reflexivity |].
  rewrite (IH Hg'). destruct (Gate.some_test Emoji qs s) as [b' qs']. reflexivity.
Qed.

Lemma NOISE_PATTERNS_non_global :
  Forall (fun q => global q = false) Gate.NOISE_PATTERNS.
Proof. repeat constructor. Qed.

Lemma same_patterns_refl (ps : list RegExp) : same_patterns ps ps.
Proof. induction ps; constructor; [repeat split | assumption]. Qed.

(** The user gate leaves the pattern array as it is, and its verdict is
    the one computed on the array as loaded. *)
Lemma passesAttentionGate_state (text : jsstring) (ps : list RegExp) :
  same_patterns ps Gate.NOISE_PATTERNS ->
  Gate.passesAttentionGate Emoji text ps =
    (fst (Gate.passesAttentionGate Emoji text Gate.NOISE_PATTERNS), ps).
Proof.
  intros Hps. unfold Gate.passesAttentionGate.
  destruct (_ || _)%bool; [reflexivity |].
  destruct (_ <? _)%Z; [reflexivity |].
  destruct (_ || _)%bool; [reflexivity |].
  rewrite (some_test_pure ps _ _ Hps NOISE_PATTERNS_non_global).
  rewrite (some_test_pure Gate.NOISE_PATTERNS _ _
             (same_patterns_refl _) NOISE_PATTERNS_non_global).
  cbn [fst]. destruct (fst (Gate.some_test Emoji Gate.NOISE_PATTERNS (trim text)));
    [reflexivity |].
  destruct (_ >? _)%Z; reflexivity.
Qed.

End Purity.

(** *** The code-fence loop ends *)

Section Progress.

Variable Emoji : N -> bool.
Variable ic : bool.

(** Without the [u] flag, a match ends where the continuation was
    called, at or after its start and inside the input. *)
Lemma repeatMatcher_advances (fuel : nat) (m : matcher) :
  (forall i s k e,
     m i s k = Some e ->
     exists j t, k j t = Some e /\ i <= j /\ j + List.length t = i + List.length s) ->
  forall min max greedy i s k e,
    repeatMatcher fuel m min max greedy i s k = Some e ->
    exists j t, k j t = Some e /\ i <= j /\ j + List.length t = i + List.length s.
Proof.
  intros Hm. induction fuel as [| fuel IH]; intros min max greedy i s k e;
    cbn [repeatMatcher]; [discriminate |].
  assert (Hd : forall e',
            m i s (fun j t =>
                     if (Nat.eqb min 0 && Nat.eqb j i)%bool then None
                     else repeatMatcher fuel m (Nat.pred min) (option_map Nat.pred max)
                            greedy j t k) = Some e' ->
            exists j t, k j t = Some e' /\ i <= j /\
                        j + List.length t = i + List.length s).
  { intros e' He'. destruct (Hm _ _ _ _ He') as [j1 [t1 [Hd1 [Hle1 Hlen1]]]].
    destruct (_ && _)%bool; [discriminate |].
    destruct (IH _ _ _ _ _ _ _ Hd1) as [j [t [Hk [Hle Hlen]]]].
    exists j, t. repeat split; [exact Hk | lia | lia]. }
  assert (Hk0 : k i s = Some e ->
            exists j t, k j t = Some e /\ i <= j /\
                        j + List.length t = i + List.length s).
  { intros Hk. exists i, s. repeat split; [exact Hk | lia]. }
  destruct max as [[| n] |]; [exact Hk0 | |]; cbv zeta;
    (destruct (negb (Nat.eqb min 0)); [apply Hd |]);
    (destruct greedy;
     [destruct (m i s _) as [e' |] eqn:Hme;
        [intros [= <-]; now apply Hd | exact Hk0]
     | destruct (k i s) as [e' |] eqn:Hke;
        [intros [= <-]; now apply Hk0 | apply Hd]]).
Qed.

Lemma rmatch_advances (r : regex) :
  forall i s k e,
    rmatch Emoji ic false r i s k = Some e ->
    exists j t, k j t = Some e /\ i <= j /\ j + List.length t = i + List.length s.
Proof.
  assert (Hstep : forall p i s k e,
            step false p i s k = Some e ->
            exists j t, k j t = Some e /\ i < j /\
                        j + List.length t = i + List.length s).
  { intros p i s k e. unfold step. destruct s as [| c s']; [discriminate |].
    destruct (p c); [| discriminate]. cbn [width andb]. intros Hk.
    exists (i + 1), s'. repeat split; [exact Hk | lia | cbn [List.length]; lia]. }
  induction r as [| a | | items | r1 IH1 r2 IH2 | r1 IH1 r2 IH2
                 | r IH min max greedy | |];
    intros i s k e; cbn [rmatch].
  - intros Hk. exists i, s. repeat split; [exact Hk | lia].
  - intros H. destruct (Hstep _ _ _ _ _ H) as [j [t [Hk [Hlt Hlen]]]].
    exists j, t. repeat split; [exact Hk | lia | exact Hlen].
  - intros H. destruct (Hstep _ _ _ _ _ H) as [j [t [Hk [Hlt Hlen]]]].
    exists j, t. repeat split; [exact Hk | lia | exact Hlen].
  - intros H. destruct (Hstep _ _ _ _ _ H) as [j [t [Hk [Hlt Hlen]]]].
    exists j, t. repeat split; [exact Hk | lia | exact Hlen].
  - intros H. destruct (IH1 _ _ _ _ H) as [j1 [t1 [H2 [Hle1 Hlen1]]]].
    destruct (IH2 _ _ _ _ H2) as [j [t [Hk [Hle Hlen]]]].
    exists j, t. repeat split; [exact Hk | lia | lia].
  - destruct (rmatch Emoji ic false r1 i s k) as [e1 |] eqn:H1.
    + intros [= <-]. now apply IH1.
    + apply IH2.
  - apply repeatMatcher_advances. exact IH.
  - destruct (Nat.eqb i 0); [| discriminate].
    intros Hk. exists i, s. repeat split; [exact Hk | lia].
  - destruct s; [| discriminate].
    intros Hk. exists i, []. repeat split; [exact Hk | lia].
Qed.

(** A pattern that starts with a literal character matches at least
    one character. *)
Lemma rmatch_char_first (a : N) (r1 r2 : regex) (i : nat) (s : list N) (e : nat) :
  rmatch Emoji ic false (Seq (Seq (Char a) r1) r2) i s (fun e _ => Some e) = Some e ->
  i < e <= i + List.length s.
Proof.
  cbn [rmatch]. unfold step. destruct s as [| c s']; [discriminate |].
  destruct (char_matches ic a c); [| discriminate]. cbn [width andb]. intros H.
  destruct (rmatch_advances _ _ _ _ _ H) as [j1 [t1 [H2 [Hle1 Hlen1]]]].
  destruct (rmatch_advances _ _ _ _ _ H2) as [j [t [Hk [Hle Hlen]]]].
  injection Hk as <-. cbn [List.length] in *. lia.
Qed.

Lemma search_bounds (r : regex) (from : nat) :
  (forall i s e,
     rmatch Emoji ic false r i s (fun e _ => Some e) = Some e ->
     i < e <= i + List.length s) ->
  forall s i b e,
    search Emoji ic false r from i s = Some (b, e) ->
    from <= b /\ b < e /\ e <= i + List.length s.
Proof.
  intros Hr. induction s as [| c s' IH]; intros i b e; cbn [search].
  - destruct (Nat.leb_spec from i) as [Hle | Hgt].
    + destruct (rmatch _ _ _ _ _ _ _) as [e' |] eqn:Hm; [| discriminate].
      intros [= <- <-]. pose proof (Hr _ _ _ Hm). lia.
    + discriminate.
  - destruct (Nat.leb_spec from i) as [Hle | Hgt].
    + destruct (rmatch _ _ _ _ _ _ _) as [e' |] eqn:Hm.
      * intros [= <- <-]. pose proof (Hr _ _ _ Hm). lia.
      * intros H. apply IH in H. cbn [width andb List.length] in *. lia.
    + intros H. apply IH in H. cbn [width andb List.length] in *. lia.
Qed.

End Progress.

Section Total.

Variable Emoji : N -> bool.

Lemma codeBlockRegex_bounds (i : nat) (s : list N) (e : nat) :
  rmatch Emoji false false (source Gate.codeBlockRegex) i s (fun e _ => Some e) = Some e ->
  i < e <= i + List.length s.
Proof. apply rmatch_char_first. Qed.

(** The loop over the code fences ends within [length s + 1] calls of
    [exec]: every match moves [lastIndex] forward. *)
Lemma codeChars_loop_total (s : jsstring) :
  forall fuel (L : nat) acc,
    L <= List.length s -> List.length s + 1 <= fuel + L ->
    Gate.codeChars_loop Emoji fuel (set_lastIndex Gate.codeBlockRegex (Z.of_nat L)) s acc
      <> None.
Proof.
  induction fuel as [| fuel IH]; intros L acc HL Hfuel; [lia |].
  cbn [Gate.codeChars_loop]. unfold exec, input.
  cbn [global unicode ignoreCase source lastIndex set_lastIndex Gate.codeBlockRegex literal].
  rewrite Z.max_l by lia.
  replace (length s <? Z.of_nat L)%Z with false
    by (symmetry; apply Z.ltb_ge; unfold length; lia).
  rewrite Nat2Z.id.
  destruct (search Emoji false false _ L 0 s) as [[b e] |] eqn:Hsearch;
    [| discriminate].
  apply (search_bounds Emoji false _ L (codeBlockRegex_bounds)) in Hsearch.
  apply (IH e); unfold jsstring, codeunit in *; lia.
Qed.

(** The assistant gate returns; it leaves the pattern array as it is,
    and its verdict is the one computed on the array as loaded. *)
Lemma passesAssistantAttentionGate_state (text : jsstring) (ps : list RegExp) :
  same_patterns ps Gate.NOISE_PATTERNS ->
  exists b,
    Gate.passesAssistantAttentionGate Emoji text Gate.NOISE_PATTERNS =
      Some (b, Gate.NOISE_PATTERNS) /\
    Gate.passesAssistantAttentionGate Emoji text ps = Some (b, ps).
Proof.
  intros Hps. unfold Gate.passesAssistantAttentionGate.
  destruct (_ || _)%bool; [now exists false |].
  destruct (_ <? _)%Z; [now exists false |].
  destruct (Gate.codeChars_loop Emoji _ Gate.codeBlockRegex (trim text) 0)
    as [codeChars |] eqn:Hloop.
  2: { exfalso. revert Hloop.
       apply (codeChars_loop_total (trim text) _ 0 0%Z); lia. }
  destruct (Num.gt _ _); [now exists false |].
  destruct (_ || _)%bool; [now exists false |].
  destruct (_ || _)%bool; [now exists false |].
  rewrite (some_test_pure Emoji ps _ _ Hps (NOISE_PATTERNS_non_global)).
  rewrite (some_test_pure Emoji Gate.NOISE_PATTERNS _ _
             (same_patterns_refl _) (NOISE_PATTERNS_non_global)).
  cbn [fst]. destruct (fst (Gate.some_test Emoji Gate.NOISE_PATTERNS (trim text)));
    [now exists false |].
  destruct (_ >? _)%Z; [now exists false | now exists true].
Qed.

End Total.

End GateFacts.

(** ** The attention gate: the claims *)

Module GateTheorems.

Import Str RegExp Props GateFacts RegExpExt.

(** C7.  The attention gate is a function of the text and the role: for
    each text and role there is one verdict, which the gate returns in
    every state of the module's pattern objects (whatever their
    [lastIndex]), leaving these objects as they are.  So two evaluations
    give the same boolean, and evaluating again changes nothing.  The gate
    always returns.  It takes and gives back the text and the pattern
    objects only: it has no access to the world, hence no I/O. *)
Theorem gate_is_pure (Emoji : N -> bool) (role : Role) (text : jsstring) :
  exists b,
    forall ps,
      same_patterns ps Gate.NOISE_PATTERNS ->
      gate Emoji role text ps = Some (b, ps).
Proof.
  destruct role; cbn [gate].
  - exists (fst (Gate.passesAttentionGate Emoji text Gate.NOISE_PATTERNS)).
    intros ps Hps. now rewrite (passesAttentionGate_state Emoji text ps Hps).
  - destruct (passesAssistantAttentionGate_state Emoji text Gate.NOISE_PATTERNS
                (same_patterns_refl _)) as [b [Hb _]].
    exists b. intros ps Hps.
    destruct (passesAssistantAttentionGate_state Emoji text ps Hps) as [b' [Hb' Hps']].
    rewrite Hb in Hb'. injection Hb' as <-. exact Hps'.
Qed.

Lemma long_text_is_ascii :
  forallb (fun c => (c <? 128)%N) (trim Sample.long_text) = true /\
  forallb (fun c => (c <? 128)%N) (codePoints (trim Sample.long_text)) = true.
Proof. split; vm_compute; reflexivity. Qed.

(** C3.  With an Emoji table that is right on ASCII, the user gate
    rejects "hi", which matches a noise pattern (the greetings) and is
    below the length floor, and accepts the sentence about migrating the
    database: its trimmed length is within the floor and the ceiling, it
    has at least five words, and it matches no noise pattern. *)
Theorem gate_examples (Emoji : N -> bool) :
  (forall c, (c < 128)%N -> Emoji c = Emoji_ascii c) ->
  fst (Gate.passesAttentionGate Emoji (js "hi") Gate.NOISE_PATTERNS) = false /\
  fst (Gate.some_test Emoji Gate.NOISE_PATTERNS (trim (js "hi"))) = true /\
  fst (Gate.passesAttentionGate Emoji Sample.long_text Gate.NOISE_PATTERNS) = true /\
  (Gate.MIN_CAPTURE_CHARS <= length (trim Sample.long_text) <= Gate.MAX_CAPTURE_CHARS)%Z /\
  (Gate.MIN_WORD_COUNT <=
     Z.of_nat (List.length (split Emoji (trim Sample.long_text) Gate.whitespace_run)))%Z /\
  fst (Gate.some_test Emoji Gate.NOISE_PATTERNS (trim Sample.long_text)) = false.
Proof.
  intros HE0. destruct long_text_is_ascii as [H1 H2].
  assert (HE : forall c, (c < 128)%N -> Emoji c = Sample.Emoji c).
  { intros c Hc. rewrite (HE0 c Hc). unfold Sample.Emoji, in_range.
    replace (N.leb 127744 c) with false by (symmetry; apply N.leb_gt; lia).
    now rewrite orb_false_r. }
  pose proof (ascii_agree Emoji Sample.Emoji _ HE H1) as A1.
  pose proof (ascii_agree Emoji Sample.Emoji _ HE H2) as A2.
  assert (Hhi : agree Emoji Sample.Emoji (trim (js "hi")) /\
                agree Emoji Sample.Emoji (codePoints (trim (js "hi")))).
  { split; apply ascii_agree; try exact HE; vm_compute; reflexivity. }
  destruct Hhi as [B1 B2].
  rewrite (passesAttentionGate_ext Emoji Sample.Emoji (js "hi") _ B1 B2).
  rewrite (some_test_ext Emoji Sample.Emoji _ _ B1 B2).
  rewrite (passesAttentionGate_ext Emoji Sample.Emoji Sample.long_text _ A1 A2).
  rewrite (split_ext Emoji Sample.Emoji _ _ A1).
  rewrite (some_test_ext Emoji Sample.Emoji _ _ A1 A2).
  repeat split; vm_compute; (reflexivity || discriminate).
Qed.

End GateTheorems.

(** ** The theorems at work on the sample runtime *)

Module Instances.

Import Str Host Props Logic Plugin Sample.
Open Scope string_scope.

(** [memory_store] in an empty store: the memory is created. *)
Lemma memory_store_outcome_witness :
  let v := embedding_of long_text in
  let w1 := snd (Embeddings.embed runtime ollama_embeddings long_text world0) in
  let w2 := snd (findSimilar runtime v Num.lit_0_95 1 w1) in
  Embeddings.embed runtime ollama_embeddings (sp_text store_params) world0 = (Ok v, w1) /\
  findSimilar runtime v Num.lit_0_95 1 w1 = (Ok [], w2) /\
  exists i env3 r w4,
    rt_randomUUID runtime (env w2) = (i, env3) /\
    memory_store runtime ollama_embeddings true ctx0 store_params world0 = (r, w4) /\
    filter is_storeMemory (trace w4) =
      (filter is_storeMemory (trace world0)
       ++ [EvStoreMemory (written true ctx0 store_params v i)])%list /\
    match db_storeMemory runtime (written true ctx0 store_params v i) env3 with
    | (Ok _, _) => exists text, r = Ok {| content := text; details := created i |}
    | (Throw err, _) => r = Throw err
    end.
Proof.
  cbv zeta.
  assert (H1 : Embeddings.embed runtime ollama_embeddings (sp_text store_params) world0 =
               (Ok (embedding_of long_text),
                snd (Embeddings.embed runtime ollama_embeddings long_text world0)))
    by (vm_compute; reflexivity).
  assert (H2 : findSimilar runtime (embedding_of long_text) Num.lit_0_95 1
                 (snd (Embeddings.embed runtime ollama_embeddings long_text world0)) =
               (Ok [],
                snd (findSimilar runtime (embedding_of long_text) Num.lit_0_95 1
                       (snd (Embeddings.embed runtime ollama_embeddings long_text world0)))))
    by (vm_compute; reflexivity).
  split; [exact H1 |]. split; [exact H2 |].
  exact (ToolFacts.memory_store_outcome runtime ollama_embeddings true ctx0 store_params
           world0 _ _ _ [] H1 H2).
Defined.

(** An importance of 5 is stored as 1. *)
Lemma memory_store_importance_witness :
  Num.isNaN (default (sp_importance store_params) Num.lit_0_7) = false /\
  run (memory_store runtime ollama_embeddings true ctx0 store_params)
    (fun e => forall m, e = EvStoreMemory m ->
       sm_importance m =
         Num.Math_min Num.lit_1
           (Num.Math_max Num.lit_0 (default (sp_importance store_params) Num.lit_0_7)) /\
       Num.in_unit_interval (sm_importance m) = true)
    (fun _ => True).
Proof.
  split; [reflexivity |].
  exact (ToolFacts.memory_store_importance runtime ollama_embeddings true ctx0
           store_params eq_refl).
Defined.

(** [memory_forget] by the id of the stored memory. *)
Lemma memory_forget_outcome_witness :
  let w' := snd (deleteMemory runtime (js "id-0") world_stored) in
  deleteMemory runtime (js "id-0") world_stored = (Ok true, w') /\
  exists text,
    memory_forget runtime ollama_embeddings
      {| fp_query := None; fp_memoryId := Some (js "id-0") |} world_stored =
      (Ok {| content := text; details := deleted (js "id-0") |}, w').
Proof.
  cbv zeta.
  assert (H : deleteMemory runtime (js "id-0") world_stored =
              (Ok true, snd (deleteMemory runtime (js "id-0") world_stored)))
    by (vm_compute; reflexivity).
  split; [exact H |].
  exact (ToolFacts.memory_forget_outcome runtime ollama_embeddings
           {| fp_query := None; fp_memoryId := Some (js "id-0") |} world_stored
           true _ H).
Defined.

(** The sample rater keeps its contract. *)
Lemma assistant_capture_importance_witness :
  (forall t en env x env',
     rt_rateImportance runtime t en env = (Ok x, env') ->
     Num.in_unit_interval x = true) /\
  ((forall event ctx,
      run (agent_end Sample.Emoji runtime ollama_embeddings true true event ctx)
        auto_captured (fun _ => True)) /\
   (forall agentId sessionKey text stored (w w1 : World Env) x,
      rateImportance runtime true text w = (Ok x, w1) ->
      Num.lt x Num.lit_0_7 = true ->
      capture_assistant runtime ollama_embeddings true agentId sessionKey text stored w =
        (Ok stored, w1))).
Proof.
  assert (H : forall t en env x env',
            rt_rateImportance runtime t en env = (Ok x, env') ->
            Num.in_unit_interval x = true)
    by (intros t en env x env' [= <- _]; reflexivity).
  split; [exact H |].
  exact (HookFacts.assistant_capture_importance Sample.Emoji runtime ollama_embeddings
           true true H).
Defined.

(** A model with a five-token context and a text of eighteen
    characters whose last space among the first fifteen is the fourteenth
    character: the text goes out cut at that space, and its first fifteen
    characters are not a truncation of it. *)
Lemma provider_input_is_truncation_witness :
  (0 <= Embeddings.contextLength small_embeddings)%Z /\
  trace (snd (Embeddings.embed runtime small_embeddings two_words world0)) =
    [EvFetchOllama (js "http://localhost:11434/api/embed") (js "small")
       (js "aaaaaaaaaaaaa")] /\
  ~ truncation_of (Embeddings.contextLength small_embeddings * 3) two_words
      (firstn 15 two_words) /\
  (run (Embeddings.embed runtime small_embeddings two_words)
     (transmits (Embeddings.contextLength small_embeddings * 3) [two_words])
     (fun _ => True) /\
   run (Embeddings.embedBatch runtime small_embeddings [two_words; js "x"])
     (transmits (Embeddings.contextLength small_embeddings * 3) [two_words; js "x"])
     (fun _ => True) /\
   (forall t r,
      truncation_of (Embeddings.contextLength small_embeddings * 3) t r ->
      (forall r',
         truncation_of (Embeddings.contextLength small_embeddings * 3) t r' -> r' = r) /\
      (r = t \/
       ends_at_word_boundary t r = true \/
       r = firstn (Z.to_nat (Embeddings.contextLength small_embeddings * 3)) t /\
       forall pre,
         last_space r pre ->
         beyond_80_percent (Embeddings.contextLength small_embeddings * 3) (length pre)
           = false))).
Proof.
  assert (H : (0 <= Embeddings.contextLength small_embeddings)%Z)
    by (vm_compute; discriminate).
  pose proof (EmbeddingsTheorems.provider_input_is_truncation runtime small_embeddings
                two_words [two_words; js "x"] H) as T.
  split; [exact H |].
  split; [vm_compute; reflexivity |].
  split; [| exact T].
  intros Hcut. destruct T as [_ [_ T]].
  assert (Hspace : truncation_of (Embeddings.contextLength small_embeddings * 3)
                     two_words (js "aaaaaaaaaaaaa")).
  { apply (EmbeddingsFacts.truncateToContext_result (Env := Env) small_embeddings
             two_words (js "aaaaaaaaaaaaa") world0 world0 H).
    vm_compute. reflexivity. }
  destruct (T _ _ Hspace) as [Hone _]. specialize (Hone _ Hcut).
  vm_compute in Hone. discriminate.
Defined.


(** The gate with the ASCII table alone. *)
Lemma gate_examples_witness :
  (forall c, (c < 128)%N -> RegExp.Emoji_ascii c = RegExp.Emoji_ascii c) /\
  (fst (Gate.passesAttentionGate Sample.Emoji (js "hi") Gate.NOISE_PATTERNS) = false /\
   fst (Gate.some_test Sample.Emoji Gate.NOISE_PATTERNS (trim (js "hi"))) = true /\
   fst (Gate.passesAttentionGate Sample.Emoji long_text Gate.NOISE_PATTERNS) = true /\
   (Gate.MIN_CAPTURE_CHARS <= length (trim long_text) <= Gate.MAX_CAPTURE_CHARS)%Z /\
   (Gate.MIN_WORD_COUNT <=
      Z.of_nat (List.length (RegExp.split RegExp.Emoji_ascii (trim long_text)
                               Gate.whitespace_run)))%Z /\
   fst (Gate.some_test RegExp.Emoji_ascii Gate.NOISE_PATTERNS (trim long_text)) = false).
Proof.
  split; [intros c _; reflexivity |].
  exact (GateTheorems.gate_examples RegExp.Emoji_ascii (fun c _ => eq_refl)).
Defined.


(** Against C6 as stated: with a limit of three characters the text
    "abcd" is truncated, "abc" goes to the provider, and the cut is in the
    middle of a word. *)
Lemma truncation_cuts_mid_word :
  trace (snd (Embeddings.embed runtime tiny_embeddings (js "abcd") world0)) =
    [EvFetchOllama (js "http://localhost:11434/api/embed") (js "tiny") (js "abc")] /\
  js "abc" <> js "abcd" /\
  ends_at_word_boundary (js "abcd") (js "abc") = false.
Proof. repeat split; vm_compute; (reflexivity || discriminate). Qed.

(** *** End to end *)

(** Storing the same text twice: the second call reports a duplicate of
    the first memory and the store still holds one memory. *)
Example store_twice_is_duplicate :
  let r := memory_store runtime ollama_embeddings true ctx0 store_params world_stored in
  (exists text,
     fst r = Ok {| content := text; details := duplicate (js "id-0") long_text |}) /\
  List.length (db (env (snd r))) = 1%nat /\
  List.map sm_importance (db (env (snd r))) = [Num.lit_1].
Proof.
  cbv zeta. split; [eexists; vm_compute; reflexivity |].
  split; vm_compute; reflexivity.
Qed.

(** A batch of three with one failing item. *)
Example batch_with_one_failure :
  Embeddings.embedBatch runtime ollama_embeddings [js "ab"; []; js "abcd"] world0 =
    (Ok [[Num.of_Z 2]; []; [Num.of_Z 4]],
     {| env := env0;
        trace :=
          [EvFetchOllama (js "http://localhost:11434/api/embed") (js "mxbai-embed-large") (js "ab");
           EvFetchOllama (js "http://localhost:11434/api/embed") (js "mxbai-embed-large") [];
           EvFetchOllama (js "http://localhost:11434/api/embed") (js "mxbai-embed-large") (js "abcd");
           EvLog warn (MsgOllamaItemFailed 1 (js "Ollama embedding failed: 500 empty input"));
           EvLog warn (MsgOllamaBatchFailed 1 3)] |}).
Proof. vm_compute. reflexivity. Qed.

(** [--pareto 1.5] is rejected before the store is touched. *)
Example sleep_pareto_rejected :
  sleep_action runtime pareto_out_of_range world0 =
    (Ok tt,
     {| env := env0;
        trace := [EvConsoleLog MsgSleepBanner;
                  EvConsoleError (MsgError "Error: --pareto must be between 0 and 1");
                  EvExitCode 1] |}).
Proof. vm_compute. reflexivity. Qed.

(** The hook on a turn with a greeting, the long sentence from the user,
    the same sentence from the assistant and a longer one: the greeting is
    gated out, the repetition is a duplicate, two memories are stored. *)
Example agent_end_sample_turn :
  let event :=
    {| ev_success := true;
       ev_messages := Some [(true, js "hi"); (true, long_text); (false, long_text);
                            (false, (long_text ++ js " and more")%list)] |} in
  let r := agent_end Sample.Emoji runtime ollama_embeddings true true event ctx0 world0 in
  fst r = Ok tt /\
  List.map (fun m => (sm_source m, sm_importance m)) (db (env (snd r))) =
    [(source_auto_capture, Num.lit_0_8); (source_auto_capture_assistant, Num.lit_0_4)].
Proof. cbv zeta. split; vm_compute; reflexivity. Qed.

(** The deictic pattern on the phrases of its comment. *)
Example noise_examples :
  List.map (fun s => fst (Gate.some_test Sample.Emoji Gate.NOISE_PATTERNS (js s)))
    ["I need those"; "ok great"; "hmmm"; "Thank You!!"; "ok, fine by me";
     "<b>x</b>"; "[cron:dead-beef] run"; "System: [12:00] tick";
     "this one is not noise at all"] =
    [true; true; true; true; true; true; true; true; false].
Proof. vm_compute. reflexivity. Qed.

End Instances.

(** ** More on strings: [includes] and [trim] *)

Module TrimFacts.

Import Str.

Lemma startsWith_app (p rest : jsstring) : startsWith p (p ++ rest) = true.
Proof.
  induction p as [| a p IH]; cbn [startsWith app]; [reflexivity |].
  now rewrite N.eqb_refl, IH.
Qed.

Lemma startsWith_inv (p s : jsstring) :
  startsWith p s = true -> exists rest, s = (p ++ rest)%list.
Proof.
  revert s. induction p as [| a p IH]; intros s; cbn [startsWith].
  - now exists s.
  - destruct s as [| b s]; [discriminate |].
    intros [Hab Hps]%andb_prop. apply N.eqb_eq in Hab as ->.
    destruct (IH _ Hps) as [rest ->]. now exists rest.
Qed.

(** [includes] finds every occurrence. *)
Lemma includes_app (pre m post : jsstring) : includes (pre ++ m ++ post) m = true.
Proof.
  induction pre as [| a pre IH].
  - cbn [app]. destruct (m ++ post)%list eqn:E; cbn [includes];
      rewrite <- E, startsWith_app; reflexivity.
  - cbn [app includes]. rewrite IH. apply orb_true_r.
Qed.

Lemma includes_inv (s m : jsstring) :
  includes s m = true -> exists pre post, s = (pre ++ m ++ post)%list.
Proof.
  induction s as [| a s IH]; cbn [includes].
  - rewrite orb_false_r. intros [rest ->]%startsWith_inv. now exists [], rest.
  - intros [H | H]%orb_prop.
    + apply startsWith_inv in H as [rest ->]. now exists [], rest.
    + destruct (IH H) as [pre [post ->]]. now exists (a :: pre), post.
Qed.

Lemma trimStart_blank (a s : jsstring) :
  forallb isWhiteSpace a = true -> trimStart (a ++ s) = trimStart s.
Proof.
  induction a as [| c a IH]; cbn [forallb app trimStart]; [reflexivity |].
  intros [-> Ha]%andb_prop. now apply IH.
Qed.

(** What [trimStart] drops is white space, and what it leaves does not
    start with any. *)
Lemma trimStart_split (s : jsstring) :
  exists a, s = (a ++ trimStart s)%list /\ forallb isWhiteSpace a = true.
Proof.
  induction s as [| c s [a [Hs Ha]]]; cbn [trimStart].
  - now exists [].
  - destruct (isWhiteSpace c) eqn:Hc.
    + exists (c :: a). cbn [app forallb]. now rewrite Hc, Ha, <- Hs.
    + now exists [].
Qed.

Lemma trimStart_head (s r : jsstring) (c : N) :
  trimStart s = c :: r -> isWhiteSpace c = false.
Proof.
  induction s as [| d s IH]; cbn [trimStart]; [discriminate |].
  destruct (isWhiteSpace d) eqn:Hd; [exact IH |]. now intros [= <- _].
Qed.

Lemma trimStart_fixed (c : N) (s : jsstring) :
  isWhiteSpace c = false -> trimStart (c :: s) = c :: s.
Proof. intros H. cbn [trimStart]. now rewrite H. Qed.

Lemma trimStart_idem (s : jsstring) : trimStart (trimStart s) = trimStart s.
Proof.
  destruct (trimStart s) as [| c r] eqn:E; [reflexivity |].
  apply trimStart_fixed. eapply trimStart_head, E.
Qed.

Lemma forallb_rev (f : N -> bool) (l : list N) : forallb f (rev l) = forallb f l.
Proof.
  induction l as [| a l IH]; [reflexivity |].
  cbn [rev forallb]. rewrite forallb_app, IH. cbn [forallb].
  rewrite andb_true_r. apply andb_comm.
Qed.

Lemma trimEnd_blank (s b : jsstring) :
  forallb isWhiteSpace b = true -> trimEnd (s ++ b) = trimEnd s.
Proof.
  intros Hb. unfold trimEnd. rewrite rev_app_distr, trimStart_blank; [reflexivity |].
  now rewrite forallb_rev.
Qed.

Lemma trimEnd_split (s : jsstring) :
  exists b, s = (trimEnd s ++ b)%list /\ forallb isWhiteSpace b = true.
Proof.
  unfold trimEnd. destruct (trimStart_split (rev s)) as [a [Hs Ha]].
  exists (rev a). split; [| now rewrite forallb_rev].
  rewrite <- rev_app_distr, <- Hs. now rewrite rev_involutive.
Qed.

(** A string of white space only is trimmed to nothing. *)
Lemma trimStart_all_blank (a : jsstring) :
  forallb isWhiteSpace a = true -> trimStart a = [].
Proof.
  intros Ha. rewrite <- (app_nil_r a). now rewrite trimStart_blank.
Qed.

(** White space around a text does not change what [trim] makes of it. *)
Lemma trim_padding (a s b : jsstring) :
  forallb isWhiteSpace a = true -> forallb isWhiteSpace b = true ->
  trim (a ++ s ++ b) = trim s.
Proof.
  intros Ha Hb. unfold trim. rewrite trimStart_blank by exact Ha.
  destruct (trimStart_split s) as [p [Hs Hp]].
  destruct (trimStart s) as [| c r] eqn:E.
  - rewrite app_nil_r in Hs. subst p.
    rewrite trimStart_all_blank; [reflexivity |].
    rewrite forallb_app. apply andb_true_intro. now split.
  - rewrite Hs at 1. rewrite <- app_assoc, trimStart_blank by exact Hp.
    cbn [app]. rewrite trimStart_fixed by (eapply trimStart_head, E).
    change (c :: r ++ b)%list with ((c :: r) ++ b)%list.
    now apply trimEnd_blank.
Qed.

Lemma trimEnd_snoc (s : jsstring) (d : N) :
  isWhiteSpace d = false -> trimEnd (s ++ [d]) = (s ++ [d])%list.
Proof.
  intros Hd. unfold trimEnd. rewrite rev_app_distr. cbn [rev app].
  rewrite trimStart_fixed by exact Hd. cbn [rev]. now rewrite rev_involutive.
Qed.

Lemma trimEnd_last (s : jsstring) :
  trimEnd s = [] \/
  exists r d, trimEnd s = (r ++ [d])%list /\ isWhiteSpace d = false.
Proof.
  unfold trimEnd. destruct (trimStart (rev s)) as [| c r] eqn:E; [now left |].
  right. exists (rev r), c. split; [reflexivity |]. eapply trimStart_head, E.
Qed.

(** [trim] keeps an occurrence of a word that neither starts nor ends
    with white space. *)
Lemma trim_keeps (s : jsstring) (a b : N) (mid : jsstring) :
  isWhiteSpace a = false -> isWhiteSpace b = false ->
  includes s (a :: mid ++ [b]) = true ->
  includes (trim s) (a :: mid ++ [b]) = true.
Proof.
  intros Ha Hb [pre [post ->]]%includes_inv.
  destruct (trimStart_split pre) as [p [Hpre Hp]].
  destruct (trimEnd_split post) as [q [Hpost Hq]].
  unfold jsstring, codeunit in *.
  set (m := (a :: mid ++ [b])%list).
  assert (E : (pre ++ m ++ post)%list
              = (p ++ (trimStart pre ++ m ++ trimEnd post) ++ q)%list).
  { rewrite Hpre at 1. rewrite Hpost at 1. now rewrite <- !app_assoc. }
  rewrite E, trim_padding by assumption.
  assert (Hs : trimStart (trimStart pre ++ m ++ trimEnd post)
               = (trimStart pre ++ m ++ trimEnd post)%list).
  { destruct (trimStart pre) as [| c r] eqn:Ec.
    - unfold m. cbn [app]. now apply trimStart_fixed.
    - cbn [app]. apply trimStart_fixed. eapply trimStart_head, Ec. }
  unfold trim. rewrite Hs.
  assert (He : trimEnd (trimStart pre ++ m ++ trimEnd post)
               = (trimStart pre ++ m ++ trimEnd post)%list).
  { destruct (trimEnd_last post) as [-> | [r [d [-> Hd]]]].
    - rewrite app_nil_r. unfold m.
      change (a :: mid ++ [b])%list with ((a :: mid) ++ [b])%list.
      rewrite app_assoc. now apply trimEnd_snoc.
    - rewrite !app_assoc. now apply trimEnd_snoc. }
  rewrite He. apply includes_app.
Qed.

End TrimFacts.

(** ** The attention gate: what it rejects whatever the noise patterns say *)

Module GateMore.

Import Str RegExp Props GateFacts TrimFacts.

Section Facts.

Variable Emoji : N -> bool.

Lemma marker_survives_trim (text : jsstring) :
  (includes text (js "<relevant-memories>")
   || includes text (js "<core-memory-refresh>"))%bool = true ->
  (includes (trim text) (js "<relevant-memories>")
   || includes (trim text) (js "<core-memory-refresh>"))%bool = true.
Proof.
  intros [H | H]%orb_prop; apply orb_true_iff; [left | right]; revert H.
  - change (js "<relevant-memories>")
      with (60%N :: js "relevant-memories" ++ [62%N])%list.
    now apply trim_keeps.
  - change (js "<core-memory-refresh>")
      with (60%N :: js "core-memory-refresh" ++ [62%N])%list.
    now apply trim_keeps.
Qed.

Lemma marked_is_rejected (text : jsstring) (ps : list RegExp) :
  (includes (trim text) (js "<relevant-memories>")
   || includes (trim text) (js "<core-memory-refresh>"))%bool = true ->
  fst (Gate.passesAttentionGate Emoji text ps) = false /\
  Gate.passesAssistantAttentionGate Emoji text ps = Some (false, ps).
Proof.
  intros H.
  unfold Gate.passesAttentionGate, Gate.passesAssistantAttentionGate.
  set (marked := (includes (trim text) (js "<relevant-memories>") || _)%bool) in *.
  clearbody marked. subst marked. split.
  - destruct (_ || _)%bool; [reflexivity |].
    destruct (_ <? _)%Z; reflexivity.
  - 
    destruct (_ || _)%bool; [reflexivity |].
    destruct (_ <? _)%Z; [reflexivity |].
    destruct (Gate.codeChars_loop Emoji _ Gate.codeBlockRegex (trim text) 0)
      as [codeChars |] eqn:Hloop.
    2: { exfalso. revert Hloop.
         apply (codeChars_loop_total Emoji (trim text) _ 0 0%Z); lia. }
    destruct (Num.gt _ _); [reflexivity |].
    destruct (_ || _)%bool; reflexivity.
Qed.

(** X4.  A text that contains one of the two markers the plugin wraps
    its injected context in, [<relevant-memories>] or
    [<core-memory-refresh>], anywhere, is rejected by the user gate and by
    the assistant gate, in every state of the pattern array and whatever
    else the text holds. *)
Theorem marked_text_is_rejected (text : jsstring) (ps : list RegExp) :
  (includes text (js "<relevant-memories>")
   || includes text (js "<core-memory-refresh>"))%bool = true ->
  fst (Gate.passesAttentionGate Emoji text ps) = false /\
  Gate.passesAssistantAttentionGate Emoji text ps = Some (false, ps).
Proof. intros H. now apply marked_is_rejected, marker_survives_trim. Qed.

(** X5.  The assistant gate is stricter than the user gate: a text the
    assistant gate accepts is accepted by the user gate too, on the same
    pattern array. *)
Theorem assistant_gate_is_stricter (text : jsstring) (ps ps' : list RegExp) :
  Gate.passesAssistantAttentionGate Emoji text ps = Some (true, ps') ->
  Gate.passesAttentionGate Emoji text ps = (true, ps').
Proof.
  unfold Gate.passesAssistantAttentionGate, Gate.passesAttentionGate.
  unfold Gate.MIN_CAPTURE_CHARS, Gate.MAX_CAPTURE_CHARS,
    Gate.MAX_ASSISTANT_CAPTURE_CHARS, Gate.MIN_WORD_COUNT,
    Gate.MIN_ASSISTANT_WORD_COUNT.
  destruct (Z.ltb_spec (length (trim text)) 30); [discriminate |].
  destruct (Z.gtb_spec (length (trim text)) 1000); [discriminate |].
  destruct (Z.gtb_spec (length (trim text)) 2000); [lia |].
  cbn [orb].
  set (wordCount := Z.of_nat (List.length (split Emoji (trim text) Gate.whitespace_run))).
  destruct (Z.ltb_spec wordCount 10); [discriminate |].
  destruct (Z.ltb_spec wordCount 5); [lia |].
  destruct (Gate.codeChars_loop _ _ _ _ _); [| discriminate].
  destruct (Num.gt _ _); [discriminate |].
  destruct (_ || _)%bool; [discriminate |].
  destruct (_ || _)%bool; [discriminate |].
  destruct (Gate.some_test Emoji ps (trim text)) as [[] ps1]; [discriminate |].
  destruct (_ >? _)%Z; [discriminate |].
  now intros [= <-].
Qed.

(** X6.  White space before and after a text does not change the
    verdict of either gate. *)
Theorem gate_ignores_padding (role : Role) (a text b : jsstring) (ps : list RegExp) :
  forallb isWhiteSpace a = true -> forallb isWhiteSpace b = true ->
  gate Emoji role (a ++ text ++ b) ps = gate Emoji role text ps.
Proof.
  intros Ha Hb. destruct role; cbn [gate].
  - unfold Gate.passesAttentionGate. now rewrite trim_padding.
  - unfold Gate.passesAssistantAttentionGate. now rewrite trim_padding.
Qed.

End Facts.

End GateMore.

(** ** Embeddings: idempotence, order, construction *)

Module EmbeddingsMore.

Import Str Host Props Logic Embeddings EmbeddingsFacts.

(** Two sorted lists of integers with the same elements are equal. *)
Lemma sorted_perm_eq (l1 l2 : list Z) :
  StronglySorted Z.le l1 -> StronglySorted Z.le l2 -> Permutation l1 l2 -> l1 = l2.
Proof.
  revert l2. induction l1 as [| x l1 IH]; intros l2 H1 H2 Hp.
  - apply Permutation_nil in Hp. now subst.
  - destruct l2 as [| y l2]; [apply Permutation_sym, Permutation_nil in Hp; discriminate |].
    apply StronglySorted_inv in H1 as [H1 Hx].
    apply StronglySorted_inv in H2 as [H2 Hy].
    assert (x = y) as <-.
    { assert (Hin1 : In y (x :: l1))
        by (eapply Permutation_in; [apply Permutation_sym, Hp | now left]).
      assert (Hin2 : In x (y :: l2))
        by (eapply Permutation_in; [exact Hp | now left]).
      rewrite Forall_forall in Hx, Hy.
      destruct Hin1 as [-> | Hin1]; [reflexivity |].
      destruct Hin2 as [-> | Hin2]; [reflexivity |].
      specialize (Hx _ Hin1). specialize (Hy _ Hin2). lia. }
    f_equal. apply IH; [assumption | assumption |].
    eapply Permutation_cons_inv, Hp.
Qed.

Lemma iota_sorted (n k : nat) :
  StronglySorted Z.le (List.map Z.of_nat (seq k n)).
Proof.
  revert k. induction n as [| n IH]; intros k; cbn [seq List.map]; constructor.
  - apply IH.
  - rewrite Forall_forall. intros z [j [<- Hj%in_seq]]%in_map_iff. lia.
Qed.

Lemma sorted_indices (l : list Datum) :
  Sorted index_le l -> StronglySorted Z.le (List.map index l).
Proof.
  intros H. apply Sorted_StronglySorted in H.
  - induction H as [| d l Hs IH Hd]; cbn [List.map]; constructor; [exact IH |].
    rewrite Forall_forall in *. intros z [x [<- Hx]]%in_map_iff. now apply Hd.
  - intros a b c. unfold index_le. lia.
Qed.

(** When the indices of [response.data] are 0, 1, ... in some order,
    sorting puts the datum with index [i] at position [i]. *)
Lemma toSorted_by_index_position (data : list Datum) :
  Permutation (List.map index data) (List.map Z.of_nat (seq 0 (List.length data))) ->
  List.map index (toSorted_by_index data)
    = List.map Z.of_nat (seq 0 (List.length data)).
Proof.
  intros Hp.
  destruct (EmbeddingsTheorems.toSorted_by_index_spec data) as [Hs Hperm].
  apply sorted_perm_eq.
  - now apply sorted_indices.
  - apply iota_sorted.
  - rewrite <- Hp. apply Permutation_map, Permutation_sym, Hperm.
Qed.

Section Facts.

Context {Env : Type} {HostMessage SleepCycleResult : Type}.
Variable rt : Runtime Env HostMessage SleepCycleResult.
Variable this : Embeddings.t.

(** X1.  Truncation is idempotent: for a context length that is not
    negative, a text that [truncateToContext] returned is returned
    unchanged, and without a log line, when it is truncated again. *)
Theorem truncateToContext_idempotent (text r : jsstring) (w w' : World Env) :
  (0 <= contextLength this)%Z ->
  truncateToContext this text w = (Ok r, w') ->
  forall w1 : World Env, truncateToContext this r w1 = (Ok r, w1).
Proof.
  intros Hc Hr w1.
  destruct (truncateToContext_result this text r w w' Hc Hr) as [_ [Hlen _]].
  unfold truncateToContext.
  now replace (length r <=? contextLength this * 3)%Z with true
    by (symmetry; apply Z.leb_le; exact Hlen).
Qed.

(** X2.  [embedBatchOpenAI] restores the input order: when the
    provider's answer holds the indices 0, 1, ..., n-1 in any order, the
    result has [n] vectors and the embedding that came with index [i] is
    at position [i]. *)
Theorem embedBatchOpenAI_restores_order (inputs : list jsstring) (w : World Env)
    (data : list Datum) (env' : Env) :
  client this = true ->
  openai_create rt (model this) (Many inputs) (env w) = (Ok data, env') ->
  Permutation (List.map index data) (List.map Z.of_nat (seq 0 (List.length data))) ->
  exists vs w',
    embedBatchOpenAI rt this inputs w = (Ok vs, w') /\
    List.length vs = List.length data /\
    forall d, In d data -> nth_error vs (Z.to_nat (index d)) = Some (embedding d).
Proof.
  intros Hclient Hcall Hperm.
  unfold embedBatchOpenAI, bind, call. rewrite Hclient. cbn [negb].
  rewrite Hcall. eexists _, _. split; [reflexivity |].
  destruct (EmbeddingsTheorems.toSorted_by_index_spec data) as [_ Hp].
  split.
  - rewrite length_map. symmetry. now apply Permutation_length.
  - intros d Hd.
    assert (Hin : In d (toSorted_by_index data)) by (eapply Permutation_in; eassumption).
    apply In_nth_error in Hin as [k Hk].
    pose proof (toSorted_by_index_position data Hperm) as Hpos.
    assert (Hidx : nth_error (List.map index (toSorted_by_index data)) k
                   = Some (index d)) by (now apply map_nth_error).
    rewrite Hpos in Hidx.
    assert (Hlt : k < List.length data).
    { rewrite (Permutation_length Hp). apply nth_error_Some.
      rewrite Hk. discriminate. }
    rewrite nth_error_map, nth_error_seq in Hidx.
    replace (k <? List.length data)%nat with true in Hidx
      by (symmetry; now apply Nat.ltb_lt).
    cbn in Hidx. injection Hidx as Hidx. rewrite <- Hidx, Nat2Z.id.
    now apply map_nth_error.
Qed.

Lemma truncateToContext_trace (text : jsstring) (w : World Env) :
  exists input logs,
    truncateToContext this text w
      = (Ok input, {| env := env w; trace := trace w ++ logs |}) /\
    Forall (fun l => exists m, l = EvLog debug m) logs.
Proof.
  unfold truncateToContext.
  destruct (length text <=? contextLength this * 3)%Z.
  - exists text, []. rewrite app_nil_r. destruct w. now split.
  - unfold bind, log_debug.
    destruct (logger this) as [[[|]] |]; cbn [has_debug]; unfold emit, ret.
    + eexists _, [_]. split; [reflexivity |]. repeat constructor. now eexists.
    + eexists _, []. rewrite app_nil_r. destruct w. now split.
    + eexists _, []. rewrite app_nil_r. destruct w. now split.
Qed.

(** X3.  An object that the constructor returned always reaches its
    provider: [embed] logs the truncation at most, and then sends one
    request, to the Ollama endpoint under [baseUrl] or to the OpenAI
    client, with the truncated text; the error of [embedOpenAI] about a
    client that was not initialised cannot occur. *)
Theorem constructed_embed_calls_provider
    (apiKey model0 : option jsstring) (p : option EmbeddingProvider)
    (baseUrl0 : option jsstring) (logger0 : option Logger)
    (text : jsstring) (w : World Env) :
  Embeddings.new rt apiKey model0 p baseUrl0 logger0 = Ok this ->
  exists input logs r w',
    embed rt this text w = (r, w') /\
    fst (truncateToContext this text w) = Ok input /\
    Forall (fun l => exists m, l = EvLog debug m) logs /\
    trace w' =
      (trace w ++ logs
       ++ [if is_ollama (provider this)
           then EvFetchOllama (baseUrl this ++ js "/api/embed") (model this) input
           else EvOpenAICreate (model this) (One input)])%list.
Proof.
  intros Hnew.
  destruct (EmbeddingsTheorems.new_client rt this _ _ _ _ _ Hnew) as [Hclient _].
  destruct (truncateToContext_trace text w) as [input [logs [Ht Hlogs]]].
  exists input, logs. unfold embed, bind. rewrite Ht. cbn [fst].
  destruct (is_ollama (provider this)) eqn:Hp.
  - unfold embedOllama, bind, call. cbn [env trace].
    destruct (fetch_ollama rt _ _ _ _) as [[response | err] env1].
    + destruct (negb (resp_ok response)).
      * unfold lift. destruct (resp_text response);
          eexists _, _; (split; [reflexivity |]); cbn [trace];
          now rewrite <- app_assoc.
      * unfold lift. destruct (resp_json response) as [[[| v vs] |] |];
          eexists _, _; (split; [reflexivity |]); cbn [trace];
          now rewrite <- app_assoc.
    + eexists _, _. split; [reflexivity |]. cbn [trace]. now rewrite <- app_assoc.
  - unfold embedOpenAI, bind, call. rewrite Hclient. cbn [negb env trace].
    destruct (openai_create rt _ _ _) as [[[| d ds] | err] env1];
      eexists _, _; (split; [reflexivity |]); cbn [trace];
      now rewrite <- app_assoc.
Qed.

End Facts.

End EmbeddingsMore.

(** ** The auto-capture hook: what reaches the store *)

Module HookMore.

Import Str Host Props Logic Plugin CaptureProps HookFacts.

Section Facts.

Context {Env : Type} {HostMessage SleepCycleResult : Type}.
Variable Emoji : N -> bool.
Variable rt : Runtime Env HostMessage SleepCycleResult.
Variable embeddings : Embeddings.t.
Variables (extraction_enabled logger_debug : bool).

Section Item.

Variable ctx : ToolContext.

Lemma provider_or_log_stores (src : MemorySource) (text : jsstring) (e : Event) :
  provider_or_log e -> stores ctx src text e.
Proof. intros He m ->. contradiction He. Qed.

Lemma capture_user_stores (text : jsstring) (stored : Z) :
  run (capture_user rt embeddings extraction_enabled
         (or_else (ctx_agentId ctx) (js "default")) (ctx_sessionKey ctx) text stored)
    (stores ctx source_auto_capture text) (fun _ => True).
Proof.
  unfold capture_user.
  eapply run_bind; [apply embed_run_any, provider_or_log_stores |].
  intros v _. eapply run_bind.
  - apply run_call with (Q := fun _ => True); [intros m; discriminate | trivial].
  - intros [| e0 rest] _; [| now apply run_ret].
    eapply run_bind.
    + apply run_call with (Q := fun _ => True); [intros m; discriminate | trivial].
    + intros importance _. eapply run_bind.
      * apply run_randomUUID with (Q := fun _ => True); [intros i m; discriminate | trivial].
      * intros i _. eapply run_bind; [| intros; now apply run_ret].
        apply run_call with (Q := fun _ => True); [| trivial].
        intros m [= <-]. now repeat split.
Qed.

Lemma capture_assistant_stores (text : jsstring) (stored : Z) :
  run (capture_assistant rt embeddings extraction_enabled
         (or_else (ctx_agentId ctx) (js "default")) (ctx_sessionKey ctx) text stored)
    (stores ctx source_auto_capture_assistant text) (fun _ => True).
Proof.
  unfold capture_assistant.
  eapply run_bind.
  - apply run_call with (Q := fun _ => True); [intros m; discriminate | trivial].
  - intros importance _. destruct (Num.lt importance Num.lit_0_7); [now apply run_ret |].
    eapply run_bind; [apply embed_run_any, provider_or_log_stores |].
    intros v _. eapply run_bind.
    + apply run_call with (Q := fun _ => True); [intros m; discriminate | trivial].
    + intros [| e0 rest] _; [| now apply run_ret].
      eapply run_bind.
      * apply run_randomUUID with (Q := fun _ => True);
          [intros i m; discriminate | trivial].
      * intros i _. eapply run_bind; [| intros; now apply run_ret].
        apply run_call with (Q := fun _ => True); [| trivial].
        intros m [= <-]. now repeat split.
Qed.

(** A loop stores texts of its list only. *)
Lemma user_loop_stores (retained : list jsstring) :
  forall stored,
    run (user_loop rt embeddings extraction_enabled logger_debug
           (or_else (ctx_agentId ctx) (js "default")) (ctx_sessionKey ctx) retained stored)
      (fun e => exists text, In text retained /\ stores ctx source_auto_capture text e)
      (fun _ => True).
Proof.
  induction retained as [| text rest IH]; intros stored; cbn [user_loop].
  - now apply run_ret.
  - eapply run_bind with (Q := fun _ => True).
    + apply run_try_catch.
      * eapply run_weaken; [apply capture_user_stores | | trivial].
        intros e He. exists text. split; [now left | exact He].
      * intros err. eapply run_bind; [| intros; now apply run_ret].
        apply api_debug_run. exists text. split; [now left | intros m; discriminate].
    + intros s _. eapply run_weaken; [apply IH | | trivial].
      intros e [t [Ht He]]. exists t. split; [now right | exact He].
Qed.

Lemma assistant_loop_stores (retained : list jsstring) :
  forall stored,
    run (assistant_loop rt embeddings extraction_enabled logger_debug
           (or_else (ctx_agentId ctx) (js "default")) (ctx_sessionKey ctx) retained stored)
      (fun e => exists text, In text retained /\ stores ctx source_auto_capture_assistant text e)
      (fun _ => True).
Proof.
  induction retained as [| text rest IH]; intros stored; cbn [assistant_loop].
  - now apply run_ret.
  - eapply run_bind with (Q := fun _ => True).
    + apply run_try_catch.
      * eapply run_weaken; [apply capture_assistant_stores | | trivial].
        intros e He. exists text. split; [now left | exact He].
      * intros err. eapply run_bind; [| intros; now apply run_ret].
        apply api_debug_run. exists text. split; [now left | intros m; discriminate].
    + intros s _. eapply run_weaken; [apply IH | | trivial].
      intros e [t [Ht He]]. exists t. split; [now right | exact He].
Qed.

Lemma capture_all_gated (messages : list HostMessage) :
  run (capture_all Emoji rt embeddings extraction_enabled logger_debug
         (or_else (ctx_agentId ctx) (js "default")) (ctx_sessionKey ctx) messages)
    (captured_from Emoji rt messages ctx) (fun _ => True).
Proof.
  unfold capture_all.
  eapply run_bind;
    [apply run_lift with (Q := fun us => rt_extractUserMessages rt messages = Ok us);
     trivial |].
  intros userMessages Hu. eapply run_bind with (Q := fun _ => True).
  { eapply run_weaken; [apply user_loop_stores | | trivial].
    intros e [t [[Ht Hp]%filter_In He]] m Hm.
    destruct (He m Hm) as [Hc [Ha [Hs [Hsrc Htext]]]].
    repeat (split; [assumption |]). rewrite Hsrc, Htext.
    exists userMessages. now repeat split. }
  intros stored _.
  eapply run_bind;
    [apply run_lift
       with (Q := fun xs => rt_extractAssistantMessages rt messages = Ok xs);
     trivial |].
  intros assistantMessages Has. eapply run_bind with (Q := fun _ => True).
  { eapply run_weaken; [apply assistant_loop_stores | | trivial].
    intros e [t [[Ht Hp]%filter_In He]] m Hm.
    destruct (He m Hm) as [Hc [Ha [Hs [Hsrc Htext]]]].
    repeat (split; [assumption |]). rewrite Hsrc, Htext.
    exists assistantMessages. now repeat split. }
  intros stored' _. unfold api_info.
  destruct (stored' >? 0)%Z; [apply run_emit; [intros m; discriminate | exact I] |].
  destruct (_ || _)%bool; [apply run_emit; [intros m; discriminate | exact I] |].
  now apply run_ret.
Qed.

End Item.

(** X8.  Whatever the [agent_end] hook hands to the store is a text
    that the extractor found among the event's messages and that passes
    the attention gate of its role (the user gate for the source
    "auto-capture", the assistant gate for "auto-capture-assistant"); it
    has the category "other" and the agent id and session key of the
    hook's context. *)
Theorem agent_end_stores_gated_texts (event : AgentEndEvent HostMessage)
    (ctx : ToolContext) :
  run (agent_end Emoji rt embeddings extraction_enabled logger_debug event ctx)
    (captured_from Emoji rt (default (ev_messages event) []) ctx) (fun _ => True).
Proof.
  unfold agent_end.
  eapply run_bind; [apply api_debug_run; intros m; discriminate |].
  intros _ _. destruct (ev_messages event) as [[| m ms] |];
    try (apply api_debug_run; intros m'; discriminate).
  destruct (negb (ev_success event));
    [apply api_debug_run; intros m'; discriminate |].
  apply run_try_catch; [apply capture_all_gated |].
  intros err. unfold api_warn. apply run_emit; [intros m'; discriminate | exact I].
Qed.

(** X9.  When the run did not succeed, or the event has no messages,
    the hook only writes its two debug lines (when the logger has a debug
    level): nothing is extracted, embedded, rated or stored, and the
    environment is as it was. *)
Theorem agent_end_skips (event : AgentEndEvent HostMessage) (ctx : ToolContext)
    (w : World Env) :
  nothing_to_capture event = true ->
  agent_end Emoji rt embeddings extraction_enabled logger_debug event ctx w =
    (Ok tt,
     {| env := env w;
        trace := trace w
                 ++ if logger_debug
                    then [EvLog debug
                            (MsgAgentEndFired (ev_success event)
                               (Z.of_nat (List.length (default (ev_messages event) []))));
                          EvLog debug MsgSkipping]
                    else [] |}).
Proof.
  unfold nothing_to_capture, agent_end, bind, api_debug, emit, ret.
  destruct logger_debug, (ev_messages event) as [[| m ms] |], (ev_success event);
    cbn [negb orb default List.length env trace]; intros H; try discriminate H;
    rewrite <- ?app_assoc, ?app_nil_r; destruct w; reflexivity.
Qed.

End Facts.

End HookMore.

(** ** The tools and the sleep command: what they never do *)

Module ToolMore.

Import Str Host Props Logic Plugin ToolFacts.

Section Facts.

Context {Env : Type} {HostMessage SleepCycleResult : Type}.
Variable rt : Runtime Env HostMessage SleepCycleResult.
Variable embeddings : Embeddings.t.

(** The events of [embed], as a list. *)
Lemma embed_adds (text : jsstring) (w : World Env) :
  exists evs,
    trace (snd (Embeddings.embed rt embeddings text w)) = (trace w ++ evs)%list /\
    filter is_deleteMemory evs = [] /\ filter is_storeMemory evs = [].
Proof.
  destruct (Embeddings.embed rt embeddings text w) as [r w1] eqn:He.
  destruct (EmbeddingsFacts.embed_events rt embeddings text w r w1 He)
    as [[evs [Ht Hp]] _].
  exists evs. split; [exact Ht |]. split.
  - eapply no_deleteMemory_among; [| exact Hp]. apply provider_or_log_not_delete.
  - eapply no_storeMemory_among; [| exact Hp]. apply provider_or_log_not_store.
Qed.

(** X10.  A call of [memory_forget] deletes at most one memory and
    stores none, whatever it is given and whatever the provider and the
    store answer, failures included. *)
Theorem memory_forget_deletes_at_most_one (params : ForgetParams) (w : World Env) :
  exists evs,
    trace (snd (memory_forget rt embeddings params w)) = (trace w ++ evs)%list /\
    (List.length (filter is_deleteMemory evs) <= 1)%nat /\
    filter is_storeMemory evs = [].
Proof.
  unfold memory_forget.
  destruct (fp_memoryId params) as [[| c r] |].
  2: { unfold bind, deleteMemory, call. exists [EvDeleteMemory (c :: r)].
       destruct (db_deleteMemory rt (c :: r) (env w)) as [[[|] | err] e1];
         cbn [snd trace ret negb]; cbn; auto. }
  all: destruct (fp_query params) as [[| c r] |];
    try (exists []; cbn [snd ret]; rewrite app_nil_r; cbn; now auto).
  all: destruct (embed_adds (c :: r) w) as [evs1 [Ht [Hd Hs]]];
    unfold bind at 1;
    destruct (Embeddings.embed rt embeddings (c :: r) w) as [[v | err] w1];
    cbn [snd] in *;
    [| exists evs1; rewrite Hd; cbn; now auto];
    unfold bind at 1, vectorSearch, call;
    destruct (db_vectorSearch rt v 5 Num.lit_0_7 (env w1))
      as [[[| r0 others] | err] e2];
    [ exists (evs1 ++ [EvVectorSearch v 5 Num.lit_0_7])%list
    | destruct (_ && _)%bool;
      [ unfold bind, deleteMemory, call; cbn [env trace];
        exists (evs1 ++ [EvVectorSearch v 5 Num.lit_0_7;
                         EvDeleteMemory (hit_id r0)])%list;
        destruct (db_deleteMemory rt (hit_id r0) e2) as [[b | err] e3]
      | exists (evs1 ++ [EvVectorSearch v 5 Num.lit_0_7])%list ]
    | exists (evs1 ++ [EvVectorSearch v 5 Num.lit_0_7])%list ];
    cbn [snd trace ret]; rewrite Ht, <- !app_assoc, !filter_app, Hd, Hs;
    cbn; auto.
Qed.

End Facts.

End ToolMore.

Module SleepMore.

Import Str Host Props Logic Plugin.

Section Facts.

Context {Env : Type} {HostMessage SleepCycleResult : Type}.
Variable rt : Runtime Env HostMessage SleepCycleResult.

(** X11.  The sleep command with one of its six validated options out
    of range (or not a number) prints the banner and one error line,
    sets the exit code 1 and returns: no call is made, the environment
    is as it was. *)
Theorem sleep_rejects_without_io (opts : SleepOpts) (w : World Env) :
  accepted opts = false ->
  exists msg,
    sleep_action rt opts w =
      (Ok tt,
       {| env := env w;
          trace := trace w ++ [EvConsoleLog MsgSleepBanner;
                               EvConsoleError (MsgError msg);
                               EvExitCode 1] |}).
Proof.
  unfold accepted, sleep_action, bind at 1, emit at 1, try_catch.
  repeat match goal with
         | |- context [if rejected ?v ?bad then _ else _] =>
             destruct (rejected v bad);
               [intros _; eexists; unfold reject, bind, emit; cbn [env trace];
                rewrite <- !app_assoc; reflexivity |]
         end.
  discriminate.
Qed.

End Facts.

End SleepMore.

(** ** The noise patterns: the prompts of the system *)

Module NoiseFacts.

Import Str RegExp Props NoiseProps GateFacts.

Section Facts.

Variable Emoji : N -> bool.

(** A literal run, under the [i] flag, matches the same letters in any
    case and hands the rest to its continuation. *)
Lemma rmatch_letters (l : list ascii) (p rest : list N) (i : nat)
    (k : nat -> list N -> option nat) :
  same_letters p (List.map N_of_ascii l) ->
  rmatch Emoji true false
    (fold_right (fun a r => Seq (Char (Gate.ch a)) r) Empty l) i (p ++ rest)%list k
  = k (i + List.length p) rest.
Proof.
  unfold same_letters. revert p i.
  induction l as [| a l IH]; intros p i; destruct p as [| c p];
    cbn [List.map]; try discriminate; intros H.
  - cbn [fold_right rmatch app List.length]. now rewrite Nat.add_0_r.
  - injection H as Hc Hp. cbn [fold_right rmatch app step].
    unfold char_matches, Gate.ch. rewrite Hc, N.eqb_refl.
    rewrite (IH p _ Hp). cbn [width andb List.length]. f_equal. lia.
Qed.

Lemma rmatch_str (P : string) (p rest : list N) (i : nat)
    (k : nat -> list N -> option nat) :
  same_letters p (js P) ->
  rmatch Emoji true false (Gate.str P) i (p ++ rest)%list k = k (i + List.length p) rest.
Proof. apply rmatch_letters. Qed.

(** A pattern that matches somewhere is found by the scan. *)
Lemma search_finds (r : regex) (pre s : list N) :
  (forall i, rmatch Emoji true false r i s (fun e _ => Some e) <> None) ->
  forall i, search Emoji true false r 0 i (pre ++ s)%list <> None.
Proof.
  intros Hs. induction pre as [| c pre IH]; intros i.
  - cbn [app]. destruct s as [| c s]; cbn [search Nat.leb];
      (destruct (rmatch _ _ _ _ _ _ _) eqn:E; [discriminate | now apply Hs in E]).
  - cbn [app search Nat.leb].
    destruct (rmatch _ _ _ _ _ _ _); [discriminate | apply IH].
Qed.

Lemma test_of_search (re : RegExp) (s : jsstring) :
  global re = false -> unicode re = false -> ignoreCase re = true ->
  search Emoji true false (source re) 0 0 s <> None ->
  fst (test Emoji re s) = true.
Proof.
  intros Hg Hu Hi Hs. unfold test, exec, input. rewrite Hg, Hu, Hi.
  replace (length s <? 0)%Z with false
    by (symmetry; apply Z.ltb_ge, StrFacts.length_nonneg).
  cbn [Z.to_nat].
  destruct (search Emoji true false (source re) 0 0 s) as [[b e] |];
    [reflexivity | contradiction].
Qed.

(** [some] is true as soon as one pattern of the array tests true. *)
Lemma some_test_hit (ps : list RegExp) (s : jsstring) (re : RegExp) :
  In re ps -> fst (test Emoji re s) = true -> fst (Gate.some_test Emoji ps s) = true.
Proof.
  intros Hin Hre. induction ps as [| a ps IH]; [contradiction |].
  cbn [Gate.some_test]. destruct (test Emoji a s) as [[|] a'] eqn:Ha; [reflexivity |].
  destruct Hin as [-> | Hin]; [rewrite Ha in Hre; discriminate |].
  specialize (IH Hin). destruct (Gate.some_test Emoji ps s). exact IH.
Qed.

Lemma search_at_start (r : regex) (s : list N) :
  rmatch Emoji true false r 0 s (fun e _ => Some e) <> None ->
  search Emoji true false r 0 0 s <> None.
Proof.
  intros H. destruct s as [| c s]; cbn [search Nat.leb];
    (destruct (rmatch _ _ _ _ _ _ _); [discriminate | contradiction]).
Qed.

Lemma system_prompt_is_noise (t : jsstring) :
  system_prompt t -> fst (Gate.some_test Emoji Gate.NOISE_PATTERNS t) = true.
Proof.
  intros [pre [p [rest [-> [[-> H] | [[-> H] | H]]]]]].
  - eapply some_test_hit with
      (re := literal (Gate.seqs [Bol; Gate.str "A new session was started via"])
               true false false).
    + unfold Gate.NOISE_PATTERNS. do 8 right. now left.
    + apply test_of_search; try reflexivity. apply search_at_start.
      cbn [source literal Gate.seqs fold_right rmatch Nat.eqb app].
      rewrite (rmatch_str _ _ _ _ _ H). discriminate.
  - eapply some_test_hit with
      (re := literal (Gate.seqs [Bol; Gate.str "Pre-compaction memory flush"])
               true false false).
    + unfold Gate.NOISE_PATTERNS. do 10 right. now left.
    + apply test_of_search; try reflexivity. apply search_at_start.
      cbn [source literal Gate.seqs fold_right rmatch Nat.eqb app].
      rewrite (rmatch_str _ _ _ _ _ H). discriminate.
  - eapply some_test_hit with
      (re := literal (Gate.str "Read HEARTBEAT.md if it exists") true false false).
    + unfold Gate.NOISE_PATTERNS. do 9 right. now left.
    + apply test_of_search; try reflexivity. apply search_finds. intros i.
      cbn [source literal]. rewrite (rmatch_str _ _ _ _ _ H). discriminate.
Qed.

(** X7.  The prompts of the system are never captured: a text that,
    once trimmed, starts with "A new session was started via" or with
    "Pre-compaction memory flush", or that holds "Read HEARTBEAT.md if it
    exists", in any case of the letters, is rejected by the user gate and
    by the assistant gate. *)
Theorem system_prompts_are_rejected (text : jsstring) (ps : list RegExp) :
  same_patterns ps Gate.NOISE_PATTERNS ->
  system_prompt (trim text) ->
  fst (Gate.passesAttentionGate Emoji text ps) = false /\
  Gate.passesAssistantAttentionGate Emoji text ps = Some (false, ps).
Proof.
  intros Hps Hnoise%system_prompt_is_noise.
  pose proof (some_test_pure Emoji ps _ (trim text) Hps NOISE_PATTERNS_non_global)
    as Hsome.
  rewrite Hnoise in Hsome.
  unfold Gate.passesAttentionGate, Gate.passesAssistantAttentionGate.
  rewrite Hsome. split.
  - destruct (_ || _)%bool; [reflexivity |].
    destruct (_ <? _)%Z; [reflexivity |].
    destruct (_ || _)%bool; reflexivity.
  - destruct (_ || _)%bool; [reflexivity |].
    destruct (_ <? _)%Z; [reflexivity |].
    destruct (Gate.codeChars_loop Emoji _ Gate.codeBlockRegex (trim text) 0)
      as [codeChars |] eqn:Hloop.
    2: { exfalso. revert Hloop.
         apply (codeChars_loop_total Emoji (trim text) _ 0 0%Z); lia. }
    destruct (Num.gt _ _); [reflexivity |].
    destruct (_ || _)%bool; [reflexivity |].
    destruct (_ || _)%bool; reflexivity.
Qed.

End Facts.

End NoiseFacts.

(** ** Sets and maps with string keys *)

Module CollFacts.

Import Str Coll.

Lemma eqb_eq (a b : jsstring) : eqb a b = true <-> a = b.
Proof.
  revert b. induction a as [| x a IH]; intros [| y b]; cbn [eqb];
    try (split; (reflexivity || discriminate)).
  rewrite andb_true_iff, N.eqb_eq, IH. split.
  - now intros [-> ->].
  - now intros [= -> ->].
Qed.

Lemma eqb_refl (a : jsstring) : eqb a a = true.
Proof. now apply eqb_eq. Qed.

Lemma eqb_neq (a b : jsstring) : eqb a b = false <-> a <> b.
Proof.
  rewrite <- eqb_eq. destruct (eqb a b); split; congruence.
Qed.

Lemma has_In (k : jsstring) (s : list jsstring) : has k s = true <-> In k s.
Proof.
  unfold has. rewrite existsb_exists. split.
  - now intros [x [Hx ->%eqb_eq]].
  - intros H. exists k. split; [exact H | apply eqb_refl].
Qed.

Lemma In_add (k x : jsstring) (s : list jsstring) : In x (add k s) <-> x = k \/ In x s.
Proof.
  unfold add. destruct (has k s) eqn:H.
  - apply has_In in H. split; [now right | now intros [-> | ?]].
  - rewrite in_app_iff. cbn [In]. split; [intros [? | [<- | []]] | intros [-> | ?]]; auto.
Qed.

Lemma In_remove (k x : jsstring) (s : list jsstring) :
  In x (remove k s) <-> x <> k /\ In x s.
Proof.
  unfold remove. rewrite filter_In, negb_true_iff, eqb_neq. split.
  - intros [H1 H2]. split; [congruence | exact H1].
  - intros [H1 H2]. split; [exact H2 | congruence].
Qed.


Lemma NoDup_remove (k : jsstring) (s : list jsstring) : NoDup s -> NoDup (remove k s).
Proof. apply NoDup_filter. Qed.

Section Map.

Context {V : Type}.

Implicit Types (m : list (jsstring * V)) (k : jsstring).

Lemma get_set k k' (v : V) m :
  get k' (set k v m) = if eqb k' k then Some v else get k' m.
Proof.
  induction m as [| [k0 v0] m IH]; cbn [set get].
  - reflexivity.
  - destruct (eqb k k0) eqn:E; cbn [get].
    + apply eqb_eq in E as <-. destruct (eqb k' k); reflexivity.
    + destruct (eqb k' k0) eqn:E'; [| exact IH].
      apply eqb_eq in E' as ->.
      replace (eqb k0 k) with false; [reflexivity |].
      symmetry. apply eqb_neq. apply eqb_neq in E. congruence.
Qed.

Lemma get_delete k k' m :
  get k' (delete k m) = if eqb k' k then None else get k' m.
Proof.
  induction m as [| [k0 v0] m IH]; cbn [delete filter get fst].
  - now destruct (eqb k' k).
  - fold (delete k m). destruct (eqb k k0) eqn:E; cbn [negb get].
    + apply eqb_eq in E as <-. rewrite IH. now destruct (eqb k' k).
    + rewrite IH. destruct (eqb k' k0) eqn:E'; [| reflexivity].
      apply eqb_eq in E' as ->.
      replace (eqb k0 k) with false; [reflexivity |].
      symmetry. apply eqb_neq. apply eqb_neq in E. congruence.
Qed.

Lemma get_In_keys k m : get k m <> None <-> In k (keys m).
Proof.
  induction m as [| [k0 v0] m IH]; cbn [get keys List.map fst In].
  - split; [congruence | intros []].
  - fold (keys m). destruct (eqb k k0) eqn:E.
    + apply eqb_eq in E as ->. split; [now left | discriminate].
    + rewrite IH. apply eqb_neq in E. split; [now right | intros [? | ?]; congruence].
Qed.

Lemma keys_set k (v : V) m x : In x (keys (set k v m)) <-> x = k \/ In x (keys m).
Proof.
  rewrite <- !get_In_keys, get_set. destruct (eqb x k) eqn:E.
  - apply eqb_eq in E as ->. split; [now left | discriminate].
  - apply eqb_neq in E. split; [now right | intros [? | ?]; congruence].
Qed.


Lemma NoDup_keys_set k (v : V) m : NoDup (keys m) -> NoDup (keys (set k v m)).
Proof.
  induction m as [| [k0 v0] m IH]; cbn [set keys List.map fst].
  - intros _. repeat constructor. intros [].
  - fold (keys m). intros H. apply NoDup_cons_iff in H as [Hk0 Hm].
    destruct (eqb k k0) eqn:E; cbn [keys List.map fst].
    + apply eqb_eq in E as ->. fold (keys m). now constructor.
    + fold (keys (set k v m)). constructor; [| now apply IH].
      rewrite keys_set. apply eqb_neq in E. intros [? | ?]; congruence.
Qed.




End Map.

End CollFacts.

(** ** The effects of the commands and of the hooks *)

Module OpsLogic.

Import Str Host Ops OpsProps.

Section Rules.

Context {Env : Type}.

Lemma adds_ret {A} (a : A) (P : Event -> Prop) : adds (ret (Env := Env) a) P.
Proof. intros w. exists []. cbn. now rewrite app_nil_r. Qed.

Lemma adds_lift {A} (o : Outcome A) (P : Event -> Prop) : adds (lift (Env := Env) o) P.
Proof. intros w. exists []. cbn. now rewrite app_nil_r. Qed.

Lemma adds_emit (e : Event) (P : Event -> Prop) : P e -> adds (emit (Env := Env) e) P.
Proof. intros He w. exists [e]. cbn. split; [reflexivity | now constructor]. Qed.

Lemma adds_call {A} (e : Event) (op : Env -> Outcome A * Env) (P : Event -> Prop) :
  P e -> adds (call e op) P.
Proof.
  intros He w. exists [e]. unfold call. destruct (op (env w)). cbn.
  split; [reflexivity | now constructor].
Qed.

Lemma adds_now (sv : Services Env) (P : Event -> Prop) : adds (Date_now sv) P.
Proof.
  intros w. exists []. unfold Date_now. destruct (sv_now sv (env w)). cbn.
  now rewrite app_nil_r.
Qed.

Lemma adds_tables (P : Event -> Prop) : adds (tables (Env := Env)) P.
Proof. intros w. exists []. cbn. now rewrite app_nil_r. Qed.

Lemma adds_update (f : Tracking -> Tracking) (P : Event -> Prop) :
  adds (update (Env := Env) f) P.
Proof. intros w. exists []. cbn. now rewrite app_nil_r. Qed.

Lemma adds_bind {A B} (m : M Env A) (k : A -> M Env B) (P : Event -> Prop) :
  adds m P -> (forall a, adds (k a) P) -> adds (bind m k) P.
Proof.
  intros Hm Hk w. unfold bind. destruct (Hm w) as [evs1 [H1 P1]].
  destruct (m w) as [[a | err] w1]; cbn [snd] in *.
  - destruct (Hk a w1) as [evs2 [H2 P2]]. exists (evs1 ++ evs2)%list.
    rewrite H2, H1, app_assoc. split; [reflexivity | now apply Forall_app].
  - now exists evs1.
Qed.

(** The same, when what follows depends on what [m] returned. *)
Lemma adds_bind_with {A B} (m : M Env A) (k : A -> M Env B) (P : Event -> Prop)
    (Q : A -> Prop) :
  adds m P -> (forall w a w', m w = (Ok a, w') -> Q a) ->
  (forall a, Q a -> adds (k a) P) -> adds (bind m k) P.
Proof.
  intros Hm Hq Hk w. unfold bind. destruct (Hm w) as [evs1 [H1 P1]].
  destruct (m w) as [[a | err] w1] eqn:E; cbn [snd] in *.
  - destruct (Hk a (Hq _ _ _ E) w1) as [evs2 [H2 P2]]. exists (evs1 ++ evs2)%list.
    rewrite H2, H1, app_assoc. split; [reflexivity | now apply Forall_app].
  - now exists evs1.
Qed.

Lemma adds_try_catch {A} (m : M Env A) (h : jsstring -> M Env A) (P : Event -> Prop) :
  adds m P -> (forall err, adds (h err) P) -> adds (try_catch m h) P.
Proof.
  intros Hm Hh w. unfold try_catch. destruct (Hm w) as [evs1 [H1 P1]].
  destruct (m w) as [[a | err] w1]; cbn [snd] in *.
  - now exists evs1.
  - destruct (Hh err w1) as [evs2 [H2 P2]]. exists (evs1 ++ evs2)%list.
    rewrite H2, H1, app_assoc. split; [reflexivity | now apply Forall_app].
Qed.

Lemma adds_weaken {A} (m : M Env A) (P P' : Event -> Prop) :
  adds m P -> (forall e, P e -> P' e) -> adds m P'.
Proof.
  intros Hm Hp w. destruct (Hm w) as [evs [H1 P1]]. exists evs.
  split; [exact H1 | eapply Forall_impl; eassumption].
Qed.

Lemma returns_ret {A} (a : A) : returns (ret (Env := Env) a).
Proof. intros w. now exists a, w. Qed.

Lemma returns_emit (e : Event) : returns (emit (Env := Env) e).
Proof. intros w. now eexists tt, _. Qed.

Lemma returns_bind {A B} (m : M Env A) (k : A -> M Env B) :
  returns m -> (forall a, returns (k a)) -> returns (bind m k).
Proof.
  intros Hm Hk w. destruct (Hm w) as [a [w1 H1]]. destruct (Hk a w1) as [b [w2 H2]].
  exists b, w2. unfold bind. now rewrite H1.
Qed.

Lemma returns_try_catch {A} (m : M Env A) (h : jsstring -> M Env A) :
  (forall err, returns (h err)) -> returns (try_catch m h).
Proof.
  intros Hh w. unfold try_catch. destruct (m w) as [[a | err] w1].
  - now exists a, w1.
  - apply Hh.
Qed.


Lemma keeps_lift {A} (o : Outcome A) : keeps (lift (Env := Env) o).
Proof. intros w. reflexivity. Qed.



Lemma keeps_now (sv : Services Env) : keeps (Date_now sv).
Proof. intros w. unfold Date_now. now destruct (sv_now sv (env w)). Qed.



End Rules.

End OpsLogic.

(** ** The commands *)

Module CliFacts.

Import Str Host Ops OpsProps CliProps OpsLogic Cli CollFacts.





Section Facts.

Context {Env : Type}.
Variable Emoji : N -> bool.
Variable sv : Services Env.
Variables (cfg_provider cfg_model : jsstring) (vectorDim : Num.number).
Variable extraction_enabled : bool.

Lemma find_noise_spec (memories : list MemoryRow) (w : World Env) :
  match find_noise Emoji sv memories w with
  | (Ok noise, w') =>
      noise = filter (fails_gate Emoji sv) memories /\ w' = w /\
      forallb (strips sv) memories = true
  | (Throw _, w') => w' = w /\ forallb (strips sv) memories = false
  end.
Proof.
  induction memories as [| mem rest IH]; cbn [find_noise filter forallb].
  - now split.
  - unfold bind at 1, lift at 1, fails_gate at 1, strips at 1 3.
    destruct (sv_stripMessageWrappers sv (mem_text mem)) as [stripped | err];
      [| now split].
    unfold bind. destruct (find_noise Emoji sv rest w) as [[noise | err] w'].
    + destruct IH as [-> [-> Hs]]. unfold ret. cbn [andb].
      now destruct (Plugin.passes_user Emoji stripped).
    + exact IH.
Qed.

Lemma print_previews_trace (noise : list MemoryRow) (w : World Env) :
  print_previews noise w =
    (Ok tt,
     {| tracking := tracking w; env := env w;
        trace := trace w
                 ++ List.map (fun mem => EvConsoleLog
                                (MsgNoisePreview (mem_source mem) (preview (mem_text mem))))
                      noise |}).
Proof.
  revert w. induction noise as [| mem rest IH]; intros w; cbn [print_previews List.map].
  - rewrite app_nil_r. now destruct w.
  - unfold bind, console_log, emit. rewrite IH. cbn [tracking env trace].
    now rewrite <- app_assoc.
Qed.

Lemma no_prune_among (evs : list Event) :
  Forall (fun e => is_prune e = false) evs -> filter is_prune evs = [].
Proof.
  induction 1 as [| e evs He _ IH]; cbn [filter]; [reflexivity |]. now rewrite He.
Qed.

(** X14.  [memory neo4j cleanup] deletes only with [--execute], in one
    call, and then exactly those memories of the answer that its query
    got (from the store as [ensureInitialized] left it) whose text, once
    its wrappers are stripped, fails the attention gate, in the order of
    the answer.  Nothing is deleted without [--execute], when no memory
    fails the gate, and when the initialisation, the query or the
    stripping of a wrapper throws. *)
Theorem cleanup_prunes_only_the_noise (opts : CleanupOpts) (w : World Env) :
  exists evs,
    trace (snd (cleanup_action Emoji sv opts w)) = (trace w ++ evs)%list /\
    filter is_prune evs =
      match db_ensureInitialized sv (env w) with
      | (Ok _, env1) =>
          match db_runQuery sv (cleanup_query opts) (Lifecycle.truthy (o_agent opts))
                  env1 with
          | (Ok memories, _) =>
              match filter (fails_gate Emoji sv) memories with
              | mem :: noise =>
                  if (o_execute opts && forallb (strips sv) memories)%bool
                  then [EvPruneMemories (List.map mem_id (mem :: noise))]
                  else []
              | [] => []
              end
          | (Throw _, _) => []
          end
      | (Throw _, _) => []
      end.
Proof.
  unfold cleanup_action, try_catch, bind at 1, ensureInitialized, call at 1.
  destruct (db_ensureInitialized sv (env w)) as [[[] | err] env1]; cbn [env trace].
  2: { eexists. unfold fail, bind, emit. cbn [snd trace]. rewrite <- !app_assoc.
       split; reflexivity. }
  unfold bind at 1, call at 1. cbn [env trace].
  destruct (db_runQuery sv _ _ env1) as [[memories | err] env2] eqn:Hq.
  2: { eexists. unfold fail, bind, emit. cbn [snd trace]. rewrite <- !app_assoc.
       split; reflexivity. }
  unfold bind at 1.
  match goal with
  | |- context [find_noise Emoji sv memories ?w0] =>
      pose proof (find_noise_spec memories w0) as Hn;
      destruct (find_noise Emoji sv memories w0) as [[noise | err] w1]
  end.
  2: { destruct Hn as [-> Hs]. rewrite Hs, andb_false_r.
       eexists. unfold fail, bind, emit. cbn [snd trace].
       rewrite <- !app_assoc. split; [reflexivity |].
       now destruct (filter _ memories). }
  destruct Hn as [Hnoise [-> Hs]]. rewrite Hs, andb_true_r, <- Hnoise.
  destruct noise as [| n0 noise].
  { eexists. unfold console_log, emit. cbn [snd trace]. rewrite <- !app_assoc.
    split; reflexivity. }
  unfold bind at 1, console_log at 1, emit at 1. cbn [tracking env trace].
  unfold bind at 1. rewrite print_previews_trace. cbn [tracking env trace].
  destruct (o_execute opts) eqn:Hx; cbn [negb].
  - unfold bind at 1, call at 1. cbn [env trace].
    destruct (db_pruneMemories sv _ env2) as [[deleted | err] env3].
    + eexists. unfold console_log, emit. cbn [snd trace tracking env].
      rewrite <- !app_assoc. split; [reflexivity |].
      cbn [app filter is_prune]. rewrite !filter_app. cbn [filter is_prune].
      rewrite no_prune_among; [reflexivity |].
      rewrite Forall_forall. now intros e [mem [<- _]]%in_map_iff.
    + eexists. unfold fail, bind, emit. cbn [snd trace tracking env].
      rewrite <- !app_assoc. split; [reflexivity |].
      cbn [app filter is_prune]. rewrite !filter_app. cbn [filter is_prune].
      rewrite no_prune_among; [reflexivity |].
      rewrite Forall_forall. now intros e [mem [<- _]]%in_map_iff.
  - eexists. unfold console_log, emit. cbn [snd trace tracking env].
    rewrite <- !app_assoc. split; [reflexivity |].
    cbn [app filter is_prune]. rewrite !filter_app. cbn [filter is_prune].
    rewrite no_prune_among; [reflexivity |].
    rewrite Forall_forall. now intros e [mem [<- _]]%in_map_iff.
Qed.

End Facts.

End CliFacts.

Module CliTheorems.

Import Str Host Ops OpsProps CliProps OpsLogic Cli CollFacts.

(** X15.  The query of [cleanup] never holds the agent id it is given:
    the id goes to the store as the parameter [agentId], and the text
    refers to [$agentId] exactly when that parameter is sent.  The filter
    on the source "auto-capture" is there exactly without [--all].  The
    text depends on the two flags only. *)
Theorem cleanup_query_binds_agent (opts : CleanupOpts) :
  includes (cleanup_query opts) (js "$agentId")
    = (match Lifecycle.truthy (o_agent opts) with Some _ => true | None => false end) /\
  includes (cleanup_query opts) (js "m.source = 'auto-capture'") = negb (o_all opts) /\
  forall agent,
    Lifecycle.truthy (o_agent opts) <> None -> Lifecycle.truthy agent <> None ->
    cleanup_query {| o_execute := o_execute opts; o_all := o_all opts; o_agent := agent |}
      = cleanup_query opts.
Proof.
  destruct opts as [x a [[| c r] |]]; destruct a;
    (split; [vm_compute; reflexivity | split; [vm_compute; reflexivity |]]);
    intros [[| c' r'] |] H1 H2; cbn in H1, H2; try congruence; reflexivity.
Qed.

Section Theorems.

Context {Env : Type}.
Variable Emoji : N -> bool.
Variable sv : Services Env.
Variables (cfg_provider cfg_model : jsstring) (vectorDim : Num.number).
Variable extraction_enabled : bool.

Lemma fail_returns (m : Message) : returns (fail (Env := Env) m).
Proof. intros w. now eexists tt, _. Qed.

(** X13.  [memory neo4j index]: a batch size that is not a number or
    not above 0 is refused before anything is printed or called, with one
    error line and the exit code 1; any other one (50 when the option is
    absent) is announced and handed to exactly one [reindex] call, the
    command's only call to the store, and the command returns. *)
Theorem index_validates_batch_size (option : option jsstring) (w : World Env) :
  if (Num.isNaN (batch_size option) || Num.le (batch_size option) Num.lit_0)%bool
  then
    index_action sv cfg_provider cfg_model vectorDim option w =
      (Ok tt,
       {| tracking := tracking w; env := env w;
          trace := trace w ++ [EvConsoleError MsgBatchSizeError; EvExitCode 1] |})
  else
    exists evs w',
      index_action sv cfg_provider cfg_model vectorDim option w = (Ok tt, w') /\
      tracking w' = tracking w /\
      trace w' =
        (trace w
         ++ EvConsoleLog (MsgReindexBanner cfg_provider cfg_model vectorDim
                            (batch_size option))
         :: EvReindex (batch_size option) :: evs)%list /\
      Forall (fun e => is_db e = false) evs.
Proof.
  unfold index_action. fold (batch_size option).
  destruct (_ || _)%bool.
  - unfold fail, bind, emit. cbn [tracking env trace]. now rewrite <- app_assoc.
  - unfold bind at 1, console_log at 1, emit at 1, try_catch, bind at 1, Date_now at 1.
    cbn [tracking env trace].
    destruct (sv_now sv (env w)) as [startedAt env1].
    unfold bind at 1, call at 1. cbn [tracking env trace].
    destruct (db_reindex sv (batch_size option) env1) as [[memories | err] env2].
    + unfold bind at 1, Date_now at 1. cbn [tracking env trace].
      destruct (sv_now sv env2) as [finishedAt env3].
      unfold console_log, emit. cbn [tracking env trace].
      eexists _, _. split; [reflexivity |]. split; [reflexivity |].
      rewrite <- !app_assoc. split; [reflexivity |]. repeat constructor.
    + unfold fail, bind, emit. cbn [tracking env trace].
      eexists _, _. split; [reflexivity |]. split; [reflexivity |].
      rewrite <- !app_assoc. split; [reflexivity |]. repeat constructor.
Qed.

(** X12.  The commands [list], [search], [promote], [index] and
    [cleanup] never throw: whatever the store and the search do, the
    command returns.  When the store cannot be initialised, [list],
    [promote] and [cleanup] make no other call, print the error and set
    the exit code 1. *)
Theorem commands_never_throw :
  (forall json, returns (list_action sv json)) /\
  (forall query limit, returns (search_action sv extraction_enabled query limit)) /\
  (forall i, returns (promote_action sv i)) /\
  (forall option, returns (index_action sv cfg_provider cfg_model vectorDim option)) /\
  (forall opts, returns (cleanup_action Emoji sv opts)) /\
  forall (w : World Env) err env1,
    db_ensureInitialized sv (env w) = (Throw err, env1) ->
    let failed :=
      (Ok tt,
       {| tracking := tracking w; env := env1;
          trace := trace w ++ [EvEnsureInitialized;
                               EvConsoleError (MsgErrorOf err); EvExitCode 1] |}) in
    (forall json, list_action sv json w = failed) /\
    (forall i, promote_action sv i w = failed) /\
    (forall opts, cleanup_action Emoji sv opts w = failed).
Proof.
  split; [| split; [| split; [| split; [| split]]]]; intros.
  1-3, 5: apply returns_try_catch; intros; apply fail_returns.
  2: { cbv zeta. split; [| split]; intros.
       - unfold list_action, try_catch, bind at 1, ensureInitialized, call. rewrite H.
         unfold fail, bind, emit. cbn [tracking env trace]. now rewrite <- !app_assoc.
       - unfold promote_action, try_catch, bind at 1, ensureInitialized, call. rewrite H.
         unfold fail, bind, emit. cbn [tracking env trace]. now rewrite <- !app_assoc.
       - unfold cleanup_action, try_catch, bind at 1, ensureInitialized, call. rewrite H.
         unfold fail, bind, emit. cbn [tracking env trace]. now rewrite <- !app_assoc. }
  unfold index_action. destruct (_ || _)%bool; [apply fail_returns |].
  apply returns_bind; [apply returns_emit |]. intros _.
  apply returns_try_catch. intros. apply fail_returns.
Qed.

End Theorems.

End CliTheorems.

(** ** The session tables *)

Module TableFacts.

Import Str Host Ops OpsProps Lifecycle LifeProps CollFacts.

Lemma same_entries_refl (k : jsstring) (t : Tracking) : same_entries k t t.
Proof. now repeat split. Qed.

Lemma same_entries_trans (k : jsstring) (t1 t2 t3 : Tracking) :
  same_entries k t1 t2 -> same_entries k t2 t3 -> same_entries k t1 t3.
Proof.
  intros [A1 [A2 [A3 A4]]] [B1 [B2 [B3 B4]]]. repeat split; congruence.
Qed.

Lemma has_remove (k k' : jsstring) (s : list jsstring) :
  Coll.has k' (Coll.remove k s) = if Coll.eqb k' k then false else Coll.has k' s.
Proof.
  destruct (Coll.eqb k' k) eqn:E.
  - apply eqb_eq in E as ->. apply not_true_is_false.
    rewrite has_In, In_remove. now intros [? _].
  - apply eqb_neq in E. destruct (Coll.has k' s) eqn:H.
    + apply has_In. apply In_remove. split; [exact E | now apply has_In].
    + apply not_true_is_false. rewrite has_In, In_remove. intros [_ ?%has_In].
      congruence.
Qed.

Lemma forget_session_other (key k : jsstring) (t : Tracking) :
  k <> key -> same_entries k t (forget_session key t).
Proof.
  intros Hk%eqb_neq. unfold same_entries, forget_session.
  cbn [bootstrappedSessions coreMemoryIdsBySession midSessionRefreshAt sessionLastSeen].
  now rewrite has_remove, !get_delete, Hk.
Qed.

Lemma forget_session_forgets (key : jsstring) (t : Tracking) :
  forgotten key (forget_session key t).
Proof.
  unfold forgotten, forget_session.
  cbn [bootstrappedSessions coreMemoryIdsBySession midSessionRefreshAt sessionLastSeen].
  now rewrite has_remove, !get_delete, eqb_refl.
Qed.

Lemma forgotten_stays (key k : jsstring) (t : Tracking) :
  forgotten k t -> forgotten k (forget_session key t).
Proof.
  intros [H1 [H2 [H3 H4]]]. unfold forgotten, forget_session.
  cbn [bootstrappedSessions coreMemoryIdsBySession midSessionRefreshAt sessionLastSeen].
  rewrite has_remove, !get_delete. now destruct (Coll.eqb k key).
Qed.

Lemma sweep_from (cutoff : Z) (entries : list (jsstring * Z)) (k : jsstring) :
  forall t,
    let t' :=
      fold_left
        (fun t' entry =>
           if (snd entry <? cutoff)%Z then forget_session (fst entry) t' else t')
        entries t in
    if stale cutoff entries k then forgotten k t' else same_entries k t t'.
Proof.
  induction entries as [| [key ts] entries IH]; intros t; cbn [fold_left stale existsb].
  - apply same_entries_refl.
  - fold (stale cutoff entries k). cbn [fst snd]. cbv zeta in IH.
    destruct (ts <? cutoff)%Z.
    + rewrite andb_true_r. specialize (IH (forget_session key t)).
      destruct (Coll.eqb k key) eqn:E; cbn [orb].
      * apply eqb_eq in E as ->.
        destruct (stale cutoff entries key); [exact IH |].
        pose proof (forget_session_forgets key t) as [F1 [F2 [F3 F4]]].
        destruct IH as [H1 [H2 [H3 H4]]]. repeat split; congruence.
      * destruct (stale cutoff entries k); [exact IH |].
        eapply same_entries_trans; [| exact IH].
        apply forget_session_other. now apply eqb_neq.
    + rewrite andb_false_r. cbn [orb]. apply IH.
Qed.

Lemma stale_get (cutoff : Z) (entries : list (jsstring * Z)) (k : jsstring) :
  NoDup (Coll.keys entries) ->
  stale cutoff entries k =
    match Coll.get k entries with
    | Some ts => (ts <? cutoff)%Z
    | None => false
    end.
Proof.
  induction entries as [| [key ts] entries IH];
    cbn [Coll.keys List.map fst stale existsb Coll.get snd]; [reflexivity |].
  fold (Coll.keys entries) (stale cutoff entries k).
  intros H. apply NoDup_cons_iff in H as [Hk Hnd].
  destruct (Coll.eqb k key) eqn:E; cbn [andb orb]; [| now apply IH].
  apply eqb_eq in E as ->.
  replace (stale cutoff entries key) with false; [apply orb_false_r |].
  symmetry. rewrite (IH Hnd).
  destruct (Coll.get key entries) eqn:G; [| reflexivity].
  exfalso. apply Hk. apply get_In_keys. congruence.
Qed.

Lemma sweep_spec (cutoff : Z) (t : Tracking) (k : jsstring) :
  NoDup (Coll.keys (sessionLastSeen t)) -> swept cutoff t (sweep cutoff t) k.
Proof.
  intros Hnd. pose proof (sweep_from cutoff (sessionLastSeen t) k t) as H.
  cbv zeta in H. rewrite (stale_get _ _ _ Hnd) in H. fold (sweep cutoff t) in H.
  unfold swept. destruct (Coll.get k (sessionLastSeen t)) as [ts |]; exact H.
Qed.

Lemma sweep_lastTtlSweep (cutoff : Z) (t : Tracking) :
  lastTtlSweep (sweep cutoff t) = lastTtlSweep t.
Proof.
  unfold sweep. generalize (sessionLastSeen t) as entries. intros entries. revert t.
  induction entries as [| [key ts] entries IH]; intros t; cbn [fold_left fst snd];
    [reflexivity |].
  destruct (ts <? cutoff)%Z; now rewrite IH.
Qed.

(** *** Well-formed tables *)










Section Clock.

Context {Env : Type}.
Variable sv : Services Env.

(** [pruneStaleSessionEntries] and [touchSession] read the clock and
    rewrite the tables; they add no event and never throw. *)
Lemma pruneStaleSessionEntries_spec (w : World Env) :
  pruneStaleSessionEntries sv w =
    (Ok tt,
     {| tracking := pruned (fst (sv_now sv (env w))) (tracking w);
        env := snd (sv_now sv (env w));
        trace := trace w |}).
Proof.
  unfold pruneStaleSessionEntries, bind, Date_now, tables, update, pruned.
  destruct (sv_now sv (env w)) as [now env1]. cbn [tracking env trace fst snd].
  destruct (_ <? _)%Z; reflexivity.
Qed.

Lemma touchSession_spec (key : jsstring) (w : World Env) :
  touchSession sv key w =
    (Ok tt,
     {| tracking :=
          touched key (fst (sv_now sv (env w)))
            (fst (sv_now sv (snd (sv_now sv (env w))))) (tracking w);
        env := snd (sv_now sv (snd (sv_now sv (env w))));
        trace := trace w |}).
Proof.
  unfold touchSession, bind at 1, Date_now at 1.
  destruct (sv_now sv (env w)) as [t1 env1]. cbn [fst snd].
  unfold bind, update. now rewrite pruneStaleSessionEntries_spec.
Qed.

(** X18.  [pruneStaleSessionEntries] does nothing within five minutes
    of the last sweep.  Otherwise it notes the time of the sweep, removes
    from all four tables every session whose time stamp is older than 24
    hours, and leaves the entries of every other session as they are.  It
    adds no event and never throws. *)
Theorem prune_evicts_stale_sessions (w : World Env) :
  NoDup (Coll.keys (sessionLastSeen (tracking w))) ->
  exists w',
    pruneStaleSessionEntries sv w = (Ok tt, w') /\ trace w' = trace w /\
    let now := fst (sv_now sv (env w)) in
    if (now - lastTtlSweep (tracking w) <? 5 * 60 * 1000)%Z
    then tracking w' = tracking w
    else
      lastTtlSweep (tracking w') = now /\
      forall k, swept (now - 24 * 60 * 60 * 1000) (tracking w) (tracking w') k.
Proof.
  intros Hnd. rewrite pruneStaleSessionEntries_spec. eexists. split; [reflexivity |].
  split; [reflexivity |]. cbn [tracking]. cbv zeta. unfold pruned.
  destruct (_ <? _)%Z; [reflexivity |]. split.
  - now rewrite sweep_lastTtlSweep.
  - intros k. apply (sweep_spec _ (set_lastTtlSweep _ (tracking w)) k). exact Hnd.
Qed.

End Clock.

End TableFacts.

(** ** The lifecycle hooks *)

Module LifecycleFacts.

Import Str Host Ops OpsProps Lifecycle LifeProps CollFacts OpsLogic TableFacts.

Section Facts.

Context {Env : Type}.
Variable sv : Services Env.
Variables (maxEntries refreshThreshold autoRecallMinScore : Num.number).
Variables (extraction_enabled logger_debug : bool).

Lemma api_debug_spec (m : Message) (w : World Env) :
  api_debug logger_debug m w =
    (Ok tt,
     {| tracking := tracking w; env := env w;
        trace := trace w ++ if logger_debug then [EvLog debug m] else [] |}).
Proof.
  unfold api_debug. destruct logger_debug; [reflexivity |].
  unfold ret. rewrite app_nil_r. now destruct w.
Qed.






(** A session that was just touched survives the sweep of a steady
    clock. *)
Lemma touched_keeps (key : jsstring) (t1 t2 : Z) (t : Tracking) :
  NoDup (Coll.keys (sessionLastSeen t)) -> (t2 - t1 <= SESSION_TTL_MS)%Z ->
  same_entries key (set_lastSeen key t1 t) (touched key t1 t2 t).
Proof.
  intros Hnd Hclock. unfold touched, pruned.
  destruct (_ <? _)%Z; [apply same_entries_refl |].
  pose proof (sweep_spec (t2 - SESSION_TTL_MS)
                (set_lastTtlSweep t2 (set_lastSeen key t1 t)) key) as H.
  unfold swept in H. cbn [set_lastTtlSweep set_lastSeen sessionLastSeen] in H.
  rewrite get_set, eqb_refl in H.
  replace (t1 <? t2 - SESSION_TTL_MS)%Z with false in H
    by (symmetry; apply Z.ltb_ge; lia).
  apply H. now apply NoDup_keys_set.
Qed.

End Facts.

End LifecycleFacts.

Module LifecycleTheorems.

Import Str Host Ops OpsProps Lifecycle LifeProps CollFacts OpsLogic TableFacts
  LifecycleFacts.

Section Theorems.

Context {Env : Type}.
Variable sv : Services Env.
Variables (maxEntries refreshThreshold autoRecallMinScore : Num.number).
Variables (extraction_enabled logger_debug : bool).


(** X19.  Core memories are loaded once per session: after an
    [agent_bootstrap] for a session key whose query of the store did not
    throw, with a clock whose readings in a row are less than the TTL
    apart, the next [agent_bootstrap] for that key returns nothing and
    makes no call; it only writes a debug line. *)
Theorem bootstrap_runs_once_per_session (files files' : list BootstrapFile)
    (ctx : HookContext) (key : jsstring) (w : World Env)
    (memories : list CoreMemory) (env1 : Env) :
  steady_clock sv ->
  NoDup (Coll.keys (sessionLastSeen (tracking w))) ->
  truthy (hc_sessionKey ctx) = Some key ->
  db_listByCategory sv (js "core") maxEntries Num.lit_0
    (Plugin.or_else (hc_agentId ctx) (js "default")) (env w) = (Ok memories, env1) ->
  let w1 := snd (agent_bootstrap sv maxEntries logger_debug files ctx w) in
  agent_bootstrap sv maxEntries logger_debug files' ctx w1 =
    (Ok None,
     {| tracking := tracking w1; env := env w1;
        trace := trace w1
                 ++ if logger_debug then [EvLog debug (MsgAlreadyBootstrapped key)]
                    else [] |}).
Proof.
  intros Hclock Hnd Hkey Hdb. cbv zeta.
  assert (Hhas : Coll.has key
                   (bootstrappedSessions
                      (tracking (snd (agent_bootstrap sv maxEntries logger_debug
                                        files ctx w)))) = true).
  { unfold agent_bootstrap. cbv zeta. rewrite Hkey.
    unfold bind at 1, tables at 1.
    destruct (Coll.has key (bootstrappedSessions (tracking w))) eqn:Hw.
    { unfold bind. rewrite api_debug_spec. exact Hw. }
    unfold bind at 1. rewrite api_debug_spec.
    unfold try_catch, bind at 1. rewrite api_debug_spec.
    unfold bind at 1, listByCategory, call. cbn [tracking env trace].
    rewrite Hdb.
    assert (Hadd : forall t, Coll.has key (bootstrappedSessions (add_bootstrapped key t))
                             = true).
    { intros t. apply has_In. cbn [add_bootstrapped bootstrappedSessions].
      apply In_add. now left. }
    destruct memories as [| m ms].
    - unfold bind at 1, bind at 1, update at 1. cbn [tracking env trace].
      rewrite touchSession_spec. cbn [tracking env trace snd].
      unfold bind. rewrite api_debug_spec. cbn [tracking snd ret].
      destruct (touched_keeps key _ _ (add_bootstrapped key (tracking w)) Hnd
                  (Hclock env1)) as [-> _].
      apply Hadd.
    - destruct (place _ files) as [replaced files1].
      unfold bind at 1, bind at 1, update at 1. cbn [tracking env trace].
      unfold bind at 1, update at 1. cbn [tracking env trace].
      rewrite touchSession_spec. cbn [tracking env trace snd].
      unfold bind, api_info, emit, ret. cbn [tracking snd].
      destruct (touched_keeps key _ _
                  (set_coreIds key (Coll.of_list (List.map core_id (m :: ms)))
                     (add_bootstrapped key (tracking w))) Hnd (Hclock env1))
        as [-> _].
      apply Hadd. }
  generalize dependent (snd (agent_bootstrap sv maxEntries logger_debug files ctx w)).
  intros w1 Hhas. unfold agent_bootstrap. cbv zeta. rewrite Hkey.
  unfold bind at 1, tables at 1. rewrite Hhas.
  unfold bind. now rewrite api_debug_spec.
Qed.

Lemma forget_session_resets (key : jsstring) (msg : Message) (w : World Env) :
  resets (update (forget_session key) ;;; api_info msg)%ops key msg w.
Proof.
  eexists. split; [reflexivity |]. cbn [tracking env trace].
  split; [reflexivity |]. split; [reflexivity |].
  split; [apply forget_session_forgets |]. intros k Hk.
  now apply forget_session_other.
Qed.

(** X20.  [after_compaction] and [session_end] forget the session: the
    session (for [session_end], the session key or else the session id)
    is removed from all four tables, the other sessions keep their
    entries, and one info line is written.  The next [agent_bootstrap]
    of a session that the tables have forgotten asks the store for the
    core memories again. *)
Theorem reset_hooks_forget_the_session :
  (forall ctx key (w : World Env),
     truthy (hc_sessionKey ctx) = Some key ->
     resets (after_compaction ctx) key (MsgClearedAfterCompaction key) w) /\
  (forall ctx key (w : World Env),
     truthy (match hc_sessionKey ctx with
             | Some k => Some k
             | None => hc_sessionId ctx
             end) = Some key ->
     resets (session_end ctx) key (MsgClearedSessionEnd key) w) /\
  (forall files ctx key (w : World Env),
     truthy (hc_sessionKey ctx) = Some key ->
     forgotten key (tracking w) ->
     exists evs,
       trace (snd (agent_bootstrap sv maxEntries logger_debug files ctx w))
         = (trace w ++ evs)%list /\
       In (EvListByCategory (js "core") maxEntries Num.lit_0
             (Plugin.or_else (hc_agentId ctx) (js "default"))) evs).
Proof.
  split; [| split].
  - intros ctx key w Hkey. unfold after_compaction. rewrite Hkey.
    apply forget_session_resets.
  - intros ctx key w Hkey. unfold session_end. rewrite Hkey.
    apply forget_session_resets.
  - intros files ctx key w Hkey [Hhas _]. unfold agent_bootstrap. cbv zeta.
    rewrite Hkey. unfold bind at 1, tables at 1. rewrite Hhas.
    unfold bind at 1. rewrite api_debug_spec.
    unfold try_catch, bind at 1. rewrite api_debug_spec.
    unfold bind at 1, listByCategory, call. cbn [tracking env trace].
    destruct (db_listByCategory sv _ _ _ _ (env w)) as [[[| m ms] | err] env1].
    + unfold bind at 1, bind at 1, update at 1. cbn [tracking env trace].
      rewrite touchSession_spec. cbn [tracking env trace snd].
      unfold bind. rewrite api_debug_spec. cbn [trace snd ret].
      eexists. rewrite <- !app_assoc. split; [reflexivity |].
      rewrite !in_app_iff. cbn [In]. auto.
    + destruct (place _ files) as [replaced files1].
      unfold bind at 1, bind at 1, update at 1. cbn [tracking env trace].
      unfold bind at 1, update at 1. cbn [tracking env trace].
      rewrite touchSession_spec. cbn [tracking env trace snd].
      unfold bind, api_info, emit, ret. cbn [trace snd].
      eexists. rewrite <- !app_assoc. split; [reflexivity |].
      rewrite !in_app_iff. cbn [In]. auto.
    + unfold bind, api_warn, emit, ret. cbn [trace snd].
      eexists. rewrite <- !app_assoc. split; [reflexivity |].
      rewrite !in_app_iff. cbn [In]. auto.
Qed.

(** X21.  The mid-session refresh is throttled: after a refresh at
    [used] tokens, a [before_agent_start] of the same session with fewer
    than 10000 tokens more makes no call and injects nothing; it writes a
    debug line at most, and leaves the tables as they are. *)
Theorem refresh_is_throttled (event event' : BeforeAgentStart) (ctx : HookContext)
    (w : World Env) (text : jsstring) (used used' : Num.number) :
  steady_clock sv ->
  NoDup (Coll.keys (sessionLastSeen (tracking w))) ->
  fst (mid_session_refresh sv maxEntries refreshThreshold logger_debug event ctx w)
    = Ok (Some text) ->
  ev_estimatedUsedTokens event = Some used ->
  ev_estimatedUsedTokens event' = Some used' ->
  Num.lt (NumOps.sub used' used) MIN_TOKENS_SINCE_REFRESH = true ->
  let w1 := snd (mid_session_refresh sv maxEntries refreshThreshold logger_debug
                   event ctx w) in
  exists evs,
    mid_session_refresh sv maxEntries refreshThreshold logger_debug event' ctx w1 =
      (Ok None,
       {| tracking := tracking w1; env := env w1; trace := (trace w1 ++ evs)%list |}) /\
    Forall (fun e => exists m, e = EvLog debug m) evs.
Proof.
  intros Hclock Hnd Hfirst Hused Hused'.
  destruct (mid_session_refresh sv maxEntries refreshThreshold logger_debug event ctx w)
    as [r w1] eqn:Hrun.
  cbn [fst snd] in *. subst r.
  assert (Hmark :
    Coll.get (Plugin.default (hc_sessionKey ctx) []) (midSessionRefreshAt (tracking w1))
      = Some used).
  { revert Hrun. unfold mid_session_refresh. rewrite Hused.
    destruct (ev_contextWindowTokens event) as [window |]; [| discriminate].
    destruct (_ || _)%bool; [discriminate |].
    destruct (Num.lt _ refreshThreshold); [discriminate |].
    unfold bind at 1, tables.
    destruct (Num.lt _ MIN_TOKENS_SINCE_REFRESH).
    { unfold bind. rewrite api_debug_spec. discriminate. }
    unfold try_catch, bind at 1, listByCategory, call.
    destruct (db_listByCategory sv _ _ _ _ (env w)) as [[[| m ms] | err] env1];
      cbn [tracking env trace]; try discriminate.
    unfold bind at 1, update. cbn [tracking env trace].
    unfold bind at 1. rewrite touchSession_spec. cbn [tracking env trace snd].
    unfold bind, api_info, emit, ret. cbn [tracking env trace].
    intros [= _ <-]. cbn [tracking].
    destruct (touched_keeps (Plugin.default (hc_sessionKey ctx) []) _ _
                (set_refreshAt (Plugin.default (hc_sessionKey ctx) []) used (tracking w))
                Hnd (Hclock env1)) as [_ [_ [-> _]]].
    cbn [set_lastSeen set_refreshAt midSessionRefreshAt].
    now rewrite get_set, eqb_refl. }
  clear Hrun. intros Hlt.
  assert (Hnone : exists evs,
            ret (Env := Env) (None (A := jsstring)) w1 =
              (Ok None,
               {| tracking := tracking w1; env := env w1;
                  trace := (trace w1 ++ evs)%list |}) /\
            Forall (fun e => exists m, e = EvLog debug m) evs).
  { exists []. rewrite app_nil_r. split; [now destruct w1 | constructor]. }
  unfold mid_session_refresh. rewrite Hused'.
  destruct (ev_contextWindowTokens event') as [window |]; [| exact Hnone].
  destruct (_ || _)%bool; [exact Hnone |].
  destruct (Num.lt _ refreshThreshold); [exact Hnone |].
  unfold bind at 1, tables. rewrite Hmark. cbn [Plugin.default]. rewrite Hlt.
  unfold bind. rewrite api_debug_spec. unfold ret.
  eexists. split; [reflexivity |].
  destruct logger_debug; repeat constructor. now eexists.
Qed.

Lemma place_spec (v : BootstrapFile) (files : list BootstrapFile) :
  placed v files (snd (place v files)).
Proof.
  unfold placed. induction files as [| f files IH]; cbn [place forallb].
  - right. now split.
  - destruct (is_memory_file f) eqn:Hf; cbn [negb andb snd].
    + left. exists [], f, files. now repeat split.
    + destruct (place v files) as [replaced files1]. cbn [snd] in *.
      destruct IH as [[pre [g [post [-> [Hpre [Hg ->]]]]]] | [Hall ->]].
      * left. exists (f :: pre), g, post. cbn [forallb app]. rewrite Hf, Hpre.
        now repeat split.
      * right. now split.
Qed.

(** X22.  When [agent_bootstrap] returns a list of files, it is the
    event's list with one change: the virtual [MEMORY.md], which lists the
    core memories the store returned, stands in the place of the first
    file named [MEMORY.md] or [memory.md], or at the end when there is
    none.  Every other file is kept, in its place. *)
Theorem bootstrap_places_memory_file (files files' : list BootstrapFile)
    (ctx : HookContext) (w : World Env) :
  fst (agent_bootstrap sv maxEntries logger_debug files ctx w) = Ok (Some files') ->
  exists (memories : list CoreMemory) (env1 : Env),
    db_listByCategory sv (js "core") maxEntries Num.lit_0
      (Plugin.or_else (hc_agentId ctx) (js "default")) (env w) = (Ok memories, env1) /\
    memories <> [] /\
    placed (core_memory_file memories) files files'.
Proof.
  unfold agent_bootstrap. cbv zeta. set (load := try_catch _ _).
  assert (Hload : forall w0 : World Env,
            env w0 = env w -> fst (load w0) = Ok (Some files') ->
            exists (memories : list CoreMemory) (env1 : Env),
              db_listByCategory sv (js "core") maxEntries Num.lit_0
                (Plugin.or_else (hc_agentId ctx) (js "default")) (env w)
                = (Ok memories, env1) /\
              memories <> [] /\
              placed (core_memory_file memories) files files').
  2: { unfold bind at 1, tables at 1.
       destruct (truthy (hc_sessionKey ctx)) as [key |];
         [| now apply Hload].
       destruct (Coll.has key _).
       - unfold bind. rewrite api_debug_spec. discriminate.
       - unfold bind at 1. rewrite api_debug_spec. now apply Hload. }
  subst load. intros w0 Henv.
  unfold try_catch, bind at 1. rewrite api_debug_spec.
  unfold bind at 1, listByCategory, call. cbn [tracking env trace]. rewrite Henv.
  destruct (db_listByCategory sv _ _ _ _ (env w)) as [[[| m ms] | err] env1].
  - destruct (truthy (hc_sessionKey ctx)) as [key |].
    + unfold bind at 1, bind at 1, update at 1. cbn [tracking env trace].
      rewrite touchSession_spec. unfold bind. rewrite api_debug_spec. discriminate.
    + unfold bind at 1, ret at 1. unfold bind. rewrite api_debug_spec. discriminate.
  - intros Hres. exists (m :: ms), env1. split; [reflexivity |].
    split; [discriminate |].
    fold (core_memory_file (m :: ms)) in Hres.
    pose proof (place_spec (core_memory_file (m :: ms)) files) as Hp.
    destruct (place (core_memory_file (m :: ms)) files) as [replaced files1].
    cbn [snd] in Hp.
    assert (files1 = files') as <-; [| exact Hp].
    destruct (truthy (hc_sessionKey ctx)) as [key |].
    + unfold bind at 1, bind at 1, update at 1 in Hres. cbn [tracking env trace] in Hres.
      unfold bind at 1, update at 1 in Hres. cbn [tracking env trace] in Hres.
      rewrite touchSession_spec in Hres.
      unfold bind, api_info, emit, ret in Hres. cbn [fst] in Hres.
      now injection Hres as <-.
    + unfold bind, api_info, emit, ret in Hres. cbn [fst] in Hres.
      now injection Hres as <-.
  - unfold bind, api_warn, emit, ret. discriminate.
Qed.

End Theorems.

End LifecycleTheorems.

(** ** What the hooks inject *)

Module InjectionTheorems.

Import Str Host Ops OpsProps Lifecycle LifeProps CollFacts OpsLogic TableFacts
  LifecycleFacts.

Section Theorems.

Context {Env : Type}.
Variable sv : Services Env.
Variables (maxEntries refreshThreshold autoRecallMinScore : Num.number).
Variables (extraction_enabled logger_debug : bool).

Lemma filter_twice {A : Type} (p q : A -> bool) (l : list A) :
  filter q (filter p l) = filter (fun x => (p x && q x)%bool) l.
Proof.
  induction l as [| a l IH]; cbn [filter]; [reflexivity |].
  destruct (p a); cbn [filter andb]; [destruct (q a) |]; now rewrite IH.
Qed.

Lemma auto_recall_result (event : BeforeAgentStart) (ctx : HookContext)
    (w : World Env) (text : jsstring) :
  fst (auto_recall sv autoRecallMinScore extraction_enabled logger_debug event ctx w)
    = Ok (Some text) ->
  exists query found env1,
    sv_hybridSearch sv query NumOps.lit_3
      (Plugin.or_else (hc_agentId ctx) (js "default")) extraction_enabled (env w)
      = (Ok found, env1) /\
    let kept :=
      filter (recalled autoRecallMinScore (tracking w)
                (Plugin.default (hc_sessionKey ctx) [])) found in
    kept <> [] /\ text = relevant_memories kept.
Proof.
  unfold auto_recall. destruct (truthy (ev_prompt event)) as [prompt |];
    [| discriminate].
  destruct (_ <? _)%Z; [discriminate |].
  unfold try_catch, bind at 1, hybridSearch, call.
  destruct (sv_hybridSearch sv _ _ _ _ (env w)) as [[found | err] env1] eqn:Hs.
  2: { unfold bind, api_warn, emit, ret. discriminate. }
  unfold bind at 1, tables. cbn [tracking env trace].
  assert (Hkept :
    match Coll.get (Plugin.default (hc_sessionKey ctx) [])
            (coreMemoryIdsBySession (tracking w)) with
    | Some coreIds =>
        filter (fun r => negb (Coll.has (sr_id r) coreIds))
          (filter (fun r => Num.ge (sr_score r) autoRecallMinScore) found)
    | None => filter (fun r => Num.ge (sr_score r) autoRecallMinScore) found
    end
    = filter (recalled autoRecallMinScore (tracking w)
                (Plugin.default (hc_sessionKey ctx) [])) found).
  { unfold recalled. destruct (Coll.get _ _) as [coreIds |].
    - apply filter_twice.
    - apply filter_ext. intros r. now rewrite andb_true_r. }
  rewrite Hkept.
  destruct (filter (recalled _ _ _) found) as [| r0 kept] eqn:Hk; [discriminate |].
  unfold bind at 1, api_info, emit. unfold bind. rewrite api_debug_spec.
  unfold ret. cbn [fst]. intros [= <-].
  eexists _, found, env1. split; [exact Hs |]. cbv zeta. rewrite Hk.
  split; [discriminate | reflexivity].
Qed.

(** The query is the prompt, cut after its first 1000 characters. *)
Lemma recall_query_firstn (prompt : jsstring) :
  (if (length prompt >? MAX_QUERY_CHARS)%Z then slice prompt 0 MAX_QUERY_CHARS
   else prompt) = firstn 1000 prompt.
Proof.
  unfold MAX_QUERY_CHARS. destruct (Z.gtb_spec (length prompt) 1000).
  - now rewrite StrFacts.slice_0 by lia.
  - unfold length in *. rewrite firstn_all2 by lia. reflexivity.
Qed.

(** What [auto_recall] returns for a prompt of at least 5 characters. *)
Lemma auto_recall_value (event : BeforeAgentStart) (ctx : HookContext)
    (w : World Env) (prompt : jsstring) :
  ev_prompt event = Some prompt -> (5 <= length prompt)%Z ->
  fst (auto_recall sv autoRecallMinScore extraction_enabled logger_debug event ctx w) =
    match sv_hybridSearch sv (firstn 1000 prompt) NumOps.lit_3
            (Plugin.or_else (hc_agentId ctx) (js "default")) extraction_enabled
            (env w) with
    | (Ok found, _) =>
        match filter (recalled autoRecallMinScore (tracking w)
                        (Plugin.default (hc_sessionKey ctx) [])) found with
        | [] => Ok None
        | r :: kept => Ok (Some (relevant_memories (r :: kept)))
        end
    | (Throw _, _) => Ok None
    end.
Proof.
  intros Hp Hlen. unfold auto_recall. rewrite Hp.
  destruct prompt as [| c prompt]; [unfold length in Hlen; cbn in Hlen; lia |].
  cbn [truthy].
  destruct (Z.ltb_spec (length (c :: prompt)) 5) as [Hlt | _]; [lia |].
  rewrite recall_query_firstn.
  unfold try_catch, bind at 1, hybridSearch, call.
  destruct (sv_hybridSearch sv _ _ _ _ (env w)) as [[found | err] env1] eqn:Hs.
  2: { unfold bind, api_warn, emit, ret. reflexivity. }
  unfold bind at 1, tables. cbn [tracking env trace].
  assert (Hkept :
    match Coll.get (Plugin.default (hc_sessionKey ctx) [])
            (coreMemoryIdsBySession (tracking w)) with
    | Some coreIds =>
        filter (fun r => negb (Coll.has (sr_id r) coreIds))
          (filter (fun r => Num.ge (sr_score r) autoRecallMinScore) found)
    | None => filter (fun r => Num.ge (sr_score r) autoRecallMinScore) found
    end
    = filter (recalled autoRecallMinScore (tracking w)
                (Plugin.default (hc_sessionKey ctx) [])) found).
  { unfold recalled. destruct (Coll.get _ _) as [coreIds |].
    - apply filter_twice.
    - apply filter_ext. intros r. now rewrite andb_true_r. }
  rewrite Hkept.
  destruct (filter (recalled _ _ _) found) as [| r0 kept]; [reflexivity |].
  unfold bind at 1, api_info, emit. unfold bind. rewrite api_debug_spec.
  reflexivity.
Qed.

(** X23.  [auto_recall] never throws.  It searches only for a prompt of
    at least 5 characters, with the first 1000 characters of the prompt
    (the whole prompt when it is not longer) as the query and a limit of
    3.  It injects a context exactly when that search, made on the store
    as the hook found it, returns and some result has a score that is not
    below the configured minimum and is not among the core memories
    loaded for the session; the context is made of those results, in the
    order of the answer.  Otherwise it injects nothing. *)
Theorem auto_recall_injects_relevant_memories (event : BeforeAgentStart)
    (ctx : HookContext) :
  returns (auto_recall sv autoRecallMinScore extraction_enabled logger_debug event ctx) /\
  adds (auto_recall sv autoRecallMinScore extraction_enabled logger_debug event ctx)
    (fun e =>
       is_db e = true ->
       exists prompt,
         ev_prompt event = Some prompt /\ (5 <= length prompt)%Z /\
         e = EvHybridSearch (firstn 1000 prompt) NumOps.lit_3
               (Plugin.or_else (hc_agentId ctx) (js "default")) extraction_enabled) /\
  forall (w : World Env) text,
    fst (auto_recall sv autoRecallMinScore extraction_enabled logger_debug event ctx w)
      = Ok (Some text) <->
    exists prompt found env1,
      ev_prompt event = Some prompt /\ (5 <= length prompt)%Z /\
      sv_hybridSearch sv (firstn 1000 prompt) NumOps.lit_3
        (Plugin.or_else (hc_agentId ctx) (js "default")) extraction_enabled (env w)
        = (Ok found, env1) /\
      let kept :=
        filter (recalled autoRecallMinScore (tracking w)
                  (Plugin.default (hc_sessionKey ctx) [])) found in
      kept <> [] /\ text = relevant_memories kept.
Proof.
  split; [| split].
  - unfold auto_recall. destruct (truthy (ev_prompt event)); [| apply returns_ret].
    destruct (_ <? _)%Z; [apply returns_ret |].
    apply returns_try_catch. intros err.
    apply returns_bind; [apply returns_emit | intros; apply returns_ret].
  - unfold auto_recall.
    destruct (ev_prompt event) as [[| c prompt] |]; cbn [truthy];
      try apply adds_ret.
    destruct (Z.ltb_spec (length (c :: prompt)) 5); [apply adds_ret |].
    rewrite recall_query_firstn.
    apply adds_try_catch.
    + apply adds_bind.
      * apply adds_call. intros _. exists (c :: prompt). now repeat split.
      * intros results. apply adds_bind; [apply adds_tables |]. intros t.
        destruct (match Coll.get _ _ with Some _ => _ | None => _ end);
          [apply adds_ret |].
        apply adds_bind; [apply adds_emit; discriminate |]. intros _.
        apply adds_bind; [| intros; apply adds_ret].
        unfold api_debug. destruct logger_debug;
          [apply adds_emit; discriminate | apply adds_ret].
    + intros err. apply adds_bind; [apply adds_emit; discriminate |].
      intros; apply adds_ret.
  - intros w text. split.
    + intros Hres.
      destruct (ev_prompt event) as [prompt |] eqn:Hp.
      2: { unfold auto_recall in Hres. rewrite Hp in Hres. discriminate. }
      destruct (Z.ltb_spec (length prompt) 5) as [Hlt | Hge].
      { unfold auto_recall in Hres. rewrite Hp in Hres.
        destruct prompt as [| c prompt]; cbn [truthy] in Hres; [discriminate |].
        destruct (Z.ltb_spec (length (c :: prompt)) 5); [discriminate | lia]. }
      rewrite (auto_recall_value event ctx w prompt Hp Hge) in Hres.
      destruct (sv_hybridSearch sv _ _ _ _ (env w)) as [[found | err] env1] eqn:Hs;
        [| discriminate].
      exists prompt, found, env1. split; [reflexivity |]. split; [exact Hge |].
      split; [exact Hs |]. cbv zeta.
      destruct (filter (recalled _ _ _) found) as [| r kept]; [discriminate |].
      injection Hres as <-. split; [discriminate | reflexivity].
    + intros [prompt [found [env1 [Hp [Hge [Hs Hk]]]]]]. cbv zeta in Hk.
      destruct Hk as [Hne ->].
      rewrite (auto_recall_value event ctx w prompt Hp Hge), Hs.
      destruct (filter (recalled _ _ _) found) as [| r kept];
        [now contradiction Hne | reflexivity].
Qed.

Lemma refresh_result (event : BeforeAgentStart) (ctx : HookContext)
    (w : World Env) (text : jsstring) :
  fst (mid_session_refresh sv maxEntries refreshThreshold logger_debug event ctx w)
    = Ok (Some text) ->
  exists rest, text = (js "<core-memory-refresh>" ++ rest)%list.
Proof.
  unfold mid_session_refresh.
  destruct (ev_contextWindowTokens event) as [window |]; [| discriminate].
  destruct (ev_estimatedUsedTokens event) as [used |]; [| discriminate].
  destruct (_ || _)%bool; [discriminate |].
  destruct (Num.lt _ refreshThreshold); [discriminate |].
  unfold bind at 1, tables.
  destruct (Num.lt _ MIN_TOKENS_SINCE_REFRESH).
  { unfold bind. rewrite api_debug_spec. discriminate. }
  unfold try_catch, bind at 1, listByCategory, call.
  destruct (db_listByCategory sv _ _ _ _ (env w)) as [[[| m ms] | err] env1];
    cbn [tracking env trace]; try discriminate.
  unfold bind at 1, update. cbn [tracking env trace].
  unfold bind at 1. rewrite touchSession_spec.
  unfold bind, api_info, emit, ret. cbn [fst]. intros [= <-]. eexists. reflexivity.
Qed.

(** X24.  The plugin does not capture what it injected: a context that
    the mid-session refresh or [auto_recall] returns is rejected by the
    user gate and by the assistant gate, in every state of the pattern
    array. *)
Theorem injected_context_is_never_captured (Emoji : N -> bool)
    (event : BeforeAgentStart) (ctx : HookContext) (w : World Env) (text : jsstring)
    (ps : list RegExp.RegExp) :
  fst (mid_session_refresh sv maxEntries refreshThreshold logger_debug event ctx w)
    = Ok (Some text) \/
  fst (auto_recall sv autoRecallMinScore extraction_enabled logger_debug event ctx w)
    = Ok (Some text) ->
  fst (Gate.passesAttentionGate Emoji text ps) = false /\
  Gate.passesAssistantAttentionGate Emoji text ps = Some (false, ps).
Proof.
  intros H. apply GateMore.marked_is_rejected, GateMore.marker_survives_trim.
  apply orb_true_iff. destruct H as [H | H].
  - right. apply refresh_result in H as [rest ->].
    apply (TrimFacts.includes_app [] (js "<core-memory-refresh>") rest).
  - left. apply auto_recall_result in H as [query [found [env1 [_ [_ ->]]]]].
    unfold relevant_memories.
    apply (TrimFacts.includes_app [] (js "<relevant-memories>")).
Qed.

(** X25.  The service degrades gracefully: [start] never throws; when
    the store cannot be initialised it writes one error line and returns,
    with no other call.  [stop] closes the store and then writes its
    line; when closing throws, so does [stop], and the line is not
    written. *)
Theorem service_start_never_throws (w : World Env) :
  match db_ensureInitialized sv (env w) with
  | (Ok _, env1) =>
      service_start sv w =
        (Ok tt, {| tracking := tracking w; env := env1;
                   trace := trace w ++ [EvEnsureInitialized;
                                        EvLog info MsgServiceStarted] |})
  | (Throw err, env1) =>
      service_start sv w =
        (Ok tt, {| tracking := tracking w; env := env1;
                   trace := trace w ++ [EvEnsureInitialized;
                                        EvLog error (MsgServiceFailed err)] |})
  end /\
  match db_close sv (env w) with
  | (Ok _, env1) =>
      service_stop sv w =
        (Ok tt, {| tracking := tracking w; env := env1;
                   trace := trace w ++ [EvClose; EvLog info MsgServiceStopped] |})
  | (Throw err, env1) =>
      service_stop sv w =
        (Throw err, {| tracking := tracking w; env := env1;
                       trace := trace w ++ [EvClose] |})
  end.
Proof.
  unfold service_start, service_stop, try_catch, bind, call, api_info, api_error, emit.
  destruct (db_ensureInitialized sv (env w)) as [[[] | err] env1],
           (db_close sv (env w)) as [[[] | err'] env2];
    cbn [tracking env trace]; rewrite <- ?app_assoc; now split.
Qed.

End Theorems.

End InjectionTheorems.

(** ** Instances of the theorems above *)

Module MoreInstances.

Import Str Host Props Logic.
Open Scope string_scope.

(** A model with a one-token context cuts "ab cd" to "ab ", and leaves
    that as it is. *)
Lemma truncateToContext_idempotent_witness :
  (0 <= Embeddings.contextLength Sample.tiny_embeddings)%Z /\
  Embeddings.truncateToContext Sample.tiny_embeddings (js "ab cd") Sample.world0
    = (Ok (js "ab "), Sample.world0) /\
  forall w1 : World Sample.Env,
    Embeddings.truncateToContext Sample.tiny_embeddings (js "ab ") w1 = (Ok (js "ab "), w1).
Proof.
  assert (H1 : (0 <= Embeddings.contextLength Sample.tiny_embeddings)%Z)
    by (vm_compute; discriminate).
  assert (H2 : Embeddings.truncateToContext Sample.tiny_embeddings (js "ab cd") Sample.world0
               = (Ok (js "ab "), Sample.world0)) by (vm_compute; reflexivity).
  split; [exact H1 |]. split; [exact H2 |].
  exact (EmbeddingsMore.truncateToContext_idempotent Sample.tiny_embeddings
           (js "ab cd") (js "ab ") Sample.world0 Sample.world0 H1 H2).
Defined.

(** The sample provider answers a batch in reverse order. *)
Lemma embedBatchOpenAI_restores_order_witness :
  let inputs := [js "ab"; js "cde"] in
  let data := rev (Sample.enumerate 0 inputs) in
  List.map index data = [1; 0]%Z /\
  exists vs w',
    Embeddings.embedBatchOpenAI Sample.runtime Sample.openai_embeddings inputs Sample.world0
      = (Ok vs, w') /\
    List.length vs = List.length data /\
    forall d, In d data -> nth_error vs (Z.to_nat (index d)) = Some (embedding d).
Proof.
  cbv zeta. split; [reflexivity |].
  refine (EmbeddingsMore.embedBatchOpenAI_restores_order Sample.runtime
            Sample.openai_embeddings [js "ab"; js "cde"] Sample.world0
            (rev (Sample.enumerate 0 [js "ab"; js "cde"])) Sample.env0
            eq_refl eq_refl _).
  apply perm_swap.
Defined.

(** The constructor with the Ollama provider, then [embed]. *)
Lemma constructed_embed_calls_provider_witness :
  Embeddings.new Sample.runtime None (Some (js "mxbai-embed-large"))
    (Some Embeddings.ollama) None (Some {| Embeddings.has_debug := true |})
    = Ok Sample.ollama_embeddings /\
  exists input logs r w',
    Embeddings.embed Sample.runtime Sample.ollama_embeddings Sample.long_text Sample.world0
      = (r, w') /\
    fst (Embeddings.truncateToContext Sample.ollama_embeddings Sample.long_text Sample.world0)
      = Ok input /\
    Forall (fun l => exists m, l = EvLog debug m) logs /\
    trace w' =
      (trace Sample.world0 ++ logs
       ++ [if Embeddings.is_ollama (Embeddings.provider Sample.ollama_embeddings)
           then EvFetchOllama
                  (Embeddings.baseUrl Sample.ollama_embeddings ++ js "/api/embed")
                  (Embeddings.model Sample.ollama_embeddings) input
           else EvOpenAICreate (Embeddings.model Sample.ollama_embeddings) (One input)])%list.
Proof.
  assert (H : Embeddings.new Sample.runtime None (Some (js "mxbai-embed-large"))
                (Some Embeddings.ollama) None (Some {| Embeddings.has_debug := true |})
              = Ok Sample.ollama_embeddings) by reflexivity.
  split; [exact H |].
  exact (EmbeddingsMore.constructed_embed_calls_provider Sample.runtime
           Sample.ollama_embeddings _ _ _ _ _ Sample.long_text Sample.world0 H).
Defined.

(** A user message that quotes the injected block. *)
Lemma marked_text_is_rejected_witness :
  let text := (Sample.long_text ++ js " <relevant-memories> - [fact] x")%list in
  (includes text (js "<relevant-memories>")
   || includes text (js "<core-memory-refresh>"))%bool = true /\
  fst (Gate.passesAttentionGate Sample.Emoji text Gate.NOISE_PATTERNS) = false /\
  Gate.passesAssistantAttentionGate Sample.Emoji text Gate.NOISE_PATTERNS
    = Some (false, Gate.NOISE_PATTERNS).
Proof.
  cbv zeta.
  assert (H : (includes (Sample.long_text ++ js " <relevant-memories> - [fact] x")%list
                 (js "<relevant-memories>")
               || includes (Sample.long_text ++ js " <relevant-memories> - [fact] x")%list
                    (js "<core-memory-refresh>"))%bool = true)
    by (vm_compute; reflexivity).
  split; [exact H |].
  exact (GateMore.marked_text_is_rejected Sample.Emoji _ Gate.NOISE_PATTERNS H).
Defined.

(** The sentence about the database passes both gates. *)
Lemma assistant_gate_is_stricter_witness :
  Gate.passesAssistantAttentionGate Sample.Emoji Sample.long_text Gate.NOISE_PATTERNS
    = Some (true, Gate.NOISE_PATTERNS) /\
  Gate.passesAttentionGate Sample.Emoji Sample.long_text Gate.NOISE_PATTERNS
    = (true, Gate.NOISE_PATTERNS).
Proof.
  assert (H : Gate.passesAssistantAttentionGate Sample.Emoji Sample.long_text
                Gate.NOISE_PATTERNS = Some (true, Gate.NOISE_PATTERNS))
    by (vm_compute; reflexivity).
  split; [exact H |].
  exact (GateMore.assistant_gate_is_stricter Sample.Emoji Sample.long_text _ _ H).
Defined.

(** Two spaces before, a line feed after. *)
Lemma gate_ignores_padding_witness :
  forallb isWhiteSpace (js "  ") = true /\ forallb isWhiteSpace [10%N] = true /\
  gate Sample.Emoji user (js "  " ++ Sample.long_text ++ [10%N])%list Gate.NOISE_PATTERNS
    = gate Sample.Emoji user Sample.long_text Gate.NOISE_PATTERNS.
Proof.
  split; [reflexivity |]. split; [reflexivity |].
  exact (GateMore.gate_ignores_padding Sample.Emoji user (js "  ") Sample.long_text
           [10%N] Gate.NOISE_PATTERNS eq_refl eq_refl).
Defined.

(** The prompt of [/new], in capitals. *)
Lemma system_prompts_are_rejected_witness :
  let text := js "  A NEW SESSION WAS STARTED VIA /new. Greet the user." in
  NoiseProps.system_prompt (trim text) /\
  fst (Gate.passesAttentionGate Sample.Emoji text Gate.NOISE_PATTERNS) = false /\
  Gate.passesAssistantAttentionGate Sample.Emoji text Gate.NOISE_PATTERNS
    = Some (false, Gate.NOISE_PATTERNS).
Proof.
  cbv zeta.
  assert (H : NoiseProps.system_prompt
                (trim (js "  A NEW SESSION WAS STARTED VIA /new. Greet the user."))).
  { exists [], (js "A NEW SESSION WAS STARTED VIA"), (js " /new. Greet the user.").
    split; [vm_compute; reflexivity |]. left. split; reflexivity. }
  split; [exact H |].
  exact (NoiseFacts.system_prompts_are_rejected Sample.Emoji _ Gate.NOISE_PATTERNS
           (GateFacts.same_patterns_refl _) H).
Defined.

(** A run that failed. *)
Lemma agent_end_skips_witness :
  let event := {| Plugin.ev_success := false;
                  Plugin.ev_messages := Some [(true, Sample.long_text)] |} in
  CaptureProps.nothing_to_capture event = true /\
  Plugin.agent_end Sample.Emoji Sample.runtime Sample.ollama_embeddings true true
    event Sample.ctx0 Sample.world0 =
    (Ok tt,
     {| env := env Sample.world0;
        trace := trace Sample.world0
                 ++ [EvLog debug (MsgAgentEndFired false 1); EvLog debug MsgSkipping] |}).
Proof.
  cbv zeta. split; [reflexivity |].
  exact (HookMore.agent_end_skips Sample.Emoji Sample.runtime Sample.ollama_embeddings
           true true
           {| Plugin.ev_success := false;
              Plugin.ev_messages := Some [(true, Sample.long_text)] |}
           Sample.ctx0 Sample.world0 eq_refl).
Defined.

(** [memory neo4j sleep --pareto 1.5] *)
Lemma sleep_rejects_without_io_witness :
  accepted Sample.pareto_out_of_range = false /\
  exists msg,
    Plugin.sleep_action Sample.runtime Sample.pareto_out_of_range Sample.world0 =
      (Ok tt,
       {| env := env Sample.world0;
          trace := trace Sample.world0 ++ [EvConsoleLog MsgSleepBanner;
                                           EvConsoleError (MsgError msg);
                                           EvExitCode 1] |}).
Proof.
  assert (H : accepted Sample.pareto_out_of_range = false) by (vm_compute; reflexivity).
  split; [exact H |].
  exact (SleepMore.sleep_rejects_without_io Sample.runtime Sample.pareto_out_of_range
           Sample.world0 H).
Defined.

(** The sample clock advances by one second at each reading. *)
Lemma sample_clock_is_steady : LifeProps.steady_clock Sample2.services.
Proof. intros e. cbn. unfold Lifecycle.SESSION_TTL_MS. lia. Qed.

(** A sweep two days after the last one, with a session that was last
    seen two days ago and one that was seen a minute ago: the first is
    evicted from all four tables, the second keeps its entries. *)
Lemma prune_evicts_stale_sessions_witness :
  NoDup (Coll.keys (Ops.sessionLastSeen (Ops.tracking Sample2.world_aged))) /\
  Ops.tracking (snd (Lifecycle.pruneStaleSessionEntries Sample2.services
                       Sample2.world_aged)) =
    {| Ops.bootstrappedSessions := [js "new"];
       Ops.coreMemoryIdsBySession := [(js "new", [js "c1"])];
       Ops.midSessionRefreshAt := [];
       Ops.sessionLastSeen := [(js "new", 172740000%Z)];
       Ops.lastTtlSweep := 172800000%Z |} /\
  exists w',
    Lifecycle.pruneStaleSessionEntries Sample2.services Sample2.world_aged
      = (Ok tt, w') /\
    Ops.trace w' = Ops.trace Sample2.world_aged /\
    let now := fst (Ops.sv_now Sample2.services (Ops.env Sample2.world_aged)) in
    if (now - Ops.lastTtlSweep (Ops.tracking Sample2.world_aged) <? 5 * 60 * 1000)%Z
    then Ops.tracking w' = Ops.tracking Sample2.world_aged
    else
      Ops.lastTtlSweep (Ops.tracking w') = now /\
      forall k,
        LifeProps.swept (now - 24 * 60 * 60 * 1000) (Ops.tracking Sample2.world_aged)
          (Ops.tracking w') k.
Proof.
  assert (H : NoDup (Coll.keys (Ops.sessionLastSeen (Ops.tracking Sample2.world_aged)))).
  { change (NoDup [js "old"; js "new"]).
    constructor; [intros [H | []]; discriminate H |].
    constructor; [intros [] | constructor]. }
  split; [exact H |].
  split; [vm_compute; reflexivity |].
  exact (TableFacts.prune_evicts_stale_sessions Sample2.services Sample2.world_aged H).
Defined.

(** Two bootstraps of the session "s1". *)
Lemma bootstrap_runs_once_per_session_witness :
  let w1 := snd (Lifecycle.agent_bootstrap Sample2.services Num.lit_1 true
                   Sample2.files0 Sample2.ctx1 Sample2.world0) in
  Lifecycle.agent_bootstrap Sample2.services Num.lit_1 true [] Sample2.ctx1 w1 =
    (Ok None,
     {| Ops.tracking := Ops.tracking w1; Ops.env := Ops.env w1;
        Ops.trace := Ops.trace w1
                     ++ [Ops.EvLog debug (Ops.MsgAlreadyBootstrapped (js "s1"))] |}).
Proof.
  exact (LifecycleTheorems.bootstrap_runs_once_per_session Sample2.services Num.lit_1
           true Sample2.files0 [] Sample2.ctx1 (js "s1") Sample2.world0
           (Sample2.core Sample2.env0) Sample2.env0
           sample_clock_is_steady (NoDup_nil _) eq_refl eq_refl).
Defined.

(** A refresh at 90000 tokens, then a turn at 92000. *)
Lemma refresh_is_throttled_witness :
  let w1 := snd (Lifecycle.mid_session_refresh Sample2.services Num.lit_1
                   NumOps.lit_50 true Sample2.nearly_full Sample2.ctx1 Sample2.world0) in
  (exists text,
     fst (Lifecycle.mid_session_refresh Sample2.services Num.lit_1 NumOps.lit_50 true
            Sample2.nearly_full Sample2.ctx1 Sample2.world0) = Ok (Some text)) /\
  exists evs,
    Lifecycle.mid_session_refresh Sample2.services Num.lit_1 NumOps.lit_50 true
      Sample2.a_little_later Sample2.ctx1 w1 =
      (Ok None,
       {| Ops.tracking := Ops.tracking w1; Ops.env := Ops.env w1;
          Ops.trace := (Ops.trace w1 ++ evs)%list |}) /\
    Forall (fun e => exists m, e = Ops.EvLog debug m) evs.
Proof.
  cbv zeta. split; [eexists; vm_compute; reflexivity |].
  refine (LifecycleTheorems.refresh_is_throttled Sample2.services Num.lit_1
            NumOps.lit_50 true Sample2.nearly_full Sample2.a_little_later Sample2.ctx1
            Sample2.world0 _ (Num.of_Z 90000) (Num.of_Z 92000)
            sample_clock_is_steady (NoDup_nil _) _ eq_refl eq_refl _);
    vm_compute; reflexivity.
Defined.

(** A workspace with [memory.md] before [MEMORY.md]: the first one is
    replaced, the second one stays. *)
Lemma bootstrap_places_memory_file_witness :
  exists files',
    fst (Lifecycle.agent_bootstrap Sample2.services Num.lit_1 true Sample2.files0
           Sample2.ctx1 Sample2.world0) = Ok (Some files') /\
    nth_error files' 2 = nth_error Sample2.files0 2 /\
    exists (memories : list Ops.CoreMemory) (env1 : Sample2.Env),
      Ops.db_listByCategory Sample2.services (js "core") Num.lit_1 Num.lit_0
        (Plugin.or_else (Lifecycle.hc_agentId Sample2.ctx1) (js "default"))
        (Ops.env Sample2.world0) = (Ok memories, env1) /\
      memories <> [] /\
      LifeProps.placed (LifeProps.core_memory_file memories) Sample2.files0 files'.
Proof.
  eexists. split; [vm_compute; reflexivity |]. split; [reflexivity |].
  refine (LifecycleTheorems.bootstrap_places_memory_file Sample2.services Num.lit_1 true
            Sample2.files0 _ Sample2.ctx1 Sample2.world0 _).
  vm_compute; reflexivity.
Defined.

(** [auto_recall] in the world as loaded: the sample search returns a
    result above the minimum and one below.  And for a prompt of 1010
    characters the query has 1000. *)
Lemma auto_recall_injects_relevant_memories_witness :
  (exists text,
     fst (Lifecycle.auto_recall Sample2.services Num.lit_0_5 true true
            Sample2.nearly_full Sample2.ctx1 Sample2.world0) = Ok (Some text) /\
     exists prompt found env1,
       Lifecycle.ev_prompt Sample2.nearly_full = Some prompt /\
       (5 <= length prompt)%Z /\
       Ops.sv_hybridSearch Sample2.services (firstn 1000 prompt) NumOps.lit_3
         (Plugin.or_else (Lifecycle.hc_agentId Sample2.ctx1) (js "default")) true
         (Ops.env Sample2.world0) = (Ok found, env1) /\
       let kept :=
         filter (LifeProps.recalled Num.lit_0_5 (Ops.tracking Sample2.world0)
                   (Plugin.default (Lifecycle.hc_sessionKey Sample2.ctx1) [])) found in
       kept <> [] /\ text = LifeProps.relevant_memories kept) /\
  List.map (fun e => match e with
                     | Ops.EvHybridSearch query _ _ _ => length query
                     | _ => 0%Z
                     end)
    (Ops.trace (snd (Lifecycle.auto_recall Sample2.services Num.lit_0_5 true false
                       Sample2.rambling Sample2.ctx1 Sample2.world0)))
    = [1000%Z; 0%Z].
Proof.
  split; [| vm_compute; reflexivity].
  eexists. split; [vm_compute; reflexivity |].
  refine (proj1 (proj2 (proj2 (InjectionTheorems.auto_recall_injects_relevant_memories
                                 Sample2.services Num.lit_0_5 true true
                                 Sample2.nearly_full Sample2.ctx1))
                   Sample2.world0 _) _).
  vm_compute; reflexivity.
Defined.

(** What [auto_recall] injects for the sample prompt is not captured. *)
Lemma injected_context_is_never_captured_witness :
  exists text,
    fst (Lifecycle.auto_recall Sample2.services Num.lit_0_5 true true
           Sample2.nearly_full Sample2.ctx1 Sample2.world0) = Ok (Some text) /\
    fst (Gate.passesAttentionGate Sample.Emoji text Gate.NOISE_PATTERNS) = false /\
    Gate.passesAssistantAttentionGate Sample.Emoji text Gate.NOISE_PATTERNS
      = Some (false, Gate.NOISE_PATTERNS).
Proof.
  eexists. split; [vm_compute; reflexivity |].
  refine (InjectionTheorems.injected_context_is_never_captured Sample2.services
            Num.lit_1 NumOps.lit_50 Num.lit_0_5 true true Sample.Emoji
            Sample2.nearly_full Sample2.ctx1 Sample2.world0 _ Gate.NOISE_PATTERNS _).
  right. vm_compute; reflexivity.
Defined.

(** The commands with the store down. *)
Lemma commands_never_throw_witness :
  Ops.db_ensureInitialized Sample2.services (Ops.env Sample2.world_down)
    = (Throw (js "ServiceUnavailable"), Ops.env Sample2.world_down) /\
  Cli.cleanup_action Sample.Emoji Sample2.services Sample2.cleanup_execute
    Sample2.world_down =
    (Ok tt,
     {| Ops.tracking := Ops.tracking Sample2.world_down;
        Ops.env := Ops.env Sample2.world_down;
        Ops.trace := [Ops.EvEnsureInitialized;
                      Ops.EvConsoleError (Ops.MsgErrorOf (js "ServiceUnavailable"));
                      Ops.EvExitCode 1] |}).
Proof.
  split; [reflexivity |].
  destruct (CliTheorems.commands_never_throw Sample.Emoji Sample2.services
              (js "ollama") (js "mxbai-embed-large") Num.lit_1 true)
    as [_ [_ [_ [_ [_ H]]]]].
  specialize (H Sample2.world_down _ _ eq_refl). cbv zeta in H.
  exact (proj2 (proj2 H) Sample2.cleanup_execute).
Defined.


(** [session_end] after a bootstrap of the session "s1". *)
Lemma reset_hooks_forget_the_session_witness :
  let w1 := snd (Lifecycle.agent_bootstrap Sample2.services Num.lit_1 true
                   Sample2.files0 Sample2.ctx1 Sample2.world0) in
  Coll.has (js "s1") (Ops.bootstrappedSessions (Ops.tracking w1)) = true /\
  LifeProps.resets (Lifecycle.session_end Sample2.ctx1) (js "s1")
    (Ops.MsgClearedSessionEnd (js "s1")) w1.
Proof.
  cbv zeta. split; [vm_compute; reflexivity |].
  exact (proj1 (proj2 (LifecycleTheorems.reset_hooks_forget_the_session
                         Sample2.services Num.lit_1 true))
           Sample2.ctx1 (js "s1") _ eq_refl).
Defined.

(** The query of [cleanup --agent main] and of [cleanup --agent other]. *)
Lemma cleanup_query_binds_agent_witness :
  Lifecycle.truthy (Cli.o_agent Sample2.cleanup_execute) <> None /\
  Cli.cleanup_query
    {| Cli.o_execute := true; Cli.o_all := false; Cli.o_agent := Some (js "other") |}
    = Cli.cleanup_query Sample2.cleanup_execute.
Proof.
  assert (H : Lifecycle.truthy (Cli.o_agent Sample2.cleanup_execute) <> None)
    by discriminate.
  split; [exact H |].
  exact (proj2 (proj2 (CliTheorems.cleanup_query_binds_agent Sample2.cleanup_execute))
           (Some (js "other")) H ltac:(discriminate)).
Defined.

End MoreInstances.
